(** * SillyTavern server extensions: Stable Diffusion and hosted-provider relays

    A shallow embedding of [src/stable-diffusion.js] (the SD WebUI, SD.Next
    and ComfyUI endpoints) and of the hosted multimodal provider endpoints,
    together with the properties of the specification that are about them.

    Conventions of the embedding:
    - a JavaScript string is its sequence of UTF-16 code units ([jsstring]);
    - a parsed JSON document is a [value]; the members of an object are
      kept in the order of their creation, and a property read with a key
      taken from data may find a built-in member instead ([member]);
    - a handler is a computation in the monad [M]: it reads the answers of
      the backend from an oracle, appends the outbound calls, the delays and
      the console output to a trace, and either returns or throws;
    - [while (true)] is run with fuel; running out of fuel is the outcome
      [Fuel], which is not a behaviour of the program. *)

From Stdlib Require Import List NArith ZArith QArith Bool Ascii String Lia Arith.
Import ListNotations.
Close Scope Q_scope.
Set Warnings "-register-all".


(** ** JavaScript strings *)

Definition jsstring := list N.

Definition js (s : string) : jsstring :=
  List.map N_of_ascii (list_ascii_of_string s).

Definition jsstring_eqb (a b : jsstring) : bool :=
  if list_eq_dec N.eq_dec a b then true else false.

(** The code units matched by [\s] and stripped by [String.prototype.trim]:
    WhiteSpace and LineTerminator of ECMAScript. *)
Definition is_js_whitespace (c : N) : bool :=
  ((9 <=? c) && (c <=? 13) || (c =? 32) || (c =? 160) || (c =? 5760)
   || (8192 <=? c) && (c <=? 8202) || (c =? 8232) || (c =? 8233)
   || (c =? 8239) || (c =? 8287) || (c =? 12288) || (c =? 65279))%N.

Definition SPACE : N := 32.
Definition COMMA : N := 44.
Definition DOT : N := 46.

(** The character class [[\s,.]]. *)
Definition is_ws_comma_dot (c : N) : bool :=
  is_js_whitespace c || (c =? COMMA)%N || (c =? DOT)%N.

Fixpoint drop_while (p : N -> bool) (s : jsstring) : jsstring :=
  match s with
  | [] => []
  | c :: t => if p c then drop_while p t else s
  end.

(** Remove the longest prefix and the longest suffix made of [p]. *)
Definition strip_ends (p : N -> bool) (s : jsstring) : jsstring :=
  rev (drop_while p (rev (drop_while p s))).

(** [x.trim()] *)
Definition trim (s : jsstring) : jsstring := strip_ends is_js_whitespace s.

(** [x.replace(/  /g, ' ')]: the matches are taken left to right and do not
    overlap, so each pair of adjacent spaces becomes one space. *)
Fixpoint replace_double_space (s : jsstring) : jsstring :=
  match s with
  | [] => []
  | a :: t =>
      match t with
      | [] => [a]
      | b :: rest =>
          if ((a =? SPACE) && (b =? SPACE))%N
          then SPACE :: replace_double_space rest
          else a :: replace_double_space t
      end
  end.

(** [x.replace(/^[\s,.]+|[\s,.]+$/g, '')]: the first alternative matches
    only at index 0, the second only a run that reaches the end. *)
Definition strip_ws_comma_dot (s : jsstring) : jsstring :=
  strip_ends is_ws_comma_dot s.

(** [safeStr] of the source, on a string argument ([String(x)] is then the
    identity). *)
Definition safeStr (x : jsstring) : jsstring :=
  let x := Nat.iter 16 replace_double_space x in
  let x := trim x in
  strip_ws_comma_dot x.

(** ** Runs of spaces *)

(** Number of leading spaces. *)
Fixpoint lead_spaces (s : jsstring) : N :=
  match s with
  | [] => 0
  | c :: t => if (c =? SPACE)%N then N.succ (lead_spaces t) else 0
  end.

(** Length of the longest run of consecutive spaces. *)
Fixpoint max_space_run (s : jsstring) : N :=
  match s with
  | [] => 0
  | c :: t =>
      if (c =? SPACE)%N
      then N.max (N.succ (lead_spaces t)) (max_space_run t)
      else max_space_run t
  end.

(** A run of [n] spaces. *)
Definition spaces (n : N) : jsstring := N.iter n (cons SPACE) [].

(** The letter a, 65537 spaces, the letter b. *)
Definition long_run_prompt : jsstring := js "a" ++ spaces 65537 ++ js "b".

(** No two adjacent spaces anywhere in the string. *)
Definition no_double_space (s : jsstring) : Prop :=
  forall l1 l2, s <> l1 ++ SPACE :: SPACE :: l2.

(** ** Values *)

(** A JavaScript value as the handlers meet it: [undefined] or a parsed
    JSON document.  Numbers are the rationals that JSON literals denote;
    the members of an object are listed in the order of their creation,
    each key once ([enumerate] gives the order of [Object.keys]). *)
Inductive value : Type :=
| VUndef
| VNull
| VBool (b : bool)
| VNum (q : Q)
| VStr (s : jsstring)
| VArr (xs : list value)
| VObj (members : list (jsstring * value)).

(** Thrown values. *)
Inductive Err : Type :=
| TypeError                                   (* raised by the runtime *)
| RangeError                                  (* raised by [writeHead] on an invalid status *)
| SyntaxError                                 (* [result.json()] on a body that is not JSON *)
| FetchError                                  (* a rejected [fetch] *)
| Error (msg : jsstring) (cause : option jsstring).   (* [new Error(msg, { cause })] *)

(** Outcome of a computation; [Fuel] marks a [while (true)] cut short by
    the fuel of the model. *)
Inductive Outcome (A : Type) : Type :=
| Ret (a : A)
| Throw (e : Err)
| Fuel.
Arguments Ret {A} a.
Arguments Throw {A} e.
Arguments Fuel {A}.

(** Result of an expression: a value, or a thrown error. *)
Inductive Result (A : Type) : Type :=
| Ok (a : A)
| Raise (e : Err).
Arguments Ok {A} a.
Arguments Raise {A} e.

(** Truthiness, as tested by [if (x)] and [!x]. *)
Definition truthy (v : value) : bool :=
  match v with
  | VUndef | VNull => false
  | VBool b => b
  | VNum q => negb (Qeq_bool q 0)
  | VStr s => match s with [] => false | _ => true end
  | VArr _ | VObj _ => true
  end.

Fixpoint assoc (k : jsstring) (ms : list (jsstring * value)) : option value :=
  match ms with
  | [] => None
  | (k', v) :: rest => if jsstring_eqb k' k then Some v else assoc k rest
  end.

(** Decimal digits of an array index. *)
Fixpoint digits_of_uint (d : Decimal.uint) : jsstring :=
  match d with
  | Decimal.Nil => []
  | Decimal.D0 d => 48%N :: digits_of_uint d
  | Decimal.D1 d => 49%N :: digits_of_uint d
  | Decimal.D2 d => 50%N :: digits_of_uint d
  | Decimal.D3 d => 51%N :: digits_of_uint d
  | Decimal.D4 d => 52%N :: digits_of_uint d
  | Decimal.D5 d => 53%N :: digits_of_uint d
  | Decimal.D6 d => 54%N :: digits_of_uint d
  | Decimal.D7 d => 55%N :: digits_of_uint d
  | Decimal.D8 d => 56%N :: digits_of_uint d
  | Decimal.D9 d => 57%N :: digits_of_uint d
  end.

Definition index_key (i : nat) : jsstring := digits_of_uint (Nat.to_uint i).

(** The element whose index is written [k], if [k] is an index in range. *)
Definition at_index_key {A : Type} (xs : list A) (k : jsstring) : option A :=
  match find (fun i => jsstring_eqb (index_key i) k) (seq 0 (List.length xs)) with
  | Some i => nth_error xs i
  | None => None
  end.

Definition LENGTH : jsstring := js "length".

(** Property read [v.k] / [v[k]] of the own member, [undefined] when
    there is none.  It is the property read of the source for the keys
    written in the source, none of which names a member of a built-in
    prototype (see [source_keys_not_inherited]), and for the keys that
    [Object.keys] has returned, which are own keys.  Reading from
    [undefined] or [null] throws.  The read with any other key that comes
    from data is [member] below. *)
Definition get (v : value) (k : jsstring) : Result value :=
  match v with
  | VUndef | VNull => Raise TypeError
  | VBool _ | VNum _ => Ok VUndef
  | VStr s =>
      if jsstring_eqb k LENGTH then Ok (VNum (inject_Z (Z.of_nat (List.length s))))
      else match at_index_key s k with
           | Some c => Ok (VStr [c])
           | None => Ok VUndef
           end
  | VArr xs =>
      if jsstring_eqb k LENGTH then Ok (VNum (inject_Z (Z.of_nat (List.length xs))))
      else match at_index_key xs k with
           | Some x => Ok x
           | None => Ok VUndef
           end
  | VObj ms =>
      match assoc k ms with
      | Some x => Ok x
      | None => Ok VUndef
      end
  end.

(** The members that every object inherits from [Object.prototype]. *)
Definition OBJECT_PROTOTYPE : list jsstring :=
  List.map js
    ["constructor"; "__defineGetter__"; "__defineSetter__"; "hasOwnProperty";
     "__lookupGetter__"; "__lookupSetter__"; "isPrototypeOf";
     "propertyIsEnumerable"; "toString"; "valueOf"; "__proto__";
     "toLocaleString"]%string.

(** The members of [Array.prototype], [String.prototype],
    [Number.prototype] and [Boolean.prototype] (ECMAScript 2023, with the
    string methods of its Annex B). *)
Definition ARRAY_PROTOTYPE : list jsstring :=
  List.map js
    ["constructor"; "at"; "concat"; "copyWithin"; "entries"; "every"; "fill";
     "filter"; "find"; "findIndex"; "findLast"; "findLastIndex"; "flat";
     "flatMap"; "forEach"; "includes"; "indexOf"; "join"; "keys";
     "lastIndexOf"; "map"; "pop"; "push"; "reduce"; "reduceRight"; "reverse";
     "shift"; "slice"; "some"; "sort"; "splice"; "toLocaleString";
     "toReversed"; "toSorted"; "toSpliced"; "toString"; "unshift"; "values";
     "with"]%string.

Definition STRING_PROTOTYPE : list jsstring :=
  List.map js
    ["constructor"; "anchor"; "at"; "big"; "blink"; "bold"; "charAt";
     "charCodeAt"; "codePointAt"; "concat"; "endsWith"; "fixed"; "fontcolor";
     "fontsize"; "includes"; "indexOf"; "isWellFormed"; "italics";
     "lastIndexOf"; "link"; "localeCompare"; "match"; "matchAll"; "normalize";
     "padEnd"; "padStart"; "repeat"; "replace"; "replaceAll"; "search";
     "slice"; "small"; "split"; "startsWith"; "strike"; "sub"; "substr";
     "substring"; "sup"; "toLocaleLowerCase"; "toLocaleUpperCase";
     "toLowerCase"; "toString"; "toUpperCase"; "toWellFormed"; "trim";
     "trimEnd"; "trimLeft"; "trimRight"; "trimStart"; "valueOf"]%string.

Definition NUMBER_PROTOTYPE : list jsstring :=
  List.map js
    ["constructor"; "toExponential"; "toFixed"; "toLocaleString";
     "toPrecision"; "toString"; "valueOf"]%string.

Definition BOOLEAN_PROTOTYPE : list jsstring :=
  List.map js ["constructor"; "toString"; "valueOf"]%string.

(** [k] names a member of [Object.prototype]. *)
Definition object_inherits (k : jsstring) : bool :=
  existsb (jsstring_eqb k) OBJECT_PROTOTYPE.

(** [k] names a member that [v] finds on its prototype chain. *)
Definition inherits (v : value) (k : jsstring) : bool :=
  match v with
  | VUndef | VNull => false
  | VBool _ => existsb (jsstring_eqb k) BOOLEAN_PROTOTYPE || object_inherits k
  | VNum _ => existsb (jsstring_eqb k) NUMBER_PROTOTYPE || object_inherits k
  | VStr _ => existsb (jsstring_eqb k) STRING_PROTOTYPE || object_inherits k
  | VArr _ => existsb (jsstring_eqb k) ARRAY_PROTOTYPE || object_inherits k
  | VObj _ => object_inherits k
  end.

(** What a property read finds: data of the JSON document ([undefined]
    when there is no such member), or a built-in function or object that
    the value inherits under the key [k]. *)
Inductive Member : Type :=
| Data (v : value)
| Builtin (k : jsstring).

(** A built-in function or object is truthy. *)
Definition truthy_member (m : Member) : bool :=
  match m with
  | Data v => truthy v
  | Builtin _ => true
  end.

Definition inherited (v : value) (k : jsstring) : Result Member :=
  Ok (if inherits v k then Builtin k else Data VUndef).

(** Property read [v[k]] for any key: the own member if there is one,
    otherwise the member found on the prototype chain, otherwise
    [undefined]. *)
Definition member (v : value) (k : jsstring) : Result Member :=
  match v with
  | VUndef | VNull => Raise TypeError
  | VBool _ | VNum _ => inherited v k
  | VStr s =>
      if jsstring_eqb k LENGTH
      then Ok (Data (VNum (inject_Z (Z.of_nat (List.length s)))))
      else match at_index_key s k with
           | Some c => Ok (Data (VStr [c]))
           | None => inherited v k
           end
  | VArr xs =>
      if jsstring_eqb k LENGTH
      then Ok (Data (VNum (inject_Z (Z.of_nat (List.length xs)))))
      else match at_index_key xs k with
           | Some x => Ok (Data x)
           | None => inherited v k
           end
  | VObj ms =>
      match assoc k ms with
      | Some x => Ok (Data x)
      | None => inherited v k
      end
  end.

Definition is_digit (c : N) : bool := ((48 <=? c) && (c <=? 57))%N.

(** The number that an array index denotes: a key made of decimal digits,
    without a leading zero unless it is ["0"], whose value is below
    [2^32 - 1]. *)
Definition array_index (k : jsstring) : option N :=
  match k with
  | [] => None
  | [48%N] => Some 0%N
  | 48%N :: _ => None
  | _ =>
      if forallb is_digit k then
        let n := fold_left (fun a d => 10 * a + (d - 48))%N k 0%N in
        if (n <? 4294967295)%N then Some n else None
      else None
  end.

(** Insertion into a list sorted by index, after the entries with the same
    index. *)
Fixpoint insert_by_index {A : Type} (n : N) (e : A) (l : list (N * A)) : list (N * A) :=
  match l with
  | [] => [(n, e)]
  | (m, e') :: t =>
      if (n <? m)%N then (n, e) :: l else (m, e') :: insert_by_index n e t
  end.

(** The members of an object in the order of [Object.keys] and [for-in]:
    those whose key is an array index first, by ascending index, then the
    other ones in the order of their creation. *)
Definition enumerate {A : Type} (ms : list (jsstring * A)) : list (jsstring * A) :=
  List.map snd
    (fold_left (fun acc e => match array_index (fst e) with
                             | Some n => insert_by_index n e acc
                             | None => acc
                             end) ms [])
  ++ filter (fun e => match array_index (fst e) with
                      | Some _ => false
                      | None => true
                      end) ms.

(** [Object.keys(v)] *)
Definition Object_keys (v : value) : Result (list jsstring) :=
  match v with
  | VUndef | VNull => Raise TypeError
  | VBool _ | VNum _ => Ok []
  | VStr s => Ok (List.map index_key (seq 0 (List.length s)))
  | VArr xs => Ok (List.map index_key (seq 0 (List.length xs)))
  | VObj ms => Ok (List.map fst (enumerate ms))
  end.

(** [xs.flat()]: one level. *)
Definition flat (xs : list value) : list value :=
  List.flat_map (fun v => match v with VArr ys => ys | _ => [v] end) xs.

(** [arr.splice(start, 0, ...items)] for [start >= 0]: the array after the
    insertion ([start] is clamped to the length). *)
Definition splice_insert {A : Type} (start : nat) (items arr : list A) : list A :=
  firstn start arr ++ items ++ skipn start arr.

Definition UNDEFINED : jsstring := js "undefined".
Definition NULL : jsstring := js "null".
Definition TRUE : jsstring := js "true".
Definition FALSE : jsstring := js "false".
Definition OBJECT_OBJECT : jsstring := js "[object Object]".
Definition TOSTRING : jsstring := js "toString".

Fixpoint join_with (sep : jsstring) (parts : list jsstring) : jsstring :=
  match parts with
  | [] => []
  | [p] => p
  | p :: rest => p ++ sep ++ join_with sep rest
  end.

Section Coercions.

(** [Number::toString] and [StringToNumber] ([None] is [NaN]) of
    ECMAScript are taken from the platform. *)
Variable number_to_string : Q -> jsstring.
Variable string_to_number : jsstring -> option Q.

(** [ToString(v)], as applied by template literals and by computed
    property keys.  An object with an own member [toString] cannot be
    converted (the member is data, not a function, and
    [Object.prototype.valueOf] returns the object itself). *)
Fixpoint ToString (v : value) : Result jsstring :=
  match v with
  | VUndef => Ok UNDEFINED
  | VNull => Ok NULL
  | VBool b => Ok (if b then TRUE else FALSE)
  | VNum q => Ok (number_to_string q)
  | VStr s => Ok s
  | VArr xs =>
      (fix parts (l : list value) (acc : list jsstring) : Result jsstring :=
         match l with
         | [] => Ok (join_with [COMMA] (rev acc))
         | x :: l' =>
             match x with
             | VUndef | VNull => parts l' ([] :: acc)
             | _ => match ToString x with
                    | Ok s => parts l' (s :: acc)
                    | Raise e => Raise e
                    end
             end
         end) xs []
  | VObj ms =>
      match assoc TOSTRING ms with
      | Some _ => Raise TypeError
      | None => Ok OBJECT_OBJECT
      end
  end.

Definition string_is_zero (s : jsstring) : bool :=
  match string_to_number s with
  | Some q => Qeq_bool q 0
  | None => false
  end.

(** [v == 0.0] (IsLooselyEqual against the number zero). *)
Definition loosely_equals_zero (v : value) : Result bool :=
  match v with
  | VUndef | VNull => Ok false
  | VBool b => Ok (negb b)
  | VNum q => Ok (Qeq_bool q 0)
  | VStr s => Ok (string_is_zero s)
  | VArr _ | VObj _ =>
      match ToString v with
      | Ok s => Ok (string_is_zero s)
      | Raise e => Raise e
      end
  end.

End Coercions.

(** [v === 0] *)
Definition strictly_equals_zero (v : value) : bool :=
  match v with
  | VNum q => Qeq_bool q 0
  | _ => false
  end.


(** ** URLs *)

(** A URL record of the WHATWG URL standard, as [new URL(...)] returns it.
    [url_path] is the serialized path; [url_opaque_path] is set for URLs
    such as [mailto:] whose path is not a list of segments (never for
    [http:] and [https:]). *)
Record URL : Type := mkURL {
  url_scheme : jsstring;
  url_username : jsstring;
  url_password : jsstring;
  url_host : option jsstring;
  url_port : option N;
  url_path : jsstring;
  url_opaque_path : bool;
  url_query : option jsstring;
  url_fragment : option jsstring
}.

(** The literals assigned to [url.pathname] in the source. *)
Inductive SubPath : Type :=
| sdapi_v1_options
| sdapi_v1_upscalers
| sdapi_v1_latent_upscale_modes
| sdapi_v1_samplers
| sdapi_v1_sd_models
| sdapi_v1_progress
| sdapi_v1_txt2img
| system_stats
| object_info
| comfy_prompt
| comfy_history
| comfy_view.

Definition subpath_text (p : SubPath) : jsstring :=
  match p with
  | sdapi_v1_options => js "/sdapi/v1/options"
  | sdapi_v1_upscalers => js "/sdapi/v1/upscalers"
  | sdapi_v1_latent_upscale_modes => js "/sdapi/v1/latent-upscale-modes"
  | sdapi_v1_samplers => js "/sdapi/v1/samplers"
  | sdapi_v1_sd_models => js "/sdapi/v1/sd-models"
  | sdapi_v1_progress => js "/sdapi/v1/progress"
  | sdapi_v1_txt2img => js "/sdapi/v1/txt2img"
  | system_stats => js "/system_stats"
  | object_info => js "/object_info"
  | comfy_prompt => js "/prompt"
  | comfy_history => js "/history"
  | comfy_view => js "/view"
  end.

(** Letters, digits, [-], [_] and [/]: code units that the path parser
    copies unchanged and that form no dot segment. *)
Definition is_plain_path_unit (c : N) : bool :=
  ((48 <=? c) && (c <=? 57) || (65 <=? c) && (c <=? 90)
   || (97 <=? c) && (c <=? 122) || (c =? 45) || (c =? 95) || (c =? 47))%N.

Definition is_plain_path (p : jsstring) : bool :=
  match p with
  | 47%N :: _ => forallb is_plain_path_unit p
  | _ => false
  end.

(** The [pathname] setter, on the literals of the source: it does nothing
    on a URL with an opaque path; otherwise the path is parsed afresh from
    the assigned string, which for these literals is the string itself
    (see [subpath_text_plain]).  Every other component is left alone. *)
Definition set_pathname (u : URL) (p : SubPath) : URL :=
  if url_opaque_path u then u
  else mkURL (url_scheme u) (url_username u) (url_password u) (url_host u)
             (url_port u) (subpath_text p) false (url_query u) (url_fragment u).

Definition is_special_scheme (s : jsstring) : bool :=
  existsb (jsstring_eqb s)
          [js "http"; js "https"; js "ws"; js "wss"; js "ftp"; js "file"].

Definition hex_digit (n : N) : N :=
  (if n <? 10 then 48 + n else 55 + n)%N.

(** [%XY] for one byte. *)
Definition percent_byte (b : N) : jsstring :=
  [37%N; hex_digit (b / 16); hex_digit (b mod 16)].

(** UTF-8 bytes of a scalar value. *)
Definition utf8_bytes (cp : N) : list N :=
  (if cp <? 128 then [cp]
   else if cp <? 2048 then [192 + cp / 64; 128 + cp mod 64]
   else if cp <? 65536 then [224 + cp / 4096; 128 + (cp / 64) mod 64; 128 + cp mod 64]
   else [240 + cp / 262144; 128 + (cp / 4096) mod 64;
         128 + (cp / 64) mod 64; 128 + cp mod 64])%N.

Definition is_high_surrogate (c : N) : bool := ((55296 <=? c) && (c <=? 56319))%N.
Definition is_low_surrogate (c : N) : bool := ((56320 <=? c) && (c <=? 57343))%N.

(** Code units to scalar values (the setter takes a USVString): surrogate
    pairs are combined, lone surrogates become U+FFFD. *)
Fixpoint scalar_values (s : jsstring) : list N :=
  match s with
  | [] => []
  | a :: t =>
      if is_high_surrogate a then
        match t with
        | b :: rest =>
            if is_low_surrogate b
            then (65536 + (a - 55296) * 1024 + (b - 56320))%N :: scalar_values rest
            else 65533%N :: scalar_values t
        | [] => [65533%N]
        end
      else if is_low_surrogate a then 65533%N :: scalar_values t
      else a :: scalar_values t
  end.

(** The query percent-encode set (the special-query set when [special]). *)
Definition in_query_encode_set (special : bool) (cp : N) : bool :=
  ((cp <=? 32) || (cp =? 34) || (cp =? 35) || (cp =? 60) || (cp =? 62)
   || (126 <? cp) || (special && (cp =? 39)))%N.

Definition is_tab_or_newline (c : N) : bool :=
  ((c =? 9) || (c =? 10) || (c =? 13))%N.

Definition percent_encode_query (special : bool) (s : jsstring) : jsstring :=
  List.flat_map
    (fun cp => if in_query_encode_set special cp
               then List.flat_map percent_byte (utf8_bytes cp)
               else [cp])
    (filter (fun c => negb (is_tab_or_newline c)) (scalar_values s)).

Definition QUESTION : N := 63.

(** The [search] setter: the empty string removes the query; otherwise one
    leading [?] is dropped and the rest is parsed in the query state. *)
Definition set_search (u : URL) (v : jsstring) : URL :=
  let q :=
    match v with
    | [] => None
    | c :: t =>
        let input := if (c =? QUESTION)%N then t else v in
        Some (percent_encode_query (is_special_scheme (url_scheme u)) input)
    end in
  mkURL (url_scheme u) (url_username u) (url_password u) (url_host u)
        (url_port u) (url_path u) (url_opaque_path u) q (url_fragment u).

(** The [search] getter. *)
Definition search (u : URL) : jsstring :=
  match url_query u with
  | None | Some [] => []
  | Some q => QUESTION :: q
  end.

(** The getters [protocol], [hostname], [port] and [pathname]. *)
Definition protocol (u : URL) : jsstring := url_scheme u ++ js ":".
Definition hostname (u : URL) : jsstring :=
  match url_host u with Some h => h | None => [] end.
Definition port (u : URL) : jsstring :=
  match url_port u with
  | Some n => index_key (N.to_nat n)
  | None => []
  end.
Definition pathname (u : URL) : jsstring := url_path u.

(** The URL serializer ([url.href]). *)
Definition href (u : URL) : jsstring :=
  protocol u
  ++ match url_host u with
     | Some h =>
         js "//"
         ++ match url_username u, url_password u with
            | [], [] => []
            | n, [] => n ++ js "@"
            | n, p => n ++ js ":" ++ p ++ js "@"
            end
         ++ h
         ++ match url_port u with Some _ => js ":" ++ port u | None => [] end
     | None => []
     end
  ++ url_path u
  ++ match url_query u with Some q => QUESTION :: q | None => [] end
  ++ match url_fragment u with Some f => js "#" ++ f | None => [] end.

(** The claimed construction of an outbound URL, in the words of the
    specification: the base with its path replaced by the sub-path, scheme,
    host and port kept, the former path and the query dropped. *)
Definition spec_outbound_url (base : URL) (p : SubPath) : URL :=
  mkURL (url_scheme base) (url_username base) (url_password base) (url_host base)
        (url_port base) (subpath_text p) false None (url_fragment base).


(** ** Backend, trace and the handler monad *)

Inductive Method : Type := GET | POST.

(** An outbound HTTP call: its method and URL.  Headers and request bodies
    are not recorded; [getBasicAuthHeader] of the util module, which builds
    the Authorization header, is taken to return. *)
Record Call : Type := mkCall {
  call_method : Method;
  call_url : URL
}.

(** What [fetch] resolves to.  [body_json] is the value [result.json()]
    resolves to, [None] when the body is not JSON. *)
Record Response : Type := mkResponse {
  status : N;
  statusText : jsstring;
  body_text : jsstring;
  body_json : option value;
  body_bytes : list N
}.

(** [result.ok] *)
Definition ok (r : Response) : bool := ((200 <=? status r) && (status r <? 300))%N.

Inductive Fetched : Type :=
| Rejected                      (* the promise rejects: network failure, unsupported protocol *)
| Answered (r : Response).

(** The backend as the handler sees it: the answer to a call, given how
    many calls the handler has issued before it. *)
Definition Backend : Type := nat -> Call -> Fetched.

Inductive IO : Type :=
| Called (c : Call)
| Waited (ms : N).              (* [await delay(ms)] *)

Inductive LogItem : Type :=
| LText (s : jsstring)
| LError (e : Err)
| LValue (v : value).

Record State : Type := mkState {
  st_calls : nat;                       (* calls issued so far *)
  st_io : list IO;                      (* calls and delays, oldest first *)
  st_console : list (list LogItem)      (* console.log / warn / error, oldest first *)
}.

Definition initial_state : State := mkState 0 [] [].

Definition M (A : Type) : Type := Backend -> State -> Outcome A * State.

Definition ret {A : Type} (a : A) : M A := fun _ st => (Ret a, st).

Definition throw {A : Type} (e : Err) : M A := fun _ st => (Throw e, st).

Definition out_of_fuel {A : Type} : M A := fun _ st => (Fuel, st).

Definition bind {A B : Type} (m : M A) (k : A -> M B) : M B :=
  fun w st =>
    match m w st with
    | (Ret a, st') => k a w st'
    | (Throw e, st') => (Throw e, st')
    | (Fuel, st') => (Fuel, st')
    end.

Notation "x <- m ;; k" := (bind m (fun x => k))
  (at level 61, m at next level, right associativity).
Notation "m ;; k" := (bind m (fun _ => k))
  (at level 61, right associativity).

(** [try { m } catch (error) { h error }] *)
Definition try_catch {A : Type} (m : M A) (h : Err -> M A) : M A :=
  fun w st =>
    match m w st with
    | (Throw e, st') => h e w st'
    | r => r
    end.

Definition lift {A : Type} (r : Result A) : M A :=
  fun _ st =>
    match r with
    | Ok a => (Ret a, st)
    | Raise e => (Throw e, st)
    end.

Definition console (items : list LogItem) : M unit :=
  fun _ st => (Ret tt, mkState (st_calls st) (st_io st) (st_console st ++ [items])).

Definition delay (ms : N) : M unit :=
  fun _ st => (Ret tt, mkState (st_calls st) (st_io st ++ [Waited ms]) (st_console st)).

(** Start a call: it is put on the wire and the promise is handed back. *)
Definition fetch_start (m : Method) (u : URL) : M Fetched :=
  fun w st =>
    let c := mkCall m u in
    (Ret (w (st_calls st) c),
     mkState (S (st_calls st)) (st_io st ++ [Called c]) (st_console st)).

(** [await] of the promise of a call. *)
Definition await (f : Fetched) : M Response :=
  match f with
  | Rejected => throw FetchError
  | Answered r => ret r
  end.

(** [await fetch(url, { method })] *)
Definition fetch (m : Method) (u : URL) : M Response :=
  f <- fetch_start m u ;; await f.

(** [new URL(request.body.url)], given what the parser makes of the
    string: [None] when it is not a valid URL. *)
Definition new_URL (parsed : option URL) : M URL :=
  match parsed with
  | Some u => ret u
  | None => throw TypeError
  end.

(** [await result.json()] *)
Definition json (r : Response) : M value :=
  match body_json r with
  | Some v => ret v
  | None => throw SyntaxError
  end.

Fixpoint mapM {A B : Type} (f : A -> M B) (l : list A) : M (list B) :=
  match l with
  | [] => ret []
  | x :: t => y <- f x ;; ys <- mapM f t ;; ret (y :: ys)
  end.

(** The same on expressions. *)
Fixpoint traverse {A B : Type} (g : A -> Result B) (l : list A) : Result (list B) :=
  match l with
  | [] => Ok []
  | x :: t =>
      match g x with
      | Ok y => match traverse g t with
                | Ok ys => Ok (y :: ys)
                | Raise e => Raise e
                end
      | Raise e => Raise e
      end
  end.

(** [data.map(f)]: [data] has to be an array. *)
Definition array_map (data : value) (f : value -> M value) : M (list value) :=
  match data with
  | VArr xs => mapM f xs
  | _ => throw TypeError
  end.

(** ** Replies *)

Inductive Body : Type :=
| StatusText                    (* [sendStatus]: the standard message of the status *)
| StatusReason                  (* [send(code)]: the message registered for the code, if any *)
| Sent (v : value)              (* [send(v)] / [json(v)] *)
| Base64 (bytes : list N)       (* the base64 text of a buffer *)
| Binary (bytes : list N).

Record Reply : Type := mkReply {
  reply_status : N;
  reply_body : Body
}.

Definition sendStatus (code : N) : Reply := mkReply code StatusText.

(** [ToInt32] of a number: the integer part, wrapped into 32 bits. *)
Definition ToInt32 (q : Q) : Z :=
  let m := Z.modulo (Z.quot (Qnum q) (Z.pos (Qden q))) 4294967296 in
  if (m <? 2147483648)%Z then m else (m - 4294967296)%Z.

(** The status codes that [writeHead] of Node takes (after [statusCode |= 0]);
    on another one it throws a [RangeError]. *)
Definition valid_status (code : Z) : bool := ((100 <=? code) && (code <=? 999))%Z.

(** The reply made by [response.send(v)] of Express 4, with the default
    status.  A lone number is not a body: it is taken as the status, and the
    message registered for it is the body. *)
Definition send (v : value) : Reply :=
  match v with
  | VNum q => mkReply (Z.to_N (ToInt32 q)) StatusReason
  | _ => mkReply 200 (Sent v)
  end.

(** [response.send(v)]: the reply is made unless the number given as the
    status is one that Node refuses. *)
Definition response_send (v : value) : Result Reply :=
  match v with
  | VNum q => if valid_status (ToInt32 q) then Ok (send v) else Raise RangeError
  | _ => Ok (send v)
  end.

(** [response.json(v)]: the JSON text of any value, with the default
    status. *)
Definition response_json (v : value) : Reply := mkReply 200 (Sent v).

(** [response.status(code).send(text)] *)
Definition status_send (code : N) (text : jsstring) : Reply :=
  mkReply code (Sent (VStr text)).

Definition is_2xx (code : N) : bool := ((200 <=? code) && (code <? 300))%N.

(** Run a handler for one request. *)
Definition run {A : Type} (h : M A) (w : Backend) : Outcome A * State :=
  h w initial_state.

Definition outcome_of {A : Type} (h : M A) (w : Backend) : Outcome A := fst (run h w).
Definition io_of {A : Type} (h : M A) (w : Backend) : list IO := st_io (snd (run h w)).
Definition console_of {A : Type} (h : M A) (w : Backend) : list (list LogItem) :=
  st_console (snd (run h w)).


(** ** stable-diffusion.js *)

(** An inbound request: its JSON body and what [new URL(request.body.url)]
    evaluates to ([None] when the constructor throws). *)
Record Request : Type := mkRequest {
  req_url : option URL;
  req_body : value
}.

Definition splitStrings : list jsstring :=
  [js ", extremely"; js ", intricate,"].

(** ['[]【】()（）|:：'] *)
Definition dangerousPatterns : jsstring :=
  [91; 93; 12304; 12305; 40; 41; 65288; 65289; 124; 58; 65306]%N.

(** What a regular expression made of a backslash and one code unit
    matches. *)
Inductive Escape : Type :=
| OneOf (set : N -> bool)        (* one code unit of the set *)
| Assertion                      (* the empty string, at some positions *)
| BackslashC.                    (* a backslash followed by the letter c *)

Definition is_word_unit (c : N) : bool :=
  (is_digit c || (65 <=? c) && (c <=? 90) || (97 <=? c) && (c <=? 122) || (c =? 95))%N.

(** [new RegExp("\\" + p, 'g')] for a code unit [p].  Without the flag [u]
    the source of the expression is read by code unit and with the escapes
    of Annex B of ECMAScript: [\d \D \w \W \s \S] are character classes,
    [\b] and [\B] assertions, [\t \n \v \f \r \0] control characters, [\1]
    to [\7] octal escapes (there is no group to refer to), [\c] without a
    letter after it stands for the two characters themselves, and a
    backslash before any other code unit stands for that code unit. *)
Definition escape (p : N) : Escape :=
  match p with
  | 100%N => OneOf is_digit
  | 68%N => OneOf (fun c => negb (is_digit c))
  | 119%N => OneOf is_word_unit
  | 87%N => OneOf (fun c => negb (is_word_unit c))
  | 115%N => OneOf is_js_whitespace
  | 83%N => OneOf (fun c => negb (is_js_whitespace c))
  | 98%N | 66%N => Assertion
  | 116%N => OneOf (N.eqb 9)
  | 110%N => OneOf (N.eqb 10)
  | 118%N => OneOf (N.eqb 11)
  | 102%N => OneOf (N.eqb 12)
  | 114%N => OneOf (N.eqb 13)
  | 48%N => OneOf (N.eqb 0)
  | 49%N | 50%N | 51%N | 52%N | 53%N | 54%N | 55%N => OneOf (N.eqb (p - 48))
  | 99%N => BackslashC
  | _ => OneOf (N.eqb p)
  end.

(** Remove the occurrences of the two code units [a], [b] in a row, from
    left to right. *)
Fixpoint remove_pair (a b : N) (s : jsstring) : jsstring :=
  match s with
  | [] => []
  | x :: t =>
      match t with
      | [] => [x]
      | y :: rest =>
          if ((x =? a) && (y =? b))%N then remove_pair a b rest
          else x :: remove_pair a b t
      end
  end.

(** [x.replace(regex, '')] with the flag [g]: every match is removed. *)
Definition remove_matches (regex : Escape) (x : jsstring) : jsstring :=
  match regex with
  | OneOf set => filter (fun c => negb (set c)) x
  | Assertion => x
  | BackslashC => remove_pair 92 99 x
  end.

(** [removePattern]: for each code unit [p] of the pattern in turn, the
    matches of the regular expression ["\\" + p] are removed. *)
Definition removePattern (x pattern : jsstring) : jsstring :=
  fold_left (fun x p => remove_matches (escape p) x) pattern x.

Definition SD_WEBUI_ERROR : Err := Error (js "SD WebUI returned an error.") None.
Definition COMFYUI_ERROR : Err := Error (js "ComfyUI returned an error.") None.

Definition NAME : jsstring := js "name".
Definition TITLE : jsstring := js "title".
Definition VALUE : jsstring := js "value".
Definition TEXT : jsstring := js "text".
Definition PROMPT : jsstring := js "prompt".

(** The [catch] block shared by the SD WebUI handlers. *)
Definition log_and_500 (error : Err) : M Reply :=
  console [LError error] ;; ret (sendStatus 500).

(** [app.post('/api/sd/ping')] *)
Definition sd_ping (request : Request) : M Reply :=
  try_catch
    (url <- new_URL (req_url request) ;;
     let url := set_pathname url sdapi_v1_options in
     result <- fetch GET url ;;
     if negb (ok result) then throw SD_WEBUI_ERROR
     else ret (sendStatus 200))
    log_and_500.

(** The part of [getUpscalerModels] / [getLatentUpscalers] up to the first
    [await]: the call is issued. *)
Definition get_names_start (request : Request) (p : SubPath) : M Fetched :=
  url <- new_URL (req_url request) ;;
  let url := set_pathname url p in
  fetch_start GET url.

(** The rest of it, once the call has been answered. *)
Definition get_names_finish (f : Fetched) : M (list value) :=
  result <- await f ;;
  if negb (ok result) then throw SD_WEBUI_ERROR
  else
    data <- json result ;;
    array_map data (fun x => lift (get x NAME)).

(** [app.post('/api/sd/upscalers')].  [Promise.all] starts both functions
    before awaiting either; when both fail, the error of the first is the
    one taken here. *)
Definition sd_upscalers (request : Request) : M Reply :=
  try_catch
    (p1 <- get_names_start request sdapi_v1_upscalers ;;
     p2 <- get_names_start request sdapi_v1_latent_upscale_modes ;;
     upscalers <- get_names_finish p1 ;;
     latentUpscalers <- get_names_finish p2 ;;
     (* 0 = None, then Latent Upscalers, then Upscalers *)
     let upscalers := splice_insert 1 latentUpscalers upscalers in
     lift (response_send (VArr upscalers)))
    log_and_500.

(** [app.post('/api/sd/samplers')] *)
Definition sd_samplers (request : Request) : M Reply :=
  try_catch
    (url <- new_URL (req_url request) ;;
     let url := set_pathname url sdapi_v1_samplers in
     result <- fetch GET url ;;
     if negb (ok result) then throw SD_WEBUI_ERROR
     else
       data <- json result ;;
       names <- array_map data (fun x => lift (get x NAME)) ;;
       lift (response_send (VArr names)))
    log_and_500.

(** [x => ({ value: x.title, text: x.title })] *)
Definition model_option (x : value) : M value :=
  v <- lift (get x TITLE) ;;
  t <- lift (get x TITLE) ;;
  ret (VObj [(VALUE, v); (TEXT, t)]).

(** [app.post('/api/sd/models')] *)
Definition sd_models (request : Request) : M Reply :=
  try_catch
    (url <- new_URL (req_url request) ;;
     let url := set_pathname url sdapi_v1_sd_models in
     result <- fetch GET url ;;
     if negb (ok result) then throw SD_WEBUI_ERROR
     else
       data <- json result ;;
       models <- array_map data model_option ;;
       lift (response_send (VArr models)))
    log_and_500.

Definition SD_MODEL_CHECKPOINT : jsstring := js "sd_model_checkpoint".

(** [app.post('/api/sd/get-model')]: [result.ok] is not consulted. *)
Definition sd_get_model (request : Request) : M Reply :=
  try_catch
    (url <- new_URL (req_url request) ;;
     let url := set_pathname url sdapi_v1_options in
     result <- fetch GET url ;;
     data <- json result ;;
     checkpoint <- lift (get data SD_MODEL_CHECKPOINT) ;;
     lift (response_send checkpoint))
    log_and_500.

Definition MAX_ATTEMPTS : nat := 10.
Definition CHECK_INTERVAL : N := 2000.

Definition PROGRESS : jsstring := js "progress".
Definition STATE : jsstring := js "state".
Definition JOB_COUNT : jsstring := js "job_count".

Section SetModel.

Variable number_to_string : Q -> jsstring.
Variable string_to_number : jsstring -> option Q.

(** [getProgress] of the set-model handler: [result.ok] is not
    consulted. *)
Definition getProgress (request : Request) : M value :=
  url <- new_URL (req_url request) ;;
  let url := set_pathname url sdapi_v1_progress in
  result <- fetch GET url ;;
  data <- json result ;;
  ret data.

(** The [for] loop of the set-model handler, by the number of attempts
    still allowed ([MAX_ATTEMPTS - attempt]). *)
Fixpoint wait_for_model (request : Request) (attempts_left : nat) : M unit :=
  match attempts_left with
  | O => ret tt
  | S attempts_left' =>
      progressState <- getProgress request ;;
      progress <- lift (get progressState PROGRESS) ;;
      state <- lift (get progressState STATE) ;;
      jobCount <- lift (get state JOB_COUNT) ;;
      no_progress <- lift (loosely_equals_zero number_to_string string_to_number progress) ;;
      if no_progress && strictly_equals_zero jobCount then ret tt
      else
        p <- lift (ToString number_to_string progress) ;;
        j <- lift (ToString number_to_string jobCount) ;;
        console [LText (js "Waiting for SD WebUI to finish model loading... Progress: "
                        ++ p ++ js "; Job count: " ++ j)] ;;
        delay CHECK_INTERVAL ;;
        wait_for_model request attempts_left'
  end.

(** [app.post('/api/sd/set-model')] *)
Definition sd_set_model (request : Request) : M Reply :=
  try_catch
    (url <- new_URL (req_url request) ;;
     let url := set_pathname url sdapi_v1_options in
     result <- fetch POST url ;;
     if negb (ok result) then throw SD_WEBUI_ERROR
     else
       wait_for_model request MAX_ATTEMPTS ;;
       ret (sendStatus 200))
    log_and_500.

End SetModel.

(** [app.post('/api/sd/generate')] *)
Definition sd_generate (request : Request) : M Reply :=
  try_catch
    (console [LText (js "SD WebUI request:"); LValue (req_body request)] ;;
     url <- new_URL (req_url request) ;;
     let url := set_pathname url sdapi_v1_txt2img in
     result <- fetch POST url ;;
     if negb (ok result) then
       let text := body_text result in
       throw (Error (js "SD WebUI returned an error.") (Some text))
     else
       data <- json result ;;
       lift (response_send data))
    log_and_500.

Definition vlad_latentUpscalers : list value :=
  List.map (fun s => VStr (js s))
    ["Latent"; "Latent (antialiased)"; "Latent (bicubic)";
     "Latent (bicubic antialiased)"; "Latent (nearest)";
     "Latent (nearest-exact)"]%string.

(** [app.post('/api/sd-next/upscalers')] *)
Definition sd_next_upscalers (request : Request) : M Reply :=
  try_catch
    (url <- new_URL (req_url request) ;;
     let url := set_pathname url sdapi_v1_upscalers in
     result <- fetch GET url ;;
     if negb (ok result) then throw SD_WEBUI_ERROR
     else
       let latentUpscalers := vlad_latentUpscalers in
       data <- json result ;;
       names <- array_map data (fun x => lift (get x NAME)) ;;
       (* 0 = None, then Latent Upscalers, then Upscalers *)
       let names := splice_insert 1 latentUpscalers names in
       lift (response_send (VArr names)))
    log_and_500.


Definition GENERATED_TEXT : jsstring := js "generated_text".
Definition INDEX0 : jsstring := js "0".

(** A receiver of [.replace(...)] has to be a string. *)
Definition as_string (v : value) : Result jsstring :=
  match v with
  | VStr s => Ok s
  | _ => Raise TypeError
  end.

(** [v.k1.k2...] *)
Fixpoint get_path (v : value) (ks : list jsstring) : Result value :=
  match ks with
  | [] => Ok v
  | k :: ks' =>
      match get v k with
      | Ok x => get_path x ks'
      | Raise e => Raise e
      end
  end.

Definition PROMPT_ID : jsstring := js "prompt_id".
Definition OUTPUTS : jsstring := js "outputs".
Definition IMAGES : jsstring := js "images".
Definition FILENAME : jsstring := js "filename".
Definition SUBFOLDER : jsstring := js "subfolder".
Definition TYPE : jsstring := js "type".

Definition POLL_INTERVAL : N := 100.

Section ExpandAndComfy.

Variable number_to_string : Q -> jsstring.

(** [safeStr] on any value: [String(x)] first. *)
Definition safeStr_of (x : value) : Result jsstring :=
  match ToString number_to_string x with
  | Ok s => Ok (safeStr s)
  | Raise e => Raise e
  end.

(** The text-generation pipeline of [transformers.mjs], which is loaded
    on demand: [None] when the import or [getPipeline] throws, otherwise
    the function [pipe], which returns its result or throws. *)
Variable pipeline : option (jsstring -> Result value).

(** [app.post('/api/sd/expand')].  [second] tells whether
    [Math.floor(Math.random() * splitStrings.length)] came out as 1. *)
Definition sd_expand (second : bool) (request : Request) : M Reply :=
  originalPrompt <- lift (get (req_body request) PROMPT) ;;
  if negb (truthy originalPrompt) then
    console [LText (js "No prompt provided for SD expansion.")] ;;
    lift (response_send (VObj [(PROMPT, VStr [])]))
  else
    console [LText (js "Refine prompt input:"); LValue originalPrompt] ;;
    let splitString := nth (if second then 1 else 0) splitStrings [] in
    safe <- lift (safeStr_of originalPrompt) ;;
    let prompt := safe ++ splitString in
    try_catch
      (pipe <- match pipeline with
               | Some pipe => ret pipe
               | None => throw (Error (js "Cannot load pipeline") None)
               end ;;
       result <- lift (pipe prompt) ;;
       first <- lift (get result INDEX0) ;;
       newText <- lift (get first GENERATED_TEXT) ;;
       newText <- lift (as_string newText) ;;
       let newPrompt := safeStr (removePattern newText dangerousPatterns) in
       console [LText (js "Refine prompt output:"); LText newPrompt] ;;
       lift (response_send (VObj [(PROMPT, VStr newPrompt)])))
      (fun _ =>
         console [LText (js "Failed to load transformers.js pipeline.")] ;;
         lift (response_send (VObj [(PROMPT, originalPrompt)]))).

(** ** ComfyUI *)

(** [app.post('/api/sd/comfy/ping')] *)
Definition comfy_ping (request : Request) : M Reply :=
  try_catch
    (url <- new_URL (req_url request) ;;
     let url := set_pathname url system_stats in
     result <- fetch GET url ;;
     if negb (ok result) then throw COMFYUI_ERROR
     else ret (sendStatus 200))
    log_and_500.

(** The three handlers that send one field of [/object_info]:
    [data.<node>.input.required.<field>[0]]. *)
Definition comfy_object_info (node field : jsstring) (request : Request) : M Reply :=
  try_catch
    (url <- new_URL (req_url request) ;;
     let url := set_pathname url object_info in
     result <- fetch GET url ;;
     if negb (ok result) then throw COMFYUI_ERROR
     else
       data <- json result ;;
       v <- lift (get_path data [node; js "input"; js "required"; field; INDEX0]) ;;
       lift (response_send v))
    log_and_500.

(** [app.post('/api/sd/comfy/samplers')] *)
Definition comfy_samplers : Request -> M Reply :=
  comfy_object_info (js "KSampler") (js "sampler_name").

(** [app.post('/api/sd/comfy/schedulers')] *)
Definition comfy_schedulers : Request -> M Reply :=
  comfy_object_info (js "KSampler") (js "scheduler").

(** [app.post('/api/sd/comfy/vaes')] *)
Definition comfy_vaes : Request -> M Reply :=
  comfy_object_info (js "VAELoader") (js "vae_name").

(** [app.post('/api/sd/comfy/models')] *)
Definition comfy_models (request : Request) : M Reply :=
  try_catch
    (url <- new_URL (req_url request) ;;
     let url := set_pathname url object_info in
     result <- fetch GET url ;;
     if negb (ok result) then throw COMFYUI_ERROR
     else
       data <- json result ;;
       names <- lift (get_path data [js "CheckpointLoaderSimple"; js "input";
                                     js "required"; js "ckpt_name"; INDEX0]) ;;
       options <- array_map names (fun it => ret (VObj [(VALUE, it); (TEXT, it)])) ;;
       lift (response_send (VArr options)))
    log_and_500.

(** [history[id]]: the key is computed from data, so the read may find an
    inherited member. *)
Definition get_computed (o key : value) : Result Member :=
  match o with
  | VUndef | VNull => Raise TypeError
  | _ => match ToString number_to_string key with
         | Ok k => member o k
         | Raise e => Raise e
         end
  end.

(** The [while (true)] loop of the generate handler; it returns [item]. *)
Fixpoint poll_history (fuel : nat) (historyUrl : URL) (id : value) : M Member :=
  match fuel with
  | O => out_of_fuel
  | S fuel' =>
      result <- fetch GET historyUrl ;;
      if negb (ok result) then throw COMFYUI_ERROR
      else
        history <- json result ;;
        item <- lift (get_computed history id) ;;
        if truthy_member item then ret item
        else
          delay POLL_INTERVAL ;;
          poll_history fuel' historyUrl id
  end.

(** [item.outputs]: no built-in function or prototype has a member of
    this name. *)
Definition outputs_of (item : Member) : Result value :=
  match item with
  | Data v => get v OUTPUTS
  | Builtin _ => Ok VUndef
  end.

(** The statements of the generate handler after the loop: the first
    image of the flattened outputs of [item] is fetched from [/view].  In
    [item.outputs[it]] the key [it] is one of the own keys of
    [item.outputs]. *)
Definition fetch_first_image (request : Request) (item : Member) : M Reply :=
  outputs <- lift (outputs_of item) ;;
  keys <- lift (Object_keys outputs) ;;
  images <- mapM (fun it => lift (match outputs_of item with
                                  | Ok outputs => get_path outputs [it; IMAGES]
                                  | Raise e => Raise e
                                  end)) keys ;;
  imgInfo <- lift (get (VArr (flat images)) INDEX0) ;;
  imgUrl <- new_URL (req_url request) ;;
  let imgUrl := set_pathname imgUrl comfy_view in
  filename <- lift (get imgInfo FILENAME) ;;
  filename <- lift (ToString number_to_string filename) ;;
  subfolder <- lift (get imgInfo SUBFOLDER) ;;
  subfolder <- lift (ToString number_to_string subfolder) ;;
  type <- lift (get imgInfo TYPE) ;;
  type <- lift (ToString number_to_string type) ;;
  let imgUrl := set_search imgUrl
                  (js "?filename=" ++ filename ++ js "&subfolder=" ++ subfolder
                   ++ js "&type=" ++ type) in
  imgResponse <- fetch GET imgUrl ;;
  if negb (ok imgResponse) then throw COMFYUI_ERROR
  else
    let imgBuffer := body_bytes imgResponse in
    ret (mkReply 200 (Base64 imgBuffer)).

(** [app.post('/api/sd/comfy/generate')] *)
Definition comfy_generate (fuel : nat) (request : Request) : M Reply :=
  try_catch
    (url <- new_URL (req_url request) ;;
     let url := set_pathname url comfy_prompt in
     promptResult <- fetch POST url ;;
     if negb (ok promptResult) then throw COMFYUI_ERROR
     else
       data <- json promptResult ;;
       id <- lift (get data PROMPT_ID) ;;
       historyUrl <- new_URL (req_url request) ;;
       let historyUrl := set_pathname historyUrl comfy_history in
       item <- poll_history fuel historyUrl id ;;
       fetch_first_image request item)
    (fun _ => ret (sendStatus 500)).

End ExpandAndComfy.


(** ** Hosted provider endpoints (the second source file) *)

Inductive SECRET_KEYS : Type := OPENAI | OPENROUTER.

Definition https_url (host path : string) : URL :=
  mkURL (js "https") [] [] (Some (js host)) None (js path) false None None.

Definition OPENROUTER_CHAT_URL : URL := https_url "openrouter.ai" "/api/v1/chat/completions".
Definition OPENAI_CHAT_URL : URL := https_url "api.openai.com" "/v1/chat/completions".
Definition OPENAI_TRANSCRIPTIONS_URL : URL := https_url "api.openai.com" "/v1/audio/transcriptions".
Definition OPENAI_SPEECH_URL : URL := https_url "api.openai.com" "/v1/audio/speech".
Definition OPENAI_IMAGES_URL : URL := https_url "api.openai.com" "/v1/images/generations".

(** [v === 'literal'] *)
Definition is_string (v : value) (s : jsstring) : bool :=
  match v with
  | VStr x => jsstring_eqb x s
  | _ => false
  end.

(** [v?.k] *)
Definition get_optional (v : value) (k : jsstring) : Result value :=
  match v with
  | VUndef | VNull => Ok VUndef
  | _ => get v k
  end.

(** [data?.choices[0]?.message?.content]: a nullish [data] ends the whole
    chain; the index [0] is read without a guard. *)
Definition caption_of (data : value) : Result value :=
  match data with
  | VUndef | VNull => Ok VUndef
  | _ =>
      match get_path data [js "choices"; INDEX0] with
      | Ok c =>
          match get_optional c (js "message") with
          | Ok m => get_optional m (js "content")
          | o => o
          end
      | o => o
      end
  end.

Definition internal_server_error (label : list LogItem) (error : Err) : M Reply :=
  console (label ++ [LError error]) ;;
  ret (status_send 500 (js "Internal server error")).

Section HostedProvider.

(** [readSecret] of the secrets module: the stored key, or a falsy value
    when none is configured. *)
Variable readSecret : SECRET_KEYS -> value.

(** [app.post('/api/openai/caption-image')] *)
Definition caption_image (request : Request) : M Reply :=
  try_catch
    (let key := VStr [] in
     api <- lift (get (req_body request) (js "api")) ;;
     let key := if is_string api (js "openai") then readSecret OPENAI else key in
     let key := if is_string api (js "openrouter") then readSecret OPENROUTER else key in
     if negb (truthy key) then
       console [LText (js "No key found for API"); LValue api] ;;
       ret (sendStatus 401)
     else
       model <- lift (get (req_body request) (js "model")) ;;
       prompt <- lift (get (req_body request) PROMPT) ;;
       image <- lift (get (req_body request) (js "image")) ;;
       let body :=
         VObj [(js "model", model);
               (js "messages",
                VArr [VObj [(js "role", VStr (js "user"));
                            (js "content",
                             VArr [VObj [(TYPE, VStr (js "text")); (TEXT, prompt)];
                                   VObj [(TYPE, VStr (js "image_url"));
                                         (js "image_url", VObj [(js "url", image)])]])]]);
               (js "max_tokens", VNum (inject_Z 500))] in
       console [LText (js "Multimodal captioning request"); LValue body] ;;
       let apiUrl := None in
       let apiUrl := if is_string api (js "openrouter") then Some OPENROUTER_CHAT_URL else apiUrl in
       let apiUrl := if is_string api (js "openai") then Some OPENAI_CHAT_URL else apiUrl in
       apiUrl <- new_URL apiUrl ;;
       result <- fetch POST apiUrl ;;
       if negb (ok result) then
         let text := body_text result in
         console [LText (js "Multimodal captioning request failed");
                  LText (statusText result); LText text] ;;
         ret (status_send 500 text)
       else
         data <- json result ;;
         console [LText (js "Multimodal captioning response"); LValue data] ;;
         caption <- lift (caption_of data) ;;
         if negb (truthy caption) then ret (status_send 500 (js "No caption found"))
         else ret (response_json (VObj [(js "caption", caption)])))
    (internal_server_error []).

(** [app.post('/api/openai/transcribe-audio')].  [has_file] tells whether
    [request.file] is set; the file system and the form-data encoder are not
modelled. *)
Definition transcribe_audio (has_file : bool) (request : Request) : M Reply :=
  try_catch
    (let key := readSecret OPENAI in
     if negb (truthy key) then
       console [LText (js "No OpenAI key found")] ;;
       ret (sendStatus 401)
     else if negb has_file then
       console [LText (js "No audio file found")] ;;
       ret (sendStatus 400)
     else
       console [LText (js "Processing audio file")] ;;
       model <- lift (get (req_body request) (js "model")) ;;
       language <- lift (get (req_body request) (js "language")) ;;
       result <- fetch POST OPENAI_TRANSCRIPTIONS_URL ;;
       if negb (ok result) then
         let text := body_text result in
         console [LText (js "OpenAI request failed"); LText (statusText result); LText text] ;;
         ret (status_send 500 text)
       else
         data <- json result ;;
         console [LText (js "OpenAI transcription response"); LValue data] ;;
         ret (response_json data))
    (internal_server_error [LText (js "OpenAI transcription failed")]).

(** [app.post('/api/openai/generate-voice')] *)
Definition generate_voice (request : Request) : M Reply :=
  try_catch
    (let key := readSecret OPENAI in
     if negb (truthy key) then
       console [LText (js "No OpenAI key found")] ;;
       ret (sendStatus 401)
     else
       input <- lift (get (req_body request) TEXT) ;;
       voice <- lift (get (req_body request) (js "voice")) ;;
       speed <- lift (get (req_body request) (js "speed")) ;;
       model <- lift (get (req_body request) (js "model")) ;;
       result <- fetch POST OPENAI_SPEECH_URL ;;
       if negb (ok result) then
         let text := body_text result in
         console [LText (js "OpenAI request failed"); LText (statusText result); LText text] ;;
         ret (status_send 500 text)
       else
         let buffer := body_bytes result in
         ret (mkReply 200 (Binary buffer)))
    (internal_server_error [LText (js "OpenAI TTS generation failed")]).

(** [app.post('/api/openai/generate-image')] *)
Definition generate_image (request : Request) : M Reply :=
  try_catch
    (let key := readSecret OPENAI in
     if negb (truthy key) then
       console [LText (js "No OpenAI key found")] ;;
       ret (sendStatus 401)
     else
       console [LText (js "OpenAI request"); LValue (req_body request)] ;;
       result <- fetch POST OPENAI_IMAGES_URL ;;
       if negb (ok result) then
         let text := body_text result in
         console [LText (js "OpenAI request failed"); LText (statusText result); LText text] ;;
         ret (status_send 500 text)
       else
         data <- json result ;;
         ret (response_json data))
    (internal_server_error []).

End HostedProvider.


(** ** The endpoints together *)

Inductive Endpoint : Type :=
| Sd_ping | Sd_upscalers | Sd_samplers | Sd_models | Sd_get_model
| Sd_set_model | Sd_generate | Sd_next_upscalers
| Comfy_ping | Comfy_samplers | Comfy_models | Comfy_schedulers | Comfy_vaes
| Comfy_generate
| Caption_image | Transcribe_audio | Generate_voice | Generate_image.

Definition Endpoint_eq_dec (a b : Endpoint) : {a = b} + {a <> b}.
Proof. decide equality. Defined.

(** What the handlers take from outside the request and the backend. *)
Record Env : Type := mkEnv {
  env_number_to_string : Q -> jsstring;
  env_string_to_number : jsstring -> option Q;
  env_readSecret : SECRET_KEYS -> value;
  env_has_file : bool;          (* [request.file] of the upload *)
  env_fuel : nat                (* for the polling loop *)
}.

Definition handle (env : Env) (e : Endpoint) : Request -> M Reply :=
  match e with
  | Sd_ping => sd_ping
  | Sd_upscalers => sd_upscalers
  | Sd_samplers => sd_samplers
  | Sd_models => sd_models
  | Sd_get_model => sd_get_model
  | Sd_set_model => sd_set_model (env_number_to_string env) (env_string_to_number env)
  | Sd_generate => sd_generate
  | Sd_next_upscalers => sd_next_upscalers
  | Comfy_ping => comfy_ping
  | Comfy_samplers => comfy_samplers
  | Comfy_models => comfy_models
  | Comfy_schedulers => comfy_schedulers
  | Comfy_vaes => comfy_vaes
  | Comfy_generate => comfy_generate (env_number_to_string env) (env_fuel env)
  | Caption_image => caption_image (env_readSecret env)
  | Transcribe_audio => transcribe_audio (env_readSecret env) (env_has_file env)
  | Generate_voice => generate_voice (env_readSecret env)
  | Generate_image => generate_image (env_readSecret env)
  end.

(** The handlers of the hosted provider. *)
Definition hosted (e : Endpoint) : bool :=
  match e with
  | Caption_image | Transcribe_audio | Generate_voice | Generate_image => true
  | _ => false
  end.

(** The handlers of stable-diffusion.js that test [result.ok] on the first
    answer of the backend. *)
Definition checks_ok (e : Endpoint) : bool :=
  match e with
  | Sd_get_model => false
  | _ => negb (hosted e)
  end.

(** A backend that answers every call with [r]. *)
Definition always (r : Response) : Backend := fun _ _ => Answered r.

(** A 2xx answer with a JSON body. *)
Definition ok_json (v : value) : Response :=
  mkResponse 200 (js "OK") [] (Some v) [].

(** A 2xx answer with a binary body. *)
Definition ok_bytes (bytes : list N) : Response :=
  mkResponse 200 (js "OK") [] None bytes.

(** A normalized failure: a non-2xx status sent by [sendStatus], nothing of
    the backend in it. *)
Definition normalized_failure (o : Outcome Reply) : Prop :=
  exists code, is_2xx code = false /\ o = Ret (sendStatus code).

(** C3 in the words of the specification, as far as the count of call sites
    goes: one handler at most is exempt, every other one answers a failed
    backend call with a normalized failure. *)
Definition one_pass_through_at_most (env : Env) : Prop :=
  exists e0 : Endpoint,
    forall e, e <> e0 ->
      forall request r, ok r = false ->
        normalized_failure (outcome_of (handle env e request) (always r)).

(** *** Sample data *)

(** [http://localhost:7860/old/path?x=1] *)
Definition sample_base_url : URL :=
  mkURL (js "http") [] [] (Some (js "localhost")) (Some 7860%N)
        (js "/old/path") false (Some (js "x=1")) None.

(** [http://127.0.0.1:8188/] *)
Definition sample_comfy_url : URL :=
  mkURL (js "http") [] [] (Some (js "127.0.0.1")) (Some 8188%N)
        (js "/") false None None.

(** [404 Not Found] with the JSON body [{ detail: 'Not Found' }]. *)
Definition not_found : Response :=
  mkResponse 404 (js "Not Found")
             (js "{" ++ [34%N] ++ js "detail" ++ [34%N] ++ js ":" ++ [34%N]
              ++ js "Not Found" ++ [34%N] ++ js "}")
             (Some (VObj [(js "detail", VStr (js "Not Found"))])) [].

Definition sample_env : Env :=
  mkEnv (fun _ => []) (fun _ => None) (fun _ => VStr (js "sk-key")) true 0.

(** *** Typed backend data *)

(** An entry of the upscaler lists of SD WebUI. *)
Definition upscaler_json (name : jsstring) : value :=
  VObj [(NAME, VStr name); (js "model_name", VNull); (js "scale", VNum (inject_Z 4))].

(** The backend of the upscalers handlers: the first call (the regular
    upscalers) and the second one (the latent modes). *)
Definition upscalers_backend (regular latent : list jsstring) : Backend :=
  fun n _ =>
    match n with
    | O => Answered (ok_json (VArr (List.map upscaler_json regular)))
    | S _ => Answered (ok_json (VArr (List.map upscaler_json latent)))
    end.

(** An image reference, the outputs of a job by node, a history. *)
Record Image : Type := mkImage {
  img_filename : jsstring;
  img_subfolder : jsstring;
  img_type : jsstring
}.

Definition JobOutputs : Type := list (jsstring * list Image).
Definition History : Type := list (jsstring * JobOutputs).

Definition image_json (i : Image) : value :=
  VObj [(FILENAME, VStr (img_filename i)); (SUBFOLDER, VStr (img_subfolder i));
        (TYPE, VStr (img_type i))].

Definition job_json (o : JobOutputs) : value :=
  VObj [(OUTPUTS,
         VObj (List.map (fun ni => (fst ni, VObj [(IMAGES, VArr (List.map image_json (snd ni)))])) o))].

Definition history_json (h : History) : value :=
  VObj (List.map (fun je => (fst je, job_json (snd je))) h).

(** The history has an entry under the job id. *)
Definition has_job (id : jsstring) (h : History) : bool :=
  existsb (fun je => jsstring_eqb (fst je) id) h.

(** The id was in one of the first [n] snapshots. *)
Definition seen_before (id : jsstring) (snapshots : nat -> History) (n : nat) : bool :=
  existsb (fun j => has_job id (snapshots j)) (seq 0 n).

(** The ComfyUI backend of one generation: the submission is answered with
    the job id, then each call with the next snapshot of the history, and
    the call after the snapshot that has the job with the image bytes. *)
Definition comfy_backend (id : jsstring) (snapshots : nat -> History) (img : list N)
  : Backend :=
  fun n _ =>
    match n with
    | O => Answered (ok_json (VObj [(PROMPT_ID, VStr id)]))
    | S i =>
        if seen_before id snapshots i then Answered (ok_bytes img)
        else Answered (ok_json (history_json (snapshots i)))
    end.

(** The scenario of C4. *)
Definition abc123 : jsstring := js "abc123".

Definition x_png : Image := mkImage (js "x.png") [] (js "output").

Definition scenario_snapshots (n : nat) : History :=
  match n with
  | 0 | 1 => []
  | _ => [(abc123, [(js "9", [x_png])])]
  end.

(** The polls and delays of [n] rounds in which the job is absent. *)
Fixpoint absent_rounds (historyUrl : URL) (n : nat) : list IO :=
  match n with
  | O => []
  | S n' => Called (mkCall GET historyUrl) :: Waited POLL_INTERVAL :: absent_rounds historyUrl n'
  end.

(** The progress report of SD WebUI. *)
Definition progress_state_json (job_count : Q) : value :=
  VObj [(js "skipped", VBool false); (JOB_COUNT, VNum job_count)].

Definition progress_json (progress job_count : Q) : value :=
  VObj [(PROGRESS, VNum progress); (js "eta_relative", VNum 0);
        (STATE, progress_state_json job_count)].

Definition is_idle (report : Q * Q) : bool :=
  Qeq_bool (fst report) 0 && Qeq_bool (snd report) 0.

(** The backend of the set-model handler: the POST is answered with 200,
    then each progress call with the next report. *)
Definition set_model_backend (reports : nat -> Q * Q) : Backend :=
  fun n _ =>
    match n with
    | O => Answered (ok_json VNull)
    | S i => Answered (ok_json (progress_json (fst (reports i)) (snd (reports i))))
    end.

(** The number of reports, among [limit] of them from index [i] on, that
    come before the first idle one. *)
Fixpoint busy_reports (reports : nat -> Q * Q) (i limit : nat) : nat :=
  match limit with
  | O => 0
  | S limit' =>
      if is_idle (reports i) then 0 else S (busy_reports reports (S i) limit')
  end.

Fixpoint busy_rounds (progressUrl : URL) (n : nat) : list IO :=
  match n with
  | O => []
  | S n' => Called (mkCall GET progressUrl) :: Waited CHECK_INTERVAL :: busy_rounds progressUrl n'
  end.

Definition count_calls (io : list IO) : nat :=
  List.length (filter (fun x => match x with Called _ => true | Waited _ => false end) io).

Definition waits (io : list IO) : list N :=
  List.flat_map (fun x => match x with Called _ => [] | Waited ms => [ms] end) io.


(** The answers that the handler got to the calls of a trace, in the
    order of the calls; [i] is the number of calls issued before. *)
Fixpoint answers_from (w : Backend) (i : nat) (io : list IO) : list Fetched :=
  match io with
  | [] => []
  | Called c :: t => w i c :: answers_from w (S i) t
  | Waited _ :: t => answers_from w i t
  end.

(** The answers that the handler got from the backend. *)
Definition answers_of {A : Type} (h : M A) (w : Backend) : list Fetched :=
  answers_from w 0 (io_of h w).

(** Of the answers that a handler of stable-diffusion.js got, those that
    it tests with [result.ok]: all of them, except that the get-model
    handler tests none and the set-model handler only the answer to its
    POST ([getProgress] does not test what the progress endpoint
    answers). *)
Definition tested_answers (e : Endpoint) (answers : list Fetched) : list Fetched :=
  match e with
  | Sd_get_model => []
  | Sd_set_model => firstn 1 answers
  | _ => answers
  end.

(** The answer came, with a 2xx status. *)
Definition answered_2xx (f : Fetched) : bool :=
  match f with
  | Rejected => false
  | Answered r => ok r
  end.

(** [error.cause] *)
Definition error_cause (e : Err) : option jsstring :=
  match e with
  | Error _ cause => cause
  | _ => None
  end.

(** A line of the console that holds an error without a cause and nothing
    else. *)
Definition bare_error_line (line : list LogItem) : Prop :=
  exists e, line = [LError e] /\ error_cause e = None.

(** From the state [st] on, the run [r] has written nothing to the
    console, and unless it has thrown, every call it has issued was
    answered 2xx. *)
Definition quiet_and_checked {A : Type} (w : Backend) (st : State)
           (r : Outcome A * State) : Prop :=
  exists new,
    st_io (snd r) = st_io st ++ new
    /\ st_calls (snd r) = st_calls st + count_calls new
    /\ st_console (snd r) = st_console st
    /\ ((forall e, fst r <> Throw e) ->
        forallb answered_2xx (answers_from w (st_calls st) new) = true).


(** Two entries of a model list of SD WebUI, and their titles. *)
Definition sample_models : list value :=
  [VObj [(TITLE, VStr (js "v1-5-pruned.ckpt [e1441589a6]"));
         (js "model_name", VStr (js "v1-5-pruned"))];
   VObj [(TITLE, VStr (js "anything-v3.safetensors"))]].

Definition sample_titles : list value :=
  [VStr (js "v1-5-pruned.ckpt [e1441589a6]"); VStr (js "anything-v3.safetensors")].


(** The request of the prompt expansion: a body with the prompt, a string,
    or without it. *)
Definition expand_request (prompt : option jsstring) : Request :=
  mkRequest None
    (VObj match prompt with
          | Some s => [(PROMPT, VStr s)]
          | None => []
          end).

(** The text handed to the pipeline. *)
Definition expansion_input (second : bool) (s : jsstring) : jsstring :=
  safeStr s ++ nth (if second then 1 else 0) splitStrings [].


(** The outputs recorded under the job id, if any (the first entry with
    this key). *)
Fixpoint job_of (id : jsstring) (h : History) : option JobOutputs :=
  match h with
  | [] => None
  | (k, o) :: t => if jsstring_eqb k id then Some o else job_of id t
  end.

(** The handler comes to an end: it has not been cut short by the fuel. *)
Definition finishes {A : Type} (r : Outcome A * State) : Prop := fst r <> Fuel.


(** From the state [st] on, the run [r] has issued one call at most, has
    waited for nothing and has come to an end. *)
Definition one_call_at_most {A : Type} (st : State) (r : Outcome A * State) : Prop :=
  exists rest,
    st_io (snd r) = st_io st ++ rest
    /\ (rest = [] \/ exists c, rest = [Called c])
    /\ finishes r.


(** A pipeline that continues the prompt with a fixed text. *)
Definition sample_pipe (prompt : jsstring) : Result value :=
  Ok (VArr [VObj [(GENERATED_TEXT,
                   VStr (prompt ++ js " detailed [masterpiece], (sharp:1.2).  "))]]).


(** The keys that the source reads with [v.k] or [v['k']], and the index
    in [v[0]]. *)
Definition SOURCE_KEYS : list jsstring :=
  [NAME; TITLE; SD_MODEL_CHECKPOINT; PROGRESS; STATE; JOB_COUNT; PROMPT;
   INDEX0; GENERATED_TEXT; PROMPT_ID; OUTPUTS; IMAGES; FILENAME; SUBFOLDER;
   TYPE; TEXT]
  ++ List.map js
       ["KSampler"; "VAELoader"; "CheckpointLoaderSimple"; "input"; "required";
        "sampler_name"; "scheduler"; "vae_name"; "ckpt_name"; "api"; "model";
        "image"; "language"; "voice"; "speed"; "choices"; "message"; "content";
        "url"; "auth"]%string.

(** What [history[id]] finds on the object with the members [ms]. *)
Definition object_member (ms : list (jsstring * value)) (k : jsstring) : Member :=
  match assoc k ms with
  | Some x => Data x
  | None => if object_inherits k then Builtin k else Data VUndef
  end.

(** [history[id]] is truthy on the object with the members [ms]: the
    object has the key with a truthy value, or it has not got the key and
    the key names a member of [Object.prototype]. *)
Definition present (id : jsstring) (ms : list (jsstring * value)) : bool :=
  match assoc id ms with
  | Some v => truthy v
  | None => object_inherits id
  end.

(** The object has the key. *)
Definition has_key (id : jsstring) (ms : list (jsstring * value)) : bool :=
  existsb (fun m => jsstring_eqb (fst m) id) ms.

(** A ComfyUI backend given by the JSON of its answers: the submission is
    answered with the job id, each later call with the next snapshot of the
    history, an object. *)
Definition history_backend (id : jsstring) (snapshots : nat -> list (jsstring * value))
  : Backend :=
  fun n _ =>
    match n with
    | O => Answered (ok_json (VObj [(PROMPT_ID, VStr id)]))
    | S i => Answered (ok_json (VObj (snapshots i)))
    end.

(** C5 in the words of the specification: on the snapshots [s] the handler
    comes to an end if and only if some snapshot has the job id as a key. *)
Definition ends_iff_key_appears (nts : Q -> jsstring) (request : Request)
           (id : jsstring) (s : nat -> list (jsstring * value)) : Prop :=
  (exists fuel, finishes (run (comfy_generate nts fuel request) (history_backend id s)))
  <-> (exists n, has_key id (s n) = true).


(** ** Vocabulary of the further properties *)

(** One of the code units of [dangerousPatterns]. *)
Definition is_dangerous (c : N) : bool := existsb (N.eqb c) dangerousPatterns.

(** [t] is [s] with some code units of the class [p] left out: nothing is
    added, changed or moved. *)
Inductive deletes_only (p : N -> bool) : jsstring -> jsstring -> Prop :=
| del_nil : deletes_only p [] []
| del_keep (c : N) (s t : jsstring) :
    deletes_only p s t -> deletes_only p (c :: s) (c :: t)
| del_drop (c : N) (s t : jsstring) :
    p c = true -> deletes_only p s t -> deletes_only p (c :: s) t.

(** The string does not begin with a code unit of the class [p]. *)
Definition starts_without (p : N -> bool) (s : jsstring) : bool :=
  match s with
  | [] => true
  | c :: _ => negb (p c)
  end.

(** The string does not end with a code unit of the class [p]. *)
Definition ends_without (p : N -> bool) (s : jsstring) : bool :=
  starts_without p (rev s).


(** A backend that cannot be reached: every call is rejected. *)
Definition rejecting : Backend := fun _ _ => Rejected.

(** The handlers that issue one outbound call at most. *)
Definition single_call (e : Endpoint) : bool :=
  match e with
  | Sd_upscalers | Sd_set_model | Comfy_generate => false
  | _ => true
  end.

Definition INTERNAL_SERVER_ERROR : jsstring := js "Internal server error".


(** The provider that the caption handler picks for a value of
    [request.body.api]: the secret it reads and the URL it posts to. *)
Definition provider_of (api : value) : option (SECRET_KEYS * URL) :=
  if is_string api (js "openai") then Some (OPENAI, OPENAI_CHAT_URL)
  else if is_string api (js "openrouter") then Some (OPENROUTER, OPENROUTER_CHAT_URL)
  else None.

(** A chat completion with one choice whose message has the content [c]. *)
Definition completion_json (c : value) : value :=
  VObj [(js "id", VStr (js "chatcmpl-1"));
        (js "choices", VArr [VObj [(js "index", VNum 0);
                                   (js "message", VObj [(js "role", VStr (js "assistant"));
                                                        (js "content", c)])]])].

Definition sample_no_key_env : Env :=
  mkEnv (fun _ => []) (fun _ => None) (fun _ => VUndef) true 0.


(** The call has failed: the promise was rejected or the answer is not
    2xx. *)
Definition failed (f : Fetched) : bool :=
  match f with
  | Rejected => true
  | Answered r => negb (ok r)
  end.

(** [/object_info] of ComfyUI, as far as the handlers read it: each input
    is a pair whose first component is the list of choices. *)
Definition object_info_json (samplers schedulers checkpoints vaes : list value) : value :=
  VObj [(js "KSampler",
         VObj [(js "input",
                VObj [(js "required",
                       VObj [(js "seed", VArr [VStr (js "INT")]);
                             (js "sampler_name", VArr [VArr samplers]);
                             (js "scheduler", VArr [VArr schedulers])])])]);
        (js "CheckpointLoaderSimple",
         VObj [(js "input",
                VObj [(js "required", VObj [(js "ckpt_name", VArr [VArr checkpoints])])])]);
        (js "VAELoader",
         VObj [(js "input",
                VObj [(js "required", VObj [(js "vae_name", VArr [VArr vaes])])])])].

(** [x.name] of an entry that is not [null]. *)
Definition name_of (x : value) : value :=
  match get x NAME with
  | Ok n => n
  | Raise _ => VUndef
  end.

Definition is_nullish (v : value) : bool :=
  match v with
  | VUndef | VNull => true
  | _ => false
  end.


(** Two answers that a reader of the JSON body alone cannot tell apart. *)
Definition same_json (f1 f2 : Fetched) : Prop :=
  match f1, f2 with
  | Rejected, Rejected => True
  | Answered r1, Answered r2 => body_json r1 = body_json r2
  | _, _ => False
  end.

(** The backend of the set-model handler when the progress endpoint
    answers with the status [code] instead of 200. *)
Definition set_model_backend_with_status (code : N) (reports : nat -> Q * Q) : Backend :=
  fun n _ =>
    match n with
    | O => Answered (ok_json VNull)
    | S i => Answered (mkResponse code (js "Service Unavailable") []
                         (Some (progress_json (fst (reports i)) (snd (reports i)))) [])
    end.

(** The backend of the set-model handler when the progress endpoint stops
    answering after [k] reports. *)
Definition set_model_backend_until (k : nat) (reports : nat -> Q * Q) : Backend :=
  fun n _ =>
    match n with
    | O => Answered (ok_json VNull)
    | S i => if i <? k
             then Answered (ok_json (progress_json (fst (reports i)) (snd (reports i))))
             else Rejected
    end.

(** Idle on the first report. *)
Definition idle_reports (n : nat) : Q * Q := (0%Q, 0%Q).

(** Never idle. *)
Definition busy_reports_forever (n : nat) : Q * Q := (inject_Z 1 / inject_Z 2, 1%Q)%Q.


(** The ComfyUI backend when history poll number [n + 1] gets the answer
    [f] instead of a snapshot. *)
Definition comfy_backend_failing (id : jsstring) (snapshots : nat -> History) (n : nat)
           (f : Fetched) : Backend :=
  fun k _ =>
    match k with
    | O => Answered (ok_json (VObj [(PROMPT_ID, VStr id)]))
    | S i => if i <? n then Answered (ok_json (history_json (snapshots i))) else f
    end.

(** The ComfyUI backend when the answer to the submission is the JSON
    [submission] and every later call gets the next snapshot. *)
Definition comfy_backend_submission (submission : value) (snapshots : nat -> History)
  : Backend :=
  fun k _ =>
    match k with
    | O => Answered (ok_json submission)
    | S i => Answered (ok_json (history_json (snapshots i)))
    end.

(** The string assigned to [imgUrl.search] for an image reference. *)
Definition asset_search (i : Image) : jsstring :=
  js "?filename=" ++ img_filename i ++ js "&subfolder=" ++ img_subfolder i
  ++ js "&type=" ++ img_type i.

(** Printable ASCII outside the query and special-query percent-encode
    sets: the code units that the [search] setter copies as they are. *)
Definition is_query_plain (c : N) : bool :=
  ((33 <=? c) && (c <=? 126) && negb (c =? 34) && negb (c =? 35) && negb (c =? 39)
   && negb (c =? 60) && negb (c =? 62))%N.

(** [{ "9": { images: [...] } }] of a job, node by node. *)
Definition node_json (images : list Image) : value :=
  VObj [(IMAGES, VArr (List.map image_json images))].


(** A history whose third snapshot has the job with two output nodes:
    node 9, listed first, holds one image, and node 3 holds two. *)
Definition second_png : Image := mkImage (js "y.png") (js "out") (js "temp").

Definition two_node_snapshots (n : nat) : History :=
  match n with
  | 0 | 1 => []
  | _ => [(abc123, [(js "9", [x_png]); (js "3", [second_png; x_png])])]
  end.

(** A history whose first snapshot has the job, with one node and no
    image. *)
Definition empty_job_snapshots (n : nat) : History := [(abc123, [(js "9", [])])].


(* ================================================================== *)
(** * Properties *)
(* ================================================================== *)

(** ** The prompt sanitizer *)

Example safeStr_ex1 :
  safeStr (js "  a   cat,  on a mat. , ") = js "a cat, on a mat".
Proof. vm_compute. reflexivity. Qed.

Section PairInduction.
Variable A : Type.
Variable P : list A -> Prop.
Hypothesis Hnil : P [].
Hypothesis Hone : forall a, P [a].
Hypothesis Hpair : forall a b l, P l -> P (b :: l) -> P (a :: b :: l).

Lemma list_pair_ind : forall l, P l.
Proof.
  assert (H : forall l, P l /\ forall a, P (a :: l)).
  { induction l as [|b l [IH1 IH2]]; split; auto. }
  intro l. apply H.
Qed.
End PairInduction.

Lemma replace_double_space_cons2 a b rest :
  replace_double_space (a :: b :: rest) =
  if ((a =? SPACE) && (b =? SPACE))%N
  then SPACE :: replace_double_space rest
  else a :: replace_double_space (b :: rest).
Proof. reflexivity. Qed.

Lemma lead_spaces_replace s :
  forall n, (lead_spaces s <= 2 * n)%N ->
            (lead_spaces (replace_double_space s) <= n)%N.
Proof.
  induction s as [|a|a b rest IH1 IH2] using list_pair_ind; intros n H.
  - cbn [replace_double_space lead_spaces]. lia.
  - cbn [replace_double_space lead_spaces] in *. destruct (a =? SPACE)%N; lia.
  - rewrite replace_double_space_cons2.
    destruct (a =? SPACE)%N eqn:Ea; destruct (b =? SPACE)%N eqn:Eb; simpl andb; cbv iota.
    + cbn [lead_spaces] in *. rewrite Ea, Eb in H.
      change (SPACE =? SPACE)%N with true. cbv iota.
      specialize (IH1 (N.pred n)). lia.
    + cbn [lead_spaces] in H |- *. rewrite Ea, Eb in H. rewrite Ea.
      assert (Hz : (lead_spaces (replace_double_space (b :: rest)) <= 0)%N).
      { apply IH2. cbn [lead_spaces]. rewrite Eb. lia. }
      lia.
    + cbn [lead_spaces]. rewrite Ea. lia.
    + cbn [lead_spaces]. rewrite Ea. lia.
Qed.

Lemma max_space_run_replace s :
  forall n, (max_space_run s <= 2 * n)%N ->
            (max_space_run (replace_double_space s) <= n)%N.
Proof.
  induction s as [|a|a b rest IH1 IH2] using list_pair_ind; intros n H.
  - cbn [replace_double_space max_space_run]. lia.
  - cbn [replace_double_space max_space_run lead_spaces] in *.
    destruct (a =? SPACE)%N; lia.
  - rewrite replace_double_space_cons2.
    destruct (a =? SPACE)%N eqn:Ea; destruct (b =? SPACE)%N eqn:Eb; simpl andb; cbv iota.
    + cbn [max_space_run lead_spaces] in H. rewrite Ea, Eb in H.
      cbn [max_space_run]. change (SPACE =? SPACE)%N with true. cbv iota.
      pose proof (lead_spaces_replace rest (N.pred n)).
      specialize (IH1 n). lia.
    + cbn [max_space_run lead_spaces] in H. rewrite Ea, Eb in H.
      cbn [max_space_run]. rewrite Ea.
      assert (Hz : (lead_spaces (replace_double_space (b :: rest)) <= 0)%N).
      { apply lead_spaces_replace. cbn [lead_spaces]. rewrite Eb. lia. }
      specialize (IH2 n).
      cbn [max_space_run] in IH2. rewrite Eb in IH2. lia.
    + cbn [max_space_run] in H |- *. rewrite Ea in H |- *. apply IH2.
      cbn [max_space_run]. exact H.
    + cbn [max_space_run] in H |- *. rewrite Ea in H |- *. apply IH2.
      cbn [max_space_run]. exact H.
Qed.

Lemma max_space_run_iter k :
  forall m s, (max_space_run s <= 2 ^ N.of_nat k * m)%N ->
              (max_space_run (Nat.iter k replace_double_space s) <= m)%N.
Proof.
  induction k as [|k IH]; intros m s H.
  - change (N.of_nat 0) with 0%N in H. rewrite N.pow_0_r in H.
    cbn [Nat.iter nat_rect]. lia.
  - rewrite Nat.iter_succ. apply max_space_run_replace. apply IH.
    rewrite Nat2N.inj_succ, N.pow_succ_r' in H. lia.
Qed.

Lemma max_space_run_app l1 l2 :
  (max_space_run l2 <= max_space_run (l1 ++ l2))%N.
Proof.
  induction l1 as [|c l1 IH]; cbn [app max_space_run]; [lia|].
  destruct (c =? SPACE)%N; lia.
Qed.

Lemma max_run_no_double s :
  (max_space_run s <= 1)%N -> no_double_space s.
Proof.
  intros H l1 l2 ->.
  pose proof (max_space_run_app l1 (SPACE :: SPACE :: l2)) as Ha.
  cbn [max_space_run lead_spaces] in Ha.
  change (SPACE =? SPACE)%N with true in Ha. cbv iota in Ha. lia.
Qed.

Lemma no_double_space_tail a s :
  no_double_space (a :: s) -> no_double_space s.
Proof. intros H l1 l2 ->. apply (H (a :: l1) l2). reflexivity. Qed.

Lemma replace_double_space_fix s :
  no_double_space s -> replace_double_space s = s.
Proof.
  induction s as [|a|a b rest IH1 IH2] using list_pair_ind; intro H.
  - reflexivity.
  - reflexivity.
  - rewrite replace_double_space_cons2.
    destruct ((a =? SPACE) && (b =? SPACE))%N eqn:E.
    + apply andb_prop in E. destruct E as [Ea Eb].
      apply N.eqb_eq in Ea, Eb. subst a b.
      exfalso. apply (H [] rest). reflexivity.
    + f_equal. apply IH2. exact (no_double_space_tail _ _ H).
Qed.

Lemma iter_replace_double_space_fix k s :
  no_double_space s -> Nat.iter k replace_double_space s = s.
Proof.
  intro H. induction k as [|k IH]; [reflexivity|].
  rewrite Nat.iter_succ, IH. apply replace_double_space_fix. exact H.
Qed.

(** *** Stripping the ends *)

Lemma drop_while_suffix p s : exists pre, s = pre ++ drop_while p s.
Proof.
  induction s as [|c t [pre IH]]; cbn [drop_while].
  - exists []. reflexivity.
  - destruct (p c).
    + exists (c :: pre). cbn [app]. f_equal. exact IH.
    + exists []. reflexivity.
Qed.

Lemma drop_while_weaker (p q : N -> bool) s :
  (forall c, q c = true -> p c = true) ->
  drop_while q (drop_while p s) = drop_while p s.
Proof.
  intro Hqp. induction s as [|c t IH]; cbn [drop_while]; [reflexivity|].
  destruct (p c) eqn:Ep; [exact IH|].
  cbn [drop_while]. destruct (q c) eqn:Eq; [|reflexivity].
  apply Hqp in Eq. congruence.
Qed.

Lemma drop_while_length p s :
  List.length (drop_while p s) <= List.length s.
Proof.
  induction s as [|c t IH]; cbn [drop_while List.length]; [lia|].
  destruct (p c); cbn [List.length]; lia.
Qed.

Lemma drop_while_fixed_prefix p l1 l2 :
  drop_while p (l1 ++ l2) = l1 ++ l2 -> drop_while p l1 = l1.
Proof.
  destruct l1 as [|c l1]; [reflexivity|].
  cbn [app drop_while]. destruct (p c); [|reflexivity].
  intro H. pose proof (drop_while_length p (l1 ++ l2)) as Hl.
  rewrite H in Hl. cbn [List.length] in Hl. lia.
Qed.

Lemma no_double_space_suffix l1 l2 :
  no_double_space (l1 ++ l2) -> no_double_space l2.
Proof.
  intros H a b ->. apply (H (l1 ++ a) b). rewrite <- app_assoc. reflexivity.
Qed.

Lemma no_double_space_rev s :
  no_double_space s -> no_double_space (rev s).
Proof.
  intros H l1 l2 E. apply (H (rev l2) (rev l1)).
  rewrite <- (rev_involutive s), E.
  rewrite rev_app_distr. cbn [rev]. rewrite <- !app_assoc. reflexivity.
Qed.

Lemma no_double_space_drop_while p s :
  no_double_space s -> no_double_space (drop_while p s).
Proof.
  intro H. destruct (drop_while_suffix p s) as [pre E].
  rewrite E in H. exact (no_double_space_suffix _ _ H).
Qed.

Lemma no_double_space_strip_ends p s :
  no_double_space s -> no_double_space (strip_ends p s).
Proof.
  intro H. unfold strip_ends.
  auto using no_double_space_rev, no_double_space_drop_while.
Qed.

(** Once the ends are stripped of [p], stripping any smaller class [q]
    changes nothing. *)
Lemma strip_ends_weaker (p q : N -> bool) s :
  (forall c, q c = true -> p c = true) ->
  strip_ends q (strip_ends p s) = strip_ends p s.
Proof.
  intro Hqp. unfold strip_ends.
  set (w := drop_while p s).
  set (z := drop_while p (rev w)).
  assert (Hhead : drop_while q (rev z) = rev z).
  { destruct (drop_while_suffix p (rev w)) as [pre E]. fold z in E.
    assert (Ew : w = rev z ++ rev pre).
    { rewrite <- (rev_involutive w), E, rev_app_distr. reflexivity. }
    assert (Hw : drop_while p w = w).
    { unfold w. apply (drop_while_weaker p p). auto. }
    rewrite Ew in Hw. apply drop_while_fixed_prefix in Hw.
    rewrite <- Hw. apply drop_while_weaker. exact Hqp. }
  rewrite Hhead, rev_involutive.
  unfold z. rewrite (drop_while_weaker p q _ Hqp). reflexivity.
Qed.

Lemma ws_in_ws_comma_dot c :
  is_js_whitespace c = true -> is_ws_comma_dot c = true.
Proof. unfold is_ws_comma_dot. intros ->. reflexivity. Qed.

(** The sanitizer is idempotent on every string whose spaces have been
    collapsed completely by the sixteen passes. *)
Lemma safeStr_idempotent_when_collapsed x :
  no_double_space (Nat.iter 16 replace_double_space x) ->
  safeStr (safeStr x) = safeStr x.
Proof.
  intro H. unfold safeStr at 1.
  assert (Hnd : no_double_space (safeStr x)).
  { unfold safeStr, trim, strip_ws_comma_dot.
    auto using no_double_space_strip_ends. }
  rewrite (iter_replace_double_space_fix 16 _ Hnd).
  unfold safeStr, trim, strip_ws_comma_dot.
  rewrite (strip_ends_weaker _ _ _ ws_in_ws_comma_dot).
  apply strip_ends_weaker. auto.
Qed.

(** C7 (amended): on every input whose runs of consecutive spaces are at
    most 65536 (2^16) long, sanitizing twice gives the same string as
    sanitizing once. *)
Theorem safeStr_idempotent_bounded_runs (x : jsstring) :
  (max_space_run x <= 65536)%N ->
  safeStr (safeStr x) = safeStr x.
Proof.
  intro H. apply safeStr_idempotent_when_collapsed.
  apply max_run_no_double.
  apply (max_space_run_iter 16). exact H.
Qed.

Lemma safeStr_idempotent_bounded_runs_witness :
  (max_space_run (js " a  cat , on.  ") <= 65536)%N /\
  safeStr (safeStr (js " a  cat , on.  ")) = safeStr (js " a  cat , on.  ").
Proof.
  split.
  - vm_compute. discriminate.
  - apply safeStr_idempotent_bounded_runs. vm_compute. discriminate.
Defined.

(** C7 (as stated) fails: on the letter a, 65537 spaces and the letter b
    the sixteen passes leave two spaces between the letters, and a second
    application leaves one. *)
Lemma safeStr_not_idempotent :
  safeStr long_run_prompt = js "a  b"
  /\ safeStr (safeStr long_run_prompt) = js "a b"
  /\ safeStr (safeStr long_run_prompt) <> safeStr long_run_prompt.
Proof.
  assert (H1 : safeStr long_run_prompt = js "a  b") by (vm_compute; reflexivity).
  split; [exact H1|]. rewrite H1.
  split; [reflexivity|discriminate].
Qed.

(** ** The monad *)

Lemma mapM_lift {A B : Type} (f : A -> M B) (g : A -> Result B) :
  (forall x w st, f x w st = lift (g x) w st) ->
  forall xs w st, mapM f xs w st = lift (traverse g xs) w st.
Proof.
  intros Hf xs w st. induction xs as [|x t IH]; [reflexivity|].
  cbn [mapM traverse]. unfold bind. rewrite Hf. unfold lift at 1.
  destruct (g x) as [y|e]; [|reflexivity].
  rewrite IH. unfold lift. destruct (traverse g t); reflexivity.
Qed.

Create HintDb handlers.

#[local] Hint Unfold
  sd_ping sd_upscalers sd_samplers sd_models sd_get_model sd_set_model
  sd_generate sd_next_upscalers sd_expand comfy_ping comfy_object_info
  comfy_samplers comfy_schedulers comfy_vaes comfy_models comfy_generate
  caption_image transcribe_audio generate_voice generate_image
  get_names_start get_names_finish getProgress log_and_500
  internal_server_error handle
  try_catch bind fetch fetch_start await new_URL json ret throw console
  delay out_of_fuel : handlers.

(** Unfold the handler at hand and evaluate it as far as the data allows. *)
Ltac run_handler :=
  unfold io_of, outcome_of, console_of, run;
  autounfold with handlers;
  cbn -[set_pathname set_search subpath_text js wait_for_model poll_history
        fetch_first_image mapM traverse array_map List.map safeStr removePattern
        expansion_input].

(** Case analysis on the answer of the backend to the call at hand. *)
Ltac on_answer r :=
  match goal with
  | w : Backend |- context [?b ?n ?c] =>
      constr_eq b w; destruct (w n c) as [|r]
  end.

Lemma mapM_state {A B : Type} (f : A -> M B) (xs : list A) (w : Backend) (st : State) :
  (forall x w st, snd (f x w st) = st) ->
  snd (mapM f xs w st) = st.
Proof.
  intro Hf. induction xs as [|x t IH]; [reflexivity|].
  cbn [mapM]. unfold bind.
  pose proof (Hf x w st) as Hx. destruct (f x w st) as [[y|e|] st1];
    cbn [snd] in *; subst st1; try reflexivity.
  destruct (mapM f t w st) as [[ys|e|] st2]; cbn [snd] in *; subst st2; reflexivity.
Qed.

Lemma array_map_state (data : value) (f : value -> M value) (w : Backend) (st : State) :
  (forall x w st, snd (f x w st) = st) ->
  snd (array_map data f w st) = st.
Proof.
  intro Hf. destruct data; try reflexivity. cbn [array_map]. apply mapM_state. exact Hf.
Qed.

Lemma mapM_no_fuel {A B : Type} (f : A -> M B) (xs : list A) (w : Backend) (st : State) :
  (forall x w st, fst (f x w st) <> Fuel) ->
  fst (mapM f xs w st) <> Fuel.
Proof.
  intro Hf. revert st. induction xs as [|x t IH]; intro st; [discriminate|].
  cbn [mapM]. unfold bind.
  pose proof (Hf x w st) as Hx. destruct (f x w st) as [[y|e|] st1];
    cbn [fst] in *; try discriminate; [|contradiction].
  pose proof (IH st1) as Ht. destruct (mapM f t w st1) as [[ys|e|] st2];
    cbn [fst] in *; try discriminate. contradiction.
Qed.

Lemma array_map_no_fuel (data : value) (f : value -> M value) (w : Backend) (st : State) :
  (forall x w st, fst (f x w st) <> Fuel) ->
  fst (array_map data f w st) <> Fuel.
Proof.
  intro Hf. destruct data; try discriminate. cbn [array_map]. apply mapM_no_fuel. exact Hf.
Qed.

Lemma model_option_no_fuel (x : value) (w : Backend) (st : State) :
  fst (model_option x w st) <> Fuel.
Proof. unfold model_option, bind, lift, ret. destruct (get x TITLE); discriminate. Qed.

Lemma lift_get_no_fuel (k : jsstring) (x : value) (w : Backend) (st : State) :
  fst (lift (get x k) w st) <> Fuel.
Proof. unfold lift. destruct (get x k); discriminate. Qed.

Lemma model_option_state (x : value) (w : Backend) (st : State) :
  snd (model_option x w st) = st.
Proof. unfold model_option, bind, lift, ret. destruct (get x TITLE); reflexivity. Qed.

Lemma lift_get_state (k : jsstring) (x : value) (w : Backend) (st : State) :
  snd (lift (get x k) w st) = st.
Proof. unfold lift. destruct (get x k); reflexivity. Qed.

(** One step of the case analysis of a run: the next thing the handler
    looks at is split into its cases. *)
Ltac split_run :=
  first
    [ match goal with
      | |- context [array_map ?d ?f ?w ?st] =>
          let H := fresh "Hst" in
          assert (H : snd (array_map d f w st) = st)
            by (apply array_map_state; intros;
                first [ apply model_option_state | apply lift_get_state | reflexivity ]);
          let F := fresh "Hfuel" in
          assert (F : fst (array_map d f w st) <> Fuel)
            by (apply array_map_no_fuel; intros;
                first [ apply model_option_no_fuel | apply lift_get_no_fuel | discriminate ]);
          destruct (array_map d f w st) as [[?|?|] ?]; cbn [fst snd] in H, F;
          [ | | exfalso; apply F; reflexivity ]; subst
      end
    | match goal with
      | |- context [lift ?x _ _] => destruct x eqn:?; cbn [lift]
      end
    | match goal with
      | w : Backend |- context [?b ?n ?c] => constr_eq b w; destruct (w n c) eqn:?
      end
    | match goal with
      | |- context [body_json ?r] => destruct (body_json r) eqn:?
      end
    | match goal with
      | |- context [if ?b then _ else _] => destruct b eqn:?
      end ].

Ltac explore := run_handler; repeat (split_run; run_handler).

(** ** Property reads and the platform *)

(** [get] and [member] agree on every key that the value does not
    inherit. *)
Lemma get_is_member (v : value) (k : jsstring) :
  inherits v k = false ->
  member v k = match get v k with
               | Ok x => Ok (Data x)
               | Raise e => Raise e
               end.
Proof.
  intro H. destruct v; cbn [member get]; unfold inherited; rewrite ?H; try reflexivity.
  - destruct (jsstring_eqb k LENGTH); [reflexivity|].
    destruct (at_index_key s k); reflexivity.
  - destruct (jsstring_eqb k LENGTH); [reflexivity|].
    destruct (at_index_key xs k); reflexivity.
  - destruct (assoc k members); reflexivity.
Qed.

(** None of the keys written in the source names a member of a built-in
    prototype, so that [get] is the property read of the source on them. *)
Lemma source_keys_not_inherited (k : jsstring) (v : value) :
  In k SOURCE_KEYS -> inherits v k = false.
Proof.
  intro Hin.
  assert (H : forallb (fun k => negb (existsb (jsstring_eqb k)
                                        (ARRAY_PROTOTYPE ++ STRING_PROTOTYPE
                                         ++ NUMBER_PROTOTYPE ++ BOOLEAN_PROTOTYPE
                                         ++ OBJECT_PROTOTYPE)))
                      SOURCE_KEYS = true) by (vm_compute; reflexivity).
  rewrite forallb_forall in H. specialize (H k Hin).
  apply negb_true_iff in H. rewrite !existsb_app in H.
  apply orb_false_elim in H. destruct H as [Harr H].
  apply orb_false_elim in H. destruct H as [Hstr H].
  apply orb_false_elim in H. destruct H as [Hnum H].
  apply orb_false_elim in H. destruct H as [Hbool Hobj].
  destruct v; cbn [inherits]; unfold object_inherits;
    rewrite ?Harr, ?Hstr, ?Hnum, ?Hbool, ?Hobj; reflexivity.
Qed.

Example member_inherited :
  member (VObj []) (js "constructor") = Ok (Builtin (js "constructor"))
  /\ member (VObj [(js "constructor", VNull)]) (js "constructor") = Ok (Data VNull)
  /\ member (VObj []) (js "abc123") = Ok (Data VUndef)
  /\ member (VArr []) (js "map") = Ok (Builtin (js "map"))
  /\ member (VArr [VNull]) (js "0") = Ok (Data VNull)
  /\ member (VStr (js "ab")) (js "length") = Ok (Data (VNum (inject_Z 2)))
  /\ member VNull (js "a") = Raise TypeError.
Proof. repeat split. Qed.

(** [Object.keys({ b: 1, 10: 2, 9: 3, a: 4, '01': 5 })] *)
Example Object_keys_order :
  Object_keys (VObj [(js "b", VNum 1); (js "10", VNum 2); (js "9", VNum 3);
                     (js "a", VNum 4); (js "01", VNum 5)])
  = Ok [js "9"; js "10"; js "b"; js "a"; js "01"].
Proof. reflexivity. Qed.

(** [removePattern] with patterns other than [dangerousPatterns]: a class,
    an assertion, a control escape, an octal escape and [\c]. *)
Example removePattern_escapes :
  removePattern (js "a1 b2") (js "d") = js "a b"
  /\ removePattern (js "a1 b2") (js "w") = js " "
  /\ removePattern (js "a1 b2") (js "sS") = []
  /\ removePattern (js "a1 b2") (js "b") = js "a1 b2"
  /\ removePattern (js "ab" ++ [10; 1]%N ++ js "n1") (js "n1") = js "abn1"
  /\ removePattern (js "c" ++ [92%N] ++ js "c" ++ [92%N]) (js "c") = js "c" ++ [92%N]
  /\ removePattern (js "a.b*c") (js ".*") = js "abc".
Proof. repeat split. Qed.

(** [response.send] with a lone number. *)
Example response_send_number :
  response_send (VNum (inject_Z 404)) = Ok (mkReply 404 StatusReason)
  /\ response_send (VNum (inject_Z 7)) = Raise RangeError
  /\ response_send (VNum (Qmake 4049 10)) = Ok (mkReply 404 StatusReason)
  /\ response_send (VNum (inject_Z (-1))) = Raise RangeError
  /\ response_send (VNum (inject_Z 4294967496)) = Ok (mkReply 200 StatusReason)
  /\ response_send (VStr (js "404")) = Ok (mkReply 200 (Sent (VStr (js "404"))))
  /\ response_send VUndef = Ok (mkReply 200 (Sent VUndef)).
Proof. repeat split. Qed.

(** ** Outbound URLs *)

Lemma subpath_text_plain (p : SubPath) : is_plain_path (subpath_text p) = true.
Proof. destruct p; reflexivity. Qed.

Lemma sd_ping_io (u : URL) (body : value) (w : Backend) :
  io_of (sd_ping (mkRequest (Some u) body)) w =
  [Called (mkCall GET (set_pathname u sdapi_v1_options))].
Proof.
  run_handler. on_answer r; [reflexivity|].
  run_handler. destruct (ok r); reflexivity.
Qed.

Lemma names_of_io (data : value) (w : Backend) (st : State) :
  snd (array_map data (fun x => lift (get x NAME)) w st) = st.
Proof.
  destruct data; try reflexivity.
  cbn [array_map].
  rewrite (mapM_lift _ (fun x => get x NAME)) by reflexivity.
  unfold lift. destruct (traverse _ xs); reflexivity.
Qed.

Lemma sd_samplers_io (u : URL) (body : value) (w : Backend) :
  io_of (sd_samplers (mkRequest (Some u) body)) w =
  [Called (mkCall GET (set_pathname u sdapi_v1_samplers))].
Proof.
  run_handler. on_answer r; [reflexivity|].
  run_handler. destruct (ok r); [|reflexivity].
  run_handler. destruct (body_json r) as [data|]; [|reflexivity].
  run_handler.
  match goal with
  | |- context [array_map data ?f w ?st] =>
      pose proof (names_of_io data w st) as Hs;
      destruct (array_map data f w st) as [[names|e|] st']
  end; cbn in Hs; subst; reflexivity.
Qed.

(** C2 (amended): on a base URL whose path is not opaque (every http and
    https URL), the outbound URL of a relay handler is the base URL with
    its path replaced by the sub-path; scheme, user info, host, port,
    query string and fragment are those of the base URL.  Only the former
    path is dropped. *)
Theorem outbound_url_replaces_path_only (base : URL) (p : SubPath) :
  url_opaque_path base = false ->
  set_pathname base p =
    mkURL (url_scheme base) (url_username base) (url_password base) (url_host base)
          (url_port base) (subpath_text p) false (url_query base) (url_fragment base)
  /\ protocol (set_pathname base p) = protocol base
  /\ hostname (set_pathname base p) = hostname base
  /\ port (set_pathname base p) = port base
  /\ pathname (set_pathname base p) = subpath_text p
  /\ search (set_pathname base p) = search base
  /\ (forall body w,
        io_of (sd_ping (mkRequest (Some base) body)) w =
        [Called (mkCall GET (set_pathname base sdapi_v1_options))])
  /\ (forall body w,
        io_of (sd_samplers (mkRequest (Some base) body)) w =
        [Called (mkCall GET (set_pathname base sdapi_v1_samplers))]).
Proof.
  intro Hop.
  assert (E : set_pathname base p =
    mkURL (url_scheme base) (url_username base) (url_password base) (url_host base)
          (url_port base) (subpath_text p) false (url_query base) (url_fragment base)).
  { unfold set_pathname. rewrite Hop. reflexivity. }
  split; [exact E|].
  rewrite E. repeat split.
  - intros body w. apply sd_ping_io.
  - intros body w. apply sd_samplers_io.
Qed.

Lemma outbound_url_replaces_path_only_witness :
  url_opaque_path sample_base_url = false /\
  href (set_pathname sample_base_url sdapi_v1_samplers) =
  js "http://localhost:7860/sdapi/v1/samplers?x=1".
Proof.
  split; [reflexivity|].
  destruct (outbound_url_replaces_path_only sample_base_url sdapi_v1_samplers eq_refl)
    as [E _].
  rewrite E. reflexivity.
Defined.

(** C2 (as stated) fails: for the base URL
    [http://localhost:7860/old/path?x=1] the ping handler calls
    [http://localhost:7860/sdapi/v1/options?x=1]; the query string of the
    base URL is still there. *)
Lemma outbound_url_keeps_query :
  set_pathname sample_base_url sdapi_v1_options
    <> spec_outbound_url sample_base_url sdapi_v1_options
  /\ io_of (sd_ping (mkRequest (Some sample_base_url) (VObj []))) (always (ok_json VNull)) =
     [Called (mkCall GET (set_pathname sample_base_url sdapi_v1_options))]
  /\ href (set_pathname sample_base_url sdapi_v1_options) =
     js "http://localhost:7860/sdapi/v1/options?x=1"
  /\ href (spec_outbound_url sample_base_url sdapi_v1_options) =
     js "http://localhost:7860/sdapi/v1/options".
Proof.
  repeat split; try reflexivity.
  intro H. discriminate H.
Qed.

(** ** Failing backend calls *)

(** The handlers of stable-diffusion.js that test [result.ok] answer a
    failed first call with a bare 500. *)
Lemma checked_handlers_fail_closed (env : Env) (e : Endpoint) (request : Request)
      (r : Response) :
  checks_ok e = true -> ok r = false ->
  outcome_of (handle env e request) (always r) = Ret (sendStatus 500).
Proof.
  intros He Hr.
  destruct request as [[u|] body];
    destruct e; try discriminate He;
    run_handler; unfold always; rewrite ?Hr; reflexivity.
Qed.

(** C1: the get-model handler does not look at the status of the answer.
    When SD WebUI answers [404] with the JSON body [{ detail: 'Not Found' }],
    the handler reads the missing member [sd_model_checkpoint] and sends
    [undefined] with status 200, where the ping handler on the same answer
    sends 500. *)
Theorem sd_get_model_ignores_backend_failure :
  ok not_found = false
  /\ outcome_of (sd_get_model (mkRequest (Some sample_base_url) (VObj []))) (always not_found)
     = Ret (mkReply 200 (Sent VUndef))
  /\ is_2xx 200 = true
  /\ outcome_of (sd_ping (mkRequest (Some sample_base_url) (VObj []))) (always not_found)
     = Ret (sendStatus 500).
Proof. repeat split. Qed.

(** ** Lists relayed from SD WebUI *)

Lemma names_of_upscalers (l : list jsstring) (w : Backend) (st : State) :
  array_map (VArr (List.map upscaler_json l)) (fun x => lift (get x NAME)) w st
  = (Ret (List.map VStr l), st).
Proof.
  cbn [array_map].
  rewrite (mapM_lift _ (fun x => get x NAME)) by reflexivity.
  replace (traverse (fun x => get x NAME) (List.map upscaler_json l))
    with (Ok (A := list value) (List.map VStr l)); [reflexivity|].
  induction l as [|n l IH]; [reflexivity|].
  cbn [List.map traverse]. rewrite <- IH. reflexivity.
Qed.

(** C6: when the regular upscalers start with "None", the upscalers
    handler sends "None", then the latent upscalers in their order, then
    the other regular upscalers in their order.  The SD.Next handler does
    the same with its six built-in latent upscalers. *)
Theorem upscalers_latent_after_none (u : URL) (body : value)
        (regular latent : list jsstring) :
  nth_error regular 0 = Some (js "None") ->
  outcome_of (sd_upscalers (mkRequest (Some u) body)) (upscalers_backend regular latent)
  = Ret (send (VArr (List.map VStr (js "None" :: latent ++ tl regular))))
  /\ outcome_of (sd_next_upscalers (mkRequest (Some u) body))
                (upscalers_backend regular latent)
     = Ret (send (VArr (VStr (js "None") :: vlad_latentUpscalers
                         ++ List.map VStr (tl regular)))).
Proof.
  intro H0. destruct regular as [|none rest]; [discriminate H0|].
  cbn [nth_error] in H0. injection H0 as ->.
  split.
  - run_handler. rewrite names_of_upscalers. run_handler.
    rewrite names_of_upscalers. run_handler.
    unfold splice_insert. cbn [List.map firstn skipn app tl].
    rewrite List.map_app. reflexivity.
  - run_handler. rewrite names_of_upscalers. run_handler. reflexivity.
Qed.

Lemma upscalers_latent_after_none_witness :
  outcome_of (sd_upscalers (mkRequest (Some sample_base_url) (VObj [])))
             (upscalers_backend [js "None"; js "Lanczos"; js "ESRGAN_4x"]
                                [js "Latent"; js "Latent (nearest)"])
  = Ret (send (VArr [VStr (js "None"); VStr (js "Latent"); VStr (js "Latent (nearest)");
                     VStr (js "Lanczos"); VStr (js "ESRGAN_4x")])).
Proof.
  exact (proj1 (upscalers_latent_after_none sample_base_url (VObj [])
                 [js "None"; js "Lanczos"; js "ESRGAN_4x"]
                 [js "Latent"; js "Latent (nearest)"] eq_refl)).
Defined.

Lemma models_of_io (titles : list value) (data : list value) (w : Backend) (st : State) :
  Forall2 (fun x t => get x TITLE = Ok t) data titles ->
  array_map (VArr data) model_option w st
  = (Ret (List.map (fun t => VObj [(VALUE, t); (TEXT, t)]) titles), st).
Proof.
  intro H. cbn [array_map].
  rewrite (mapM_lift _ (fun x => match get x TITLE with
                                 | Ok t => Ok (VObj [(VALUE, t); (TEXT, t)])
                                 | Raise e => Raise e
                                 end)).
  - replace (traverse _ data)
      with (Ok (A := list value) (List.map (fun t => VObj [(VALUE, t); (TEXT, t)]) titles));
      [reflexivity|].
    induction H as [|x t data titles Hx _ IH]; [reflexivity|].
    cbn [List.map traverse]. rewrite Hx, <- IH. reflexivity.
  - intros x w' st'. unfold model_option, bind, lift, ret.
    destruct (get x TITLE); reflexivity.
Qed.

(** C8: for a model list of SD WebUI whose entries have the titles
    [titles], in this order, the models handler sends the list of the
    pairs [{ value: t, text: t }], one per entry, in the same order. *)
Theorem sd_models_value_text_title (u : URL) (body : value) (r : Response)
        (data titles : list value) :
  ok r = true ->
  body_json r = Some (VArr data) ->
  Forall2 (fun x t => get x TITLE = Ok t) data titles ->
  outcome_of (sd_models (mkRequest (Some u) body)) (always r)
  = Ret (send (VArr (List.map (fun t => VObj [(VALUE, t); (TEXT, t)]) titles))).
Proof.
  intros Hok Hjson Ht. run_handler. unfold always. rewrite Hok.
  run_handler. rewrite Hjson. run_handler.
  rewrite (models_of_io titles) by exact Ht. reflexivity.
Qed.

Lemma sd_models_value_text_title_witness :
  outcome_of (sd_models (mkRequest (Some sample_base_url) (VObj [])))
             (always (ok_json (VArr sample_models)))
  = Ret (send (VArr [VObj [(VALUE, VStr (js "v1-5-pruned.ckpt [e1441589a6]"));
                           (TEXT, VStr (js "v1-5-pruned.ckpt [e1441589a6]"))];
                     VObj [(VALUE, VStr (js "anything-v3.safetensors"));
                           (TEXT, VStr (js "anything-v3.safetensors"))]])).
Proof.
  apply (sd_models_value_text_title sample_base_url (VObj [])
           (ok_json (VArr sample_models)) sample_models sample_titles).
  - reflexivity.
  - reflexivity.
  - repeat constructor.
Defined.

(** ** Prompt expansion *)

Lemma get_prompt_present (v : value) : get (VObj [(PROMPT, v)]) PROMPT = Ok v.
Proof. reflexivity. Qed.

Lemma sd_expand_on_prompt (nts : Q -> jsstring) (pipeline : option (jsstring -> Result value))
      (second : bool) (c : N) (s : jsstring) (w : Backend) :
  outcome_of (sd_expand nts pipeline second (expand_request (Some (c :: s)))) w =
  Ret (send (VObj [(PROMPT,
    match pipeline with
    | None => VStr (c :: s)
    | Some pipe =>
        match pipe (expansion_input second (c :: s)) with
        | Raise _ => VStr (c :: s)
        | Ok result =>
            match get_path result [INDEX0; GENERATED_TEXT] with
            | Ok (VStr t) => VStr (safeStr (removePattern t dangerousPatterns))
            | _ => VStr (c :: s)
            end
        end
    end)])).
Proof.
  unfold expand_request, outcome_of, run, sd_expand.
  cbn [req_body]. unfold bind at 1. rewrite get_prompt_present.
  cbn [lift truthy negb].
  unfold bind at 1. unfold console at 1. cbv zeta.
  unfold bind at 1. unfold safeStr_of. cbn [ToString lift].
  progress fold (expansion_input second (c :: s)).
  destruct pipeline as [pipe|]; [|reflexivity].
  run_handler.
  destruct (pipe (expansion_input second (c :: s))) as [result|e]; [|reflexivity].
  cbn [lift get_path].
  destruct (get result INDEX0) as [first|e]; [|reflexivity].
  cbn [lift].
  destruct (get first GENERATED_TEXT) as [[| | | |t| |]|e]; reflexivity.
Qed.

Lemma sd_expand_on_value (nts : Q -> jsstring)
      (pipeline : option (jsstring -> Result value)) (second : bool)
      (request : Request) (prompt : value) (s : jsstring) (w : Backend) :
  get (req_body request) PROMPT = Ok prompt ->
  truthy prompt = true ->
  ToString nts prompt = Ok s ->
  outcome_of (sd_expand nts pipeline second request) w =
  Ret (send (VObj [(PROMPT,
    match pipeline with
    | None => prompt
    | Some pipe =>
        match pipe (expansion_input second s) with
        | Raise _ => prompt
        | Ok result =>
            match get_path result [INDEX0; GENERATED_TEXT] with
            | Ok (VStr t) => VStr (safeStr (removePattern t dangerousPatterns))
            | _ => prompt
            end
        end
    end)])).
Proof.
  intros Hget Htruthy Hstr.
  unfold outcome_of, run, sd_expand.
  unfold bind at 1. rewrite Hget. cbn [lift]. rewrite Htruthy. cbn [negb].
  unfold bind at 1. unfold console at 1. cbv zeta.
  unfold bind at 1. unfold safeStr_of. rewrite Hstr. cbn [lift].
  progress fold (expansion_input second s).
  destruct pipeline as [pipe|]; [|reflexivity].
  run_handler.
  destruct (pipe (expansion_input second s)) as [result|e]; [|reflexivity].
  cbn [lift get_path].
  destruct (get result INDEX0) as [first|e]; [|reflexivity].
  cbn [lift].
  destruct (get first GENERATED_TEXT) as [[| | | |t| |]|e]; reflexivity.
Qed.

(** C9 (amended): on a request whose prompt can be read and, when it is
    truthy, converted to a string ([String(prompt)] does not throw), the
    prompt expansion handler never surfaces a failure.  It answers 200 with
    a prompt: the empty prompt when the request has none (or a falsy one);
    the original prompt, unchanged, when the pipeline cannot be loaded or
    the generation throws; and the sanitized generated text when the
    generation succeeds. *)
Theorem sd_expand_never_fails (nts : Q -> jsstring)
        (pipeline : option (jsstring -> Result value)) (second : bool)
        (request : Request) (prompt : value) (w : Backend) :
  get (req_body request) PROMPT = Ok prompt ->
  (truthy prompt = true -> exists s, ToString nts prompt = Ok s) ->
  (exists v, outcome_of (sd_expand nts pipeline second request) w
             = Ret (mkReply 200 (Sent (VObj [(PROMPT, v)]))))
  /\ (truthy prompt = false ->
      outcome_of (sd_expand nts pipeline second request) w
      = Ret (send (VObj [(PROMPT, VStr [])])))
  /\ (truthy prompt = true -> pipeline = None ->
      outcome_of (sd_expand nts pipeline second request) w
      = Ret (send (VObj [(PROMPT, prompt)])))
  /\ (forall s pipe e, truthy prompt = true -> ToString nts prompt = Ok s ->
      pipeline = Some pipe ->
      pipe (expansion_input second s) = Raise e ->
      outcome_of (sd_expand nts pipeline second request) w
      = Ret (send (VObj [(PROMPT, prompt)])))
  /\ (forall s pipe result t, truthy prompt = true -> ToString nts prompt = Ok s ->
      pipeline = Some pipe ->
      pipe (expansion_input second s) = Ok result ->
      get_path result [INDEX0; GENERATED_TEXT] = Ok (VStr t) ->
      outcome_of (sd_expand nts pipeline second request) w
      = Ret (send (VObj [(PROMPT, VStr (safeStr (removePattern t dangerousPatterns)))]))).
Proof.
  intros Hget Hconv.
  assert (Hempty : truthy prompt = false ->
            outcome_of (sd_expand nts pipeline second request) w
            = Ret (send (VObj [(PROMPT, VStr [])]))).
  { intro Hf. unfold outcome_of, run, sd_expand.
    unfold bind at 1. rewrite Hget. cbn [lift]. rewrite Hf. reflexivity. }
  split; [|split; [exact Hempty|]].
  - destruct (truthy prompt) eqn:Et.
    + destruct (Hconv eq_refl) as [s Hs].
      rewrite (sd_expand_on_value nts pipeline second request prompt s w Hget Et Hs).
      eexists. reflexivity.
    + exists (VStr []). apply Hempty. reflexivity.
  - repeat split.
    + intros Ht ->. destruct (Hconv Ht) as [s Hs].
      rewrite (sd_expand_on_value nts None second request prompt s w Hget Ht Hs).
      reflexivity.
    + intros s pipe e Ht Hs -> Hp.
      rewrite (sd_expand_on_value nts (Some pipe) second request prompt s w Hget Ht Hs), Hp.
      reflexivity.
    + intros s pipe result t Ht Hs -> Hp Hr.
      rewrite (sd_expand_on_value nts (Some pipe) second request prompt s w Hget Ht Hs),
        Hp, Hr.
      reflexivity.
Qed.

Lemma sd_expand_never_fails_witness :
  outcome_of (sd_expand (fun _ => []) (Some sample_pipe) false
                (expand_request (Some (js " a cat "))))
             (always not_found)
  = Ret (send (VObj [(PROMPT, VStr (js "a cat, extremely detailed masterpiece, sharp1.2"))]))
  /\ outcome_of (sd_expand (fun _ => []) None false
                   (mkRequest None (VObj [(PROMPT, VArr [VNum 1; VNull])])))
                (always not_found)
     = Ret (send (VObj [(PROMPT, VArr [VNum 1; VNull])])).
Proof.
  split.
  - destruct (sd_expand_never_fails (fun _ => []) (Some sample_pipe) false
                (expand_request (Some (js " a cat "))) (VStr (js " a cat "))
                (always not_found) eq_refl
                (fun _ => ex_intro _ (js " a cat ") eq_refl))
      as [_ [_ [_ [_ Hok]]]].
    rewrite (Hok (js " a cat ") sample_pipe
               (VArr [VObj [(GENERATED_TEXT,
                             VStr (expansion_input false (js " a cat ")
                                   ++ js " detailed [masterpiece], (sharp:1.2).  "))]])
               (expansion_input false (js " a cat ")
                ++ js " detailed [masterpiece], (sharp:1.2).  ")
               eq_refl eq_refl eq_refl eq_refl eq_refl).
    vm_compute. reflexivity.
  - destruct (sd_expand_never_fails (fun _ => []) None false
                (mkRequest None (VObj [(PROMPT, VArr [VNum 1; VNull])]))
                (VArr [VNum 1; VNull]) (always not_found) eq_refl
                (fun _ => ex_intro _ (js ",") eq_refl))
      as [_ [_ [Hnone _]]].
    exact (Hnone eq_refl eq_refl).
Defined.

Example sd_expand_generated :
  outcome_of (sd_expand (fun _ => []) (Some sample_pipe) false
                (expand_request (Some (js " a cat "))))
             (always not_found)
  = Ret (send (VObj [(PROMPT, VStr (js "a cat, extremely detailed masterpiece, sharp1.2"))])).
Proof. vm_compute. reflexivity. Qed.

Example sd_expand_pipeline_throws :
  outcome_of (sd_expand (fun _ => []) (Some (fun _ => Raise TypeError)) true
                (expand_request (Some (js " a cat "))))
             (always not_found)
  = Ret (send (VObj [(PROMPT, VStr (js " a cat "))])).
Proof. vm_compute. reflexivity. Qed.

(** C9 (as stated) fails: the handler can surface a failure.  A prompt
    that is an object with a member [toString] cannot be converted by
    [String(x)] in [safeStr], which is called before the [try] block; the
    handler throws a type error and sends no reply, whatever the
    pipeline. *)
Lemma sd_expand_unconvertible_prompt :
  let request := mkRequest None (VObj [(PROMPT, VObj [(TOSTRING, VNum 1)])]) in
  outcome_of (sd_expand (fun _ => []) None false request) (always not_found)
  = Throw TypeError
  /\ (forall pipeline second w,
        outcome_of (sd_expand (fun _ => []) pipeline second request) w = Throw TypeError)
  /\ ~ (exists reply,
          outcome_of (sd_expand (fun _ => []) None false request) (always not_found)
          = Ret reply).
Proof.
  intro request.
  assert (H : forall pipeline second w,
            outcome_of (sd_expand (fun _ => []) pipeline second request) w
            = Throw TypeError).
  { intros pipeline second w. reflexivity. }
  split; [apply H|]. split; [exact H|].
  intros [reply Hreply]. rewrite H in Hreply. discriminate Hreply.
Qed.

(** ** Waiting for the model switch *)

Lemma get_progress (p j : Q) : get (progress_json p j) PROGRESS = Ok (VNum p).
Proof. reflexivity. Qed.

Lemma get_state (p j : Q) : get (progress_json p j) STATE = Ok (progress_state_json j).
Proof. reflexivity. Qed.

Lemma get_job_count (j : Q) : get (progress_state_json j) JOB_COUNT = Ok (VNum j).
Proof. reflexivity. Qed.

Lemma wait_for_model_step (nts : Q -> jsstring) (stn : jsstring -> option Q)
      (u : URL) (body : value) (reports : nat -> Q * Q) (n i : nat) (st : State) :
  st_calls st = S i ->
  wait_for_model nts stn (mkRequest (Some u) body) (S n) (set_model_backend reports) st
  = let called := st_io st ++ [Called (mkCall GET (set_pathname u sdapi_v1_progress))] in
    if is_idle (reports i)
    then (Ret tt, mkState (S (S i)) called (st_console st))
    else wait_for_model nts stn (mkRequest (Some u) body) n (set_model_backend reports)
           (mkState (S (S i)) (called ++ [Waited CHECK_INTERVAL])
              (st_console st ++
               [[LText (js "Waiting for SD WebUI to finish model loading... Progress: "
                        ++ nts (fst (reports i)) ++ js "; Job count: "
                        ++ nts (snd (reports i)))]])).
Proof.
  intro Hc. cbn [wait_for_model].
  unfold getProgress, fetch, fetch_start, new_URL, await, json, bind, ret, throw.
  cbn beta iota. cbn [req_url st_calls st_io st_console]. rewrite Hc.
  cbn [set_model_backend json ok_json body_json].
  unfold ret. rewrite get_progress. cbn [lift].
  rewrite get_state. cbn [lift]. rewrite get_job_count. cbn [lift].
  cbn [loosely_equals_zero strictly_equals_zero lift].
  unfold is_idle.
  destruct (Qeq_bool (fst (reports i)) 0 && Qeq_bool (snd (reports i)) 0);
    [reflexivity|].
  cbn [ToString lift]. unfold console, delay. cbn [st_calls st_io st_console].
  reflexivity.
Qed.

Lemma wait_for_model_io (nts : Q -> jsstring) (stn : jsstring -> option Q)
      (u : URL) (body : value) (reports : nat -> Q * Q) (n : nat) :
  forall i st, st_calls st = S i ->
    let r := wait_for_model nts stn (mkRequest (Some u) body) n
               (set_model_backend reports) st in
    let k := busy_reports reports i n in
    let progressUrl := set_pathname u sdapi_v1_progress in
    fst r = Ret tt
    /\ st_io (snd r) =
       st_io st ++ busy_rounds progressUrl k
       ++ (if k <? n then [Called (mkCall GET progressUrl)] else []).
Proof.
  induction n as [|n IH]; intros i st Hc.
  - cbn. rewrite app_nil_r. split; reflexivity.
  - cbv zeta. rewrite (wait_for_model_step nts stn u body reports n i st Hc).
    cbn [busy_reports]. cbv zeta.
    destruct (is_idle (reports i)).
    + cbn [fst snd st_io busy_rounds app]. split; reflexivity.
    + match goal with
      | |- context [wait_for_model _ _ _ n _ ?st2] =>
          destruct (IH (S i) st2 eq_refl) as [IH1 IH2]
      end.
      split; [exact IH1|].
      rewrite IH2. cbn [st_io busy_rounds].
      change (S (busy_reports reports (S i) n) <? S n)
        with (busy_reports reports (S i) n <? n).
      rewrite <- !app_assoc. reflexivity.
Qed.

Lemma busy_reports_le (reports : nat -> Q * Q) (n : nat) :
  forall i, busy_reports reports i n <= n.
Proof.
  induction n as [|n IH]; intro i; cbn [busy_reports]; [lia|].
  destruct (is_idle (reports i)); [lia|]. specialize (IH (S i)). lia.
Qed.

Lemma busy_reports_first_idle (reports : nat -> Q * Q) (n : nat) :
  forall i0 i, i < n -> is_idle (reports (i0 + i)) = true ->
    (forall j, j < i -> is_idle (reports (i0 + j)) = false) ->
    busy_reports reports i0 n = i.
Proof.
  induction n as [|n IH]; intros i0 i Hi Hidle Hbusy; [lia|].
  cbn [busy_reports]. destruct i as [|i].
  - rewrite Nat.add_0_r in Hidle. rewrite Hidle. reflexivity.
  - pose proof (Hbusy 0 ltac:(lia)) as H0. rewrite Nat.add_0_r in H0. rewrite H0.
    f_equal. apply IH.
    + lia.
    + rewrite <- Hidle. f_equal. f_equal. lia.
    + intros j Hj. rewrite <- (Hbusy (S j)) by lia. f_equal. f_equal. lia.
Qed.

Lemma busy_reports_all_busy (reports : nat -> Q * Q) (n : nat) :
  forall i0, (forall i, i < n -> is_idle (reports (i0 + i)) = false) ->
    busy_reports reports i0 n = n.
Proof.
  induction n as [|n IH]; intros i0 Hbusy; [reflexivity|].
  cbn [busy_reports].
  pose proof (Hbusy 0 ltac:(lia)) as H0. rewrite Nat.add_0_r in H0. rewrite H0.
  f_equal. apply IH. intros i Hi.
  rewrite <- (Hbusy (S i)) by lia. f_equal. f_equal. lia.
Qed.

Lemma count_calls_app (a b : list IO) :
  count_calls (a ++ b) = count_calls a + count_calls b.
Proof. unfold count_calls. rewrite filter_app, length_app. reflexivity. Qed.

Lemma count_calls_cons (c : Call) (l : list IO) :
  count_calls (Called c :: l) = S (count_calls l).
Proof. reflexivity. Qed.

Lemma count_calls_busy_rounds (pu : URL) (k : nat) :
  count_calls (busy_rounds pu k) = k.
Proof.
  induction k as [|k IH]; [reflexivity|].
  cbn [busy_rounds]. unfold count_calls in *. cbn [filter List.length]. lia.
Qed.

Lemma waits_busy_rounds (pu : URL) (k : nat) :
  waits (busy_rounds pu k) = repeat CHECK_INTERVAL k.
Proof.
  induction k as [|k IH]; [reflexivity|].
  cbn [busy_rounds repeat]. unfold waits in *. cbn [flat_map app]. rewrite IH.
  reflexivity.
Qed.

(** C10: after a successful model-switch POST the set-model handler polls
    the progress endpoint while the reports are not idle, ten times at
    most, waits 2000 after every report that is not idle, stops at the
    first idle report, and answers 200 whether or not an idle report has
    come within the ten attempts.  Here [k] is the number of reports
    before the first idle one among the first ten. *)
Theorem sd_set_model_bounded_wait (nts : Q -> jsstring) (stn : jsstring -> option Q)
        (u : URL) (body : value) (reports : nat -> Q * Q) :
  let k := busy_reports reports 0 MAX_ATTEMPTS in
  let progressUrl := set_pathname u sdapi_v1_progress in
  let h := sd_set_model nts stn (mkRequest (Some u) body) in
  outcome_of h (set_model_backend reports) = Ret (sendStatus 200)
  /\ io_of h (set_model_backend reports) =
     Called (mkCall POST (set_pathname u sdapi_v1_options))
     :: busy_rounds progressUrl k
     ++ (if k <? MAX_ATTEMPTS then [Called (mkCall GET progressUrl)] else [])
  /\ k <= 10
  /\ count_calls (io_of h (set_model_backend reports)) <= 11
  /\ waits (io_of h (set_model_backend reports)) = repeat 2000%N k
  /\ (forall i, i < 10 -> is_idle (reports i) = true ->
      (forall j, j < i -> is_idle (reports j) = false) -> k = i)
  /\ ((forall i, i < 10 -> is_idle (reports i) = false) -> k = 10).
Proof.
  intros k progressUrl h.
  pose proof (wait_for_model_io nts stn u body reports MAX_ATTEMPTS 0
                (mkState 1 [Called (mkCall POST (set_pathname u sdapi_v1_options))] [])
                eq_refl) as Hw.
  cbv zeta in Hw. fold k progressUrl in Hw. destruct Hw as [Hret Hio].
  cbn [st_io app] in Hio.
  assert (Hrun : run h (set_model_backend reports)
                 = (Ret (sendStatus 200),
                    snd (wait_for_model nts stn (mkRequest (Some u) body) MAX_ATTEMPTS
                           (set_model_backend reports)
                           (mkState 1 [Called (mkCall POST (set_pathname u sdapi_v1_options))] [])))).
  { unfold h, run, sd_set_model, try_catch, fetch, fetch_start, new_URL, await, bind, ret, throw.
    cbn [req_url initial_state st_calls st_io st_console app set_model_backend
         ok ok_json status negb andb N.leb N.ltb N.compare Pos.compare Pos.compare_cont].
    destruct (wait_for_model _ _ _ _ _ _) as [[[]|e|] st'] eqn:E;
      cbn [fst snd] in *; try discriminate Hret; reflexivity. }
  assert (Hk : k <= 10) by apply busy_reports_le.
  assert (Hio' : io_of h (set_model_backend reports) =
     Called (mkCall POST (set_pathname u sdapi_v1_options))
     :: busy_rounds progressUrl k
     ++ (if k <? MAX_ATTEMPTS then [Called (mkCall GET progressUrl)] else [])).
  { unfold io_of. rewrite Hrun. cbn [snd]. exact Hio. }
  split; [unfold outcome_of; rewrite Hrun; reflexivity|].
  split; [exact Hio'|]. split; [exact Hk|].
  split; [|split; [|split]].
  - rewrite Hio', count_calls_cons, count_calls_app, count_calls_busy_rounds.
    destruct (k <? MAX_ATTEMPTS) eqn:Ek;
      [apply Nat.ltb_lt in Ek; unfold MAX_ATTEMPTS in Ek|];
      unfold count_calls; cbn [filter List.length]; lia.
  - rewrite Hio'. unfold waits. cbn [flat_map app]. rewrite flat_map_app.
    fold (waits (busy_rounds progressUrl k)). rewrite waits_busy_rounds.
    destruct (k <? MAX_ATTEMPTS); cbn [flat_map]; rewrite app_nil_r; reflexivity.
  - intros i Hi Hidle Hbusy.
    apply (busy_reports_first_idle reports MAX_ATTEMPTS 0 i); auto.
  - intro Hbusy. apply (busy_reports_all_busy reports MAX_ATTEMPTS 0). exact Hbusy.
Qed.

(** ** The polling generation flow *)

Lemma assoc_history_json (id : jsstring) (h : History) :
  assoc id (List.map (fun je => (fst je, job_json (snd je))) h)
  = option_map job_json (job_of id h).
Proof.
  induction h as [|[k o] t IH]; [reflexivity|].
  cbn [List.map assoc job_of fst snd].
  destruct (jsstring_eqb k id); [reflexivity|exact IH].
Qed.

Lemma has_job_job_of (id : jsstring) (h : History) :
  has_job id h = match job_of id h with Some _ => true | None => false end.
Proof.
  unfold has_job. induction h as [|[k o] t IH]; [reflexivity|].
  cbn [existsb job_of fst].
  destruct (jsstring_eqb k id); [reflexivity|exact IH].
Qed.

Lemma member_object (ms : list (jsstring * value)) (k : jsstring) :
  member (VObj ms) k = Ok (object_member ms k).
Proof.
  unfold member, object_member, inherited, inherits.
  destruct (assoc k ms); reflexivity.
Qed.

Lemma present_object_member (ms : list (jsstring * value)) (k : jsstring) :
  truthy_member (object_member ms k) = present k ms.
Proof.
  unfold object_member, present.
  destruct (assoc k ms); [reflexivity|].
  destruct (object_inherits k); reflexivity.
Qed.

Lemma has_key_assoc (id : jsstring) (ms : list (jsstring * value)) :
  has_key id ms = match assoc id ms with Some _ => true | None => false end.
Proof.
  unfold has_key. induction ms as [|[k v] t IH]; [reflexivity|].
  cbn [existsb assoc fst].
  destruct (jsstring_eqb k id); [reflexivity|exact IH].
Qed.

Lemma assoc_in (id : jsstring) (ms : list (jsstring * value)) (v : value) :
  assoc id ms = Some v -> In (id, v) ms.
Proof.
  induction ms as [|[k x] t IH]; [discriminate|].
  cbn [assoc]. unfold jsstring_eqb.
  destruct (list_eq_dec N.eq_dec k id) as [->|_].
  - intro E. injection E as ->. left. reflexivity.
  - intro E. right. exact (IH E).
Qed.

(** On a mapping from job ids to job records, which are objects, and for
    an id that names no member of [Object.prototype], the test of the
    loop is the presence of the key. *)
Lemma present_is_has_key (id : jsstring) (ms : list (jsstring * value)) :
  object_inherits id = false ->
  (forall k v, In (k, v) ms -> truthy v = true) ->
  present id ms = has_key id ms.
Proof.
  intros Hid Hms. rewrite has_key_assoc. unfold present.
  destruct (assoc id ms) as [v|] eqn:E; [|exact Hid].
  exact (Hms id v (assoc_in id ms v E)).
Qed.

Lemma present_history_json (id : jsstring) (h : History) :
  object_inherits id = false ->
  present id (List.map (fun je => (fst je, job_json (snd je))) h) = has_job id h.
Proof.
  intro Hid. unfold present.
  rewrite assoc_history_json, has_job_job_of, Hid.
  destruct (job_of id h); reflexivity.
Qed.

Lemma object_member_history_json (id : jsstring) (h : History) (o : JobOutputs) :
  job_of id h = Some o ->
  object_member (List.map (fun je => (fst je, job_json (snd je))) h) id
  = Data (job_json o).
Proof.
  intro Hjob. unfold object_member. rewrite assoc_history_json, Hjob. reflexivity.
Qed.

Section Polling.

Variable nts : Q -> jsstring.
Variable u : URL.
Variable body : value.
Variable w : Backend.

Let request := mkRequest (Some u) body.
Let historyUrl := set_pathname u comfy_history.
Let submit := Called (mkCall POST (set_pathname u comfy_prompt)).

(** One turn of the loop on a 2xx answer that holds an object. *)
Lemma poll_history_turn (idv : value) (key : jsstring) (ms : list (jsstring * value))
      (fuel : nat) (st : State) (r : Response) :
  ToString nts idv = Ok key ->
  w (st_calls st) (mkCall GET historyUrl) = Answered r ->
  ok r = true ->
  body_json r = Some (VObj ms) ->
  poll_history nts (S fuel) historyUrl idv w st
  = let called := st_io st ++ [Called (mkCall GET historyUrl)] in
    if present key ms
    then (Ret (object_member ms key),
          mkState (S (st_calls st)) called (st_console st))
    else poll_history nts fuel historyUrl idv w
           (mkState (S (st_calls st)) (called ++ [Waited POLL_INTERVAL]) (st_console st)).
Proof.
  intros Hkey Hw Hok Hjson. cbn [poll_history].
  unfold fetch, fetch_start, await, json, bind, ret, throw.
  cbn beta iota. rewrite Hw, Hok, Hjson. cbn [negb].
  cbn [get_computed]. rewrite Hkey, member_object. cbn [lift].
  rewrite present_object_member.
  destruct (present key ms); [reflexivity|].
  unfold delay. reflexivity.
Qed.

(** One turn of the loop on a failed call. *)
Lemma poll_history_turn_failed (idv : value) (fuel : nat) (st : State) :
  failed (w (st_calls st) (mkCall GET historyUrl)) = true ->
  exists e,
    poll_history nts (S fuel) historyUrl idv w st
    = (Throw e, mkState (S (st_calls st)) (st_io st ++ [Called (mkCall GET historyUrl)])
                  (st_console st)).
Proof.
  intro Hf. cbn [poll_history].
  unfold fetch, fetch_start, await, json, bind, ret, throw. cbn beta iota.
  destruct (w (st_calls st) _) as [|r]; cbn [failed] in Hf.
  - eexists; reflexivity.
  - rewrite Hf. eexists; reflexivity.
Qed.

(** Turns on snapshots in which the test of the loop fails. *)
Lemma poll_history_turns (idv : value) (key : jsstring) (n : nat) :
  ToString nts idv = Ok key ->
  forall (snapshots : nat -> list (jsstring * value)) fuel st,
    (forall j, j < n ->
       w (st_calls st + j) (mkCall GET historyUrl)
       = Answered (ok_json (VObj (snapshots j)))
       /\ present key (snapshots j) = false) ->
    poll_history nts (n + fuel) historyUrl idv w st
    = poll_history nts fuel historyUrl idv w
        (mkState (st_calls st + n) (st_io st ++ absent_rounds historyUrl n)
           (st_console st)).
Proof.
  intro Hkey. induction n as [|n IH]; intros snapshots fuel st Hsnap.
  - cbn [Nat.add absent_rounds]. rewrite Nat.add_0_r, app_nil_r.
    destruct st; reflexivity.
  - cbn [Nat.add].
    destruct (Hsnap 0 ltac:(lia)) as [Hw0 Habs0]. rewrite Nat.add_0_r in Hw0.
    rewrite (poll_history_turn idv key (snapshots 0) (n + fuel) st _ Hkey
               Hw0 eq_refl eq_refl).
    cbv zeta. rewrite Habs0.
    rewrite (IH (fun j => snapshots (S j))).
    + cbn [st_calls st_io st_console absent_rounds].
      rewrite <- !app_assoc. cbn [app]. f_equal. f_equal. lia.
    + intros j Hj. cbn [st_calls].
      destruct (Hsnap (S j) ltac:(lia)) as [Hwj Habsj].
      split; [|exact Habsj]. rewrite <- Hwj. f_equal. lia.
Qed.

(** The statements after the loop issue one call at most, wait for
    nothing and come to an end. *)
Lemma fetch_first_image_io (item : Member) (st : State) :
  one_call_at_most st (fetch_first_image nts request item w st).
Proof.
  assert (Hnone : forall (o : Outcome Reply), o <> Fuel -> one_call_at_most st (o, st)).
  { intros o Ho. exists []. rewrite app_nil_r. repeat split; auto. }
  unfold fetch_first_image.
  unfold bind at 1. destruct (outputs_of item) as [outputs|e]; cbn [lift];
    [|apply Hnone; discriminate].
  unfold bind at 1. destruct (Object_keys outputs) as [keys|e]; cbn [lift];
    [|apply Hnone; discriminate].
  unfold bind at 1.
  rewrite (mapM_lift _ (fun it => get_path outputs [it; IMAGES])) by reflexivity.
  destruct (traverse _ keys) as [images|e]; cbn [lift];
    [|apply Hnone; discriminate].
  unfold bind at 1. destruct (get (VArr (flat images)) INDEX0) as [imgInfo|e];
    cbn [lift]; [|apply Hnone; discriminate].
  unfold bind at 1. cbn [new_URL request req_url ret].
  unfold bind at 1. destruct (get imgInfo FILENAME) as [v1|e]; cbn [lift];
    [|apply Hnone; discriminate].
  unfold bind at 1. destruct (ToString nts v1) as [filename|e]; cbn [lift];
    [|apply Hnone; discriminate].
  unfold bind at 1. destruct (get imgInfo SUBFOLDER) as [v2|e]; cbn [lift];
    [|apply Hnone; discriminate].
  unfold bind at 1. destruct (ToString nts v2) as [subfolder|e]; cbn [lift];
    [|apply Hnone; discriminate].
  unfold bind at 1. destruct (get imgInfo TYPE) as [v3|e]; cbn [lift];
    [|apply Hnone; discriminate].
  unfold bind at 1. destruct (ToString nts v3) as [type|e]; cbn [lift];
    [|apply Hnone; discriminate].
  cbv zeta. unfold fetch, fetch_start, await, bind, ret, throw. cbn beta iota.
  match goal with
  | |- context [Called ?c] => exists [Called c]
  end.
  destruct (w _ _) as [|r]; [|destruct (negb (ok r))];
    (split; [reflexivity|split; [right; eexists; reflexivity | discriminate]]).
Qed.

(** The handler around the loop, on a submission answered 2xx with JSON. *)
Lemma comfy_generate_run_on (fuel : nat) (r : Response) (data idv : value) :
  w 0 (mkCall POST (set_pathname u comfy_prompt)) = Answered r ->
  ok r = true ->
  body_json r = Some data ->
  get data PROMPT_ID = Ok idv ->
  run (comfy_generate nts fuel request) w
  = match poll_history nts fuel historyUrl idv w (mkState 1 [submit] []) with
    | (Ret item, st) =>
        match fetch_first_image nts request item w st with
        | (Ret reply, st') => (Ret reply, st')
        | (Throw _, st') => (Ret (sendStatus 500), st')
        | (Fuel, st') => (Fuel, st')
        end
    | (Throw _, st) => (Ret (sendStatus 500), st)
    | (Fuel, st) => (Fuel, st)
    end.
Proof.
  intros Hw Hok Hjson Hid.
  unfold run, comfy_generate, try_catch, fetch, fetch_start, await, json, new_URL,
    bind, ret, throw.
  cbn beta iota. cbn [request req_url initial_state st_calls st_io st_console app].
  rewrite Hw, Hok, Hjson. cbn [negb]. rewrite Hid. cbn [lift].
  fold historyUrl. fold submit.
  destruct (poll_history nts fuel historyUrl idv w _) as [[item|e|] st]; reflexivity.
Qed.

End Polling.

Section HistoryBackend.

Variable nts : Q -> jsstring.
Variable u : URL.
Variable body : value.
Variable id : jsstring.
Variable snapshots : nat -> list (jsstring * value).

Let request := mkRequest (Some u) body.
Let w := history_backend id snapshots.
Let historyUrl := set_pathname u comfy_history.
Let submit := Called (mkCall POST (set_pathname u comfy_prompt)).

Lemma comfy_generate_run (fuel : nat) :
  run (comfy_generate nts fuel request) w
  = match poll_history nts fuel historyUrl (VStr id) w (mkState 1 [submit] []) with
    | (Ret item, st) =>
        match fetch_first_image nts request item w st with
        | (Ret reply, st') => (Ret reply, st')
        | (Throw _, st') => (Ret (sendStatus 500), st')
        | (Fuel, st') => (Fuel, st')
        end
    | (Throw _, st) => (Ret (sendStatus 500), st)
    | (Fuel, st) => (Fuel, st)
    end.
Proof.
  apply (comfy_generate_run_on nts u body w fuel
           (ok_json (VObj [(PROMPT_ID, VStr id)])) (VObj [(PROMPT_ID, VStr id)]) (VStr id));
    reflexivity.
Qed.

Lemma poll_history_absent (n fuel : nat) :
  (forall j, j < n -> present id (snapshots j) = false) ->
  poll_history nts (n + fuel) historyUrl (VStr id) w (mkState 1 [submit] [])
  = poll_history nts fuel historyUrl (VStr id) w
      (mkState (1 + n) (submit :: absent_rounds historyUrl n) []).
Proof.
  intro Habs.
  rewrite (poll_history_turns nts u w (VStr id) id n eq_refl snapshots).
  - reflexivity.
  - intros j Hj. split; [reflexivity|exact (Habs j Hj)].
Qed.

(** As long as the test of the loop fails on the first [fuel] snapshots,
    [fuel] turns of the loop do not end it. *)
Lemma comfy_generate_still_polling (fuel : nat) :
  (forall j, j < fuel -> present id (snapshots j) = false) ->
  fst (run (comfy_generate nts fuel request) w) = Fuel
  /\ st_io (snd (run (comfy_generate nts fuel request) w))
     = submit :: absent_rounds historyUrl fuel.
Proof.
  intro Habs. rewrite comfy_generate_run.
  rewrite <- (Nat.add_0_r fuel) at 1 2.
  rewrite (poll_history_absent fuel 0 Habs).
  cbn [poll_history out_of_fuel fst snd st_io]. split; reflexivity.
Qed.

(** When the test of the loop first succeeds on snapshot [n], the loop
    ends with poll [n + 1], after [n] waits. *)
Lemma comfy_generate_found (n fuel : nat) :
  present id (snapshots n) = true ->
  (forall j, j < n -> present id (snapshots j) = false) ->
  n < fuel ->
  finishes (run (comfy_generate nts fuel request) w)
  /\ exists rest,
       st_io (snd (run (comfy_generate nts fuel request) w))
       = submit :: absent_rounds historyUrl n ++ Called (mkCall GET historyUrl) :: rest
       /\ (rest = [] \/ exists c, rest = [Called c]).
Proof.
  intros Hn Habs Hfuel.
  replace fuel with (n + S (fuel - S n)) by lia.
  rewrite comfy_generate_run.
  rewrite (poll_history_absent n (S (fuel - S n)) Habs).
  unfold historyUrl at 1 3.
  rewrite (poll_history_turn nts u w (VStr id) id (snapshots n) (fuel - S n)
             (mkState (1 + n) (submit :: absent_rounds historyUrl n) [])
             (ok_json (VObj (snapshots n))) eq_refl eq_refl eq_refl eq_refl).
  cbv zeta. rewrite Hn. fold historyUrl.
  match goal with
  | |- context [fetch_first_image nts request ?item w ?st] =>
      assert (Hone : one_call_at_most st (fetch_first_image nts request item w st))
        by apply fetch_first_image_io;
      destruct Hone as [rest [Hio [Hrest Hfin]]];
      destruct (fetch_first_image nts request item w st) as [[reply|e|] st']
  end; cbn [fst snd st_io] in *; unfold finishes in *; cbn [fst] in *.
  - split; [discriminate|]. exists rest. split; [|exact Hrest].
    rewrite Hio. cbn [app]. rewrite <- !app_assoc. reflexivity.
  - split; [discriminate|]. exists rest. split; [|exact Hrest].
    rewrite Hio. cbn [app]. rewrite <- !app_assoc. reflexivity.
  - contradiction.
Qed.

(** The first snapshot on which the test of the loop succeeds. *)
Lemma first_present (n : nat) :
  present id (snapshots n) = true ->
  exists n0, n0 <= n /\ present id (snapshots n0) = true
             /\ forall j, j < n0 -> present id (snapshots j) = false.
Proof.
  induction n as [n IH] using lt_wf_ind. intro Hn.
  destruct (existsb (fun j => present id (snapshots j)) (seq 0 n)) eqn:E.
  - apply existsb_exists in E.
    destruct E as [j [Hin Hj]]. apply in_seq in Hin.
    destruct (IH j ltac:(lia) Hj) as [n0 [Hle H0]].
    exists n0. split; [lia|exact H0].
  - exists n. split; [lia|]. split; [exact Hn|].
    intros j Hj. apply not_true_is_false. intro Hjt.
    assert (Ex : existsb (fun j => present id (snapshots j)) (seq 0 n) = true).
    { apply existsb_exists. exists j. split; [apply in_seq; lia|exact Hjt]. }
    rewrite Ex in E. discriminate E.
Qed.

Lemma comfy_generate_finishes_iff :
  (exists fuel, finishes (run (comfy_generate nts fuel request) w))
  <-> (exists n, present id (snapshots n) = true).
Proof.
  split.
  - intros [fuel Hfin].
    destruct (existsb (fun j => present id (snapshots j)) (seq 0 fuel)) eqn:E.
    + apply existsb_exists in E.
      destruct E as [j [_ Hj]]. exists j. exact Hj.
    + exfalso. apply Hfin.
      apply comfy_generate_still_polling.
      intros j Hj. apply not_true_is_false. intro Hjt.
      assert (Ex : existsb (fun j => present id (snapshots j)) (seq 0 fuel) = true).
      { apply existsb_exists. exists j. split; [apply in_seq; lia|exact Hjt]. }
      rewrite Ex in E. discriminate E.
  - intros [n Hn].
    destruct (first_present n Hn) as [n0 [_ [H0 Habs]]].
    exists (S n0). apply (comfy_generate_found n0 (S n0) H0 Habs). lia.
Qed.

End HistoryBackend.

Lemma jsstring_eqb_refl (s : jsstring) : jsstring_eqb s s = true.
Proof. unfold jsstring_eqb. destruct (list_eq_dec N.eq_dec s s); congruence. Qed.

Lemma waits_absent_rounds (historyUrl : URL) (n : nat) :
  waits (absent_rounds historyUrl n) = repeat POLL_INTERVAL n.
Proof.
  induction n as [|n IH]; [reflexivity|].
  cbn [absent_rounds repeat]. unfold waits in *. cbn [flat_map app]. rewrite IH.
  reflexivity.
Qed.

Lemma search_of_scenario (v : URL) :
  search (set_search v (js "?filename=x.png&subfolder=&type=output"))
  = js "?filename=x.png&subfolder=&type=output".
Proof.
  unfold search, set_search. cbn [url_query].
  set (special := is_special_scheme (url_scheme v)).
  destruct special; reflexivity.
Qed.

(** C4: when the submission is answered with the job id "abc123", the
    first two history polls with an empty mapping and the third with a
    mapping that has "abc123" with the one output image
    [{ filename: 'x.png', subfolder: '', type: 'output' }], the generate
    handler issues the submission, three history GETs with a delay of 100
    after the first and after the second, and then one GET of [/view]
    whose query string is [filename=x.png&subfolder=&type=output]; the
    image comes back as base64 text with status 200. *)
Theorem comfy_generate_scenario (nts : Q -> jsstring) (u : URL) (body : value)
        (img : list N) (spare : nat) :
  let h := comfy_generate nts (3 + spare) (mkRequest (Some u) body) in
  let w := comfy_backend abc123 scenario_snapshots img in
  let historyUrl := set_pathname u comfy_history in
  let imgUrl := set_search (set_pathname u comfy_view)
                  (js "?filename=x.png&subfolder=&type=output") in
  io_of h w =
    [Called (mkCall POST (set_pathname u comfy_prompt));
     Called (mkCall GET historyUrl); Waited 100;
     Called (mkCall GET historyUrl); Waited 100;
     Called (mkCall GET historyUrl);
     Called (mkCall GET imgUrl)]
  /\ search imgUrl = js "?filename=x.png&subfolder=&type=output"
  /\ outcome_of h w = Ret (mkReply 200 (Base64 img))
  /\ history_json (scenario_snapshots 0) = VObj []
  /\ history_json (scenario_snapshots 1) = VObj []
  /\ get_path (history_json (scenario_snapshots 2)) [abc123; OUTPUTS; js "9"; IMAGES]
     = Ok (VArr [VObj [(FILENAME, VStr (js "x.png")); (SUBFOLDER, VStr []);
                       (TYPE, VStr (js "output"))]]).
Proof.
  intros h w historyUrl imgUrl.
  split; [reflexivity|].
  split.
  - apply search_of_scenario.
  - repeat split.
Qed.

(** C5 (amended): the polling loop of the generate handler has no bound of
    its own, and what ends it is that [history[id]] is truthy: the snapshot
    has the job id as a key with a truthy value (as every job record is),
    or it has not got the key and the id names a member that objects
    inherit from [Object.prototype].  For every job id and every sequence
    of history snapshots (objects),
    - the handler comes to an end if and only if [history[id]] is truthy on
      some snapshot;
    - when snapshot [n] is the first such, the loop ends with poll [n + 1],
      having waited 100 after each of the [n] polls before it;
    - when there is none, the loop is still polling after any number of
      turns, with a wait of 100 after every poll;
    - for an id that names no inherited member and every bound there is a
      sequence on which the handler comes to an end, but not within that
      many polls;
    - for such an id and a snapshot whose members are all truthy, the test
      of the loop is whether the snapshot has the id as a key. *)
Theorem comfy_polling_has_no_bound (nts : Q -> jsstring) (u : URL) (body : value)
        (id : jsstring) (snapshots : nat -> list (jsstring * value)) :
  let request := mkRequest (Some u) body in
  let h := fun s fuel => run (comfy_generate nts fuel request) (history_backend id s) in
  let historyUrl := set_pathname u comfy_history in
  let submit := Called (mkCall POST (set_pathname u comfy_prompt)) in
  ((exists fuel, finishes (h snapshots fuel))
   <-> (exists n,
          match assoc id (snapshots n) with
          | Some item => truthy item
          | None => existsb (jsstring_eqb id) OBJECT_PROTOTYPE
          end = true))
  /\ (forall n fuel,
        present id (snapshots n) = true ->
        (forall j, j < n -> present id (snapshots j) = false) ->
        n < fuel ->
        finishes (h snapshots fuel)
        /\ waits (st_io (snd (h snapshots fuel))) = repeat 100%N n
        /\ exists rest,
             st_io (snd (h snapshots fuel))
             = submit :: absent_rounds historyUrl n
                 ++ Called (mkCall GET historyUrl) :: rest
             /\ (rest = [] \/ exists c, rest = [Called c]))
  /\ ((forall n, present id (snapshots n) = false) ->
      forall fuel,
        fst (h snapshots fuel) = Fuel
        /\ st_io (snd (h snapshots fuel)) = submit :: absent_rounds historyUrl fuel)
  /\ (object_inherits id = false ->
      forall bound,
        exists s,
          (exists fuel, finishes (h s fuel))
          /\ forall fuel, fuel <= bound -> ~ finishes (h s fuel))
  /\ (object_inherits id = false ->
      forall ms, (forall k v, In (k, v) ms -> truthy v = true) ->
                 present id ms = has_key id ms).
Proof.
  intros request h historyUrl submit.
  subst request h historyUrl submit. cbv beta.
  split; [apply comfy_generate_finishes_iff|].
  split; [|split; [|split]].
  - intros n fuel Hn Habs Hfuel.
    destruct (comfy_generate_found nts u body id snapshots n fuel Hn Habs Hfuel)
      as [Hfin [rest [Hio Hrest]]].
    split; [exact Hfin|]. split; [|exists rest; split; assumption].
    rewrite Hio. unfold waits. cbn [flat_map app].
    rewrite flat_map_app. fold (waits (absent_rounds (set_pathname u comfy_history) n)).
    rewrite waits_absent_rounds. cbn [flat_map app].
    destruct Hrest as [-> | [c ->]]; cbn [flat_map app]; rewrite app_nil_r; reflexivity.
  - intros Hnever fuel. apply comfy_generate_still_polling. auto.
  - intros Hid bound.
    assert (Hnone : present id [] = false) by exact Hid.
    assert (Hsome : present id [(id, VObj [])] = true).
    { unfold present. cbn [assoc]. rewrite jsstring_eqb_refl. reflexivity. }
    exists (fun n => if n <? bound then [] else [(id, VObj [])]).
    split.
    + apply comfy_generate_finishes_iff. exists bound.
      rewrite Nat.ltb_irrefl. exact Hsome.
    + intros fuel Hfuel Hfin. apply Hfin.
      apply comfy_generate_still_polling.
      intros j Hj. replace (j <? bound) with true; [exact Hnone|].
      symmetry. apply Nat.ltb_lt. lia.
  - intros Hid ms Hms. apply present_is_has_key; assumption.
Qed.

(** C5 (as stated) fails in both directions: the loop does not test
    whether the snapshot has the job id as a key.  On a history that maps
    the job id to [null] every snapshot has the key and the handler polls
    for ever; for the job id "constructor" no snapshot has the key and the
    handler comes to an end with the first poll, answering 500. *)
Lemma polling_does_not_test_the_key :
  let request := mkRequest (Some sample_comfy_url) (VObj []) in
  let with_null := fun _ : nat => [(abc123, VNull)] in
  let empty := fun _ : nat => @nil (jsstring * value) in
  (forall n, has_key abc123 (with_null n) = true)
  /\ (forall fuel,
        outcome_of (comfy_generate (fun _ => []) fuel request)
                   (history_backend abc123 with_null) = Fuel)
  /\ ~ ends_iff_key_appears (fun _ => []) request abc123 with_null
  /\ (forall n, has_key (js "constructor") (empty n) = false)
  /\ run (comfy_generate (fun _ => []) 1 request)
         (history_backend (js "constructor") empty)
     = (Ret (sendStatus 500),
        mkState 2 [Called (mkCall POST (set_pathname sample_comfy_url comfy_prompt));
                   Called (mkCall GET (set_pathname sample_comfy_url comfy_history))] [])
  /\ ~ ends_iff_key_appears (fun _ => []) request (js "constructor") empty.
Proof.
  intros request with_null empty.
  assert (Hnull : forall fuel,
            outcome_of (comfy_generate (fun _ => []) fuel request)
                       (history_backend abc123 with_null) = Fuel).
  { intro fuel.
    apply (comfy_generate_still_polling (fun _ => []) sample_comfy_url (VObj [])
             abc123 with_null fuel).
    intros j _. reflexivity. }
  assert (Hctor : run (comfy_generate (fun _ => []) 1 request)
                      (history_backend (js "constructor") empty)
                  = (Ret (sendStatus 500),
                     mkState 2
                       [Called (mkCall POST (set_pathname sample_comfy_url comfy_prompt));
                        Called (mkCall GET (set_pathname sample_comfy_url comfy_history))]
                       [])).
  { vm_compute. reflexivity. }
  split; [intro n; reflexivity|].
  split; [exact Hnull|].
  split.
  { intros [_ Hback].
    destruct (Hback (ex_intro _ 0 eq_refl)) as [fuel Hfin].
    apply Hfin. apply Hnull. }
  split; [intro n; reflexivity|].
  split; [exact Hctor|].
  intros [Hforth _].
  assert (Hfin : exists fuel,
            finishes (run (comfy_generate (fun _ => []) fuel request)
                          (history_backend (js "constructor") empty))).
  { exists 1. unfold finishes. rewrite Hctor. discriminate. }
  destruct (Hforth Hfin) as [n Hn]. discriminate Hn.
Qed.

(** ** Failing backend calls, on any backend *)

Lemma count_calls_called (c : Call) (io : list IO) :
  count_calls (Called c :: io) = S (count_calls io).
Proof. reflexivity. Qed.

Lemma answers_from_app (w : Backend) (l1 l2 : list IO) :
  forall i,
    answers_from w i (l1 ++ l2)
    = answers_from w i l1 ++ answers_from w (i + count_calls l1) l2.
Proof.
  induction l1 as [|[c|ms] t IH]; intro i; cbn [app answers_from].
  - rewrite Nat.add_0_r. reflexivity.
  - rewrite IH, count_calls_called, Nat.add_succ_r. reflexivity.
  - rewrite IH. reflexivity.
Qed.

Section Checked.

Variable w : Backend.

Lemma qc_here {A : Type} (o : Outcome A) (st : State) : quiet_and_checked w st (o, st).
Proof.
  exists []. cbn [fst snd]. rewrite app_nil_r, Nat.add_0_r. repeat split; reflexivity.
Qed.

Lemma qc_lift {A : Type} (x : Result A) (st : State) :
  quiet_and_checked w st (lift x w st).
Proof. destruct x; apply qc_here. Qed.

Lemma qc_new_URL (parsed : option URL) (st : State) :
  quiet_and_checked w st (new_URL parsed w st).
Proof. destruct parsed; apply qc_here. Qed.

Lemma qc_json (r : Response) (st : State) : quiet_and_checked w st (json r w st).
Proof. unfold json. destruct (body_json r); apply qc_here. Qed.

Lemma qc_bind {A B : Type} (m : M A) (k : A -> M B) (st : State) :
  quiet_and_checked w st (m w st) ->
  (forall a st', quiet_and_checked w st' (k a w st')) ->
  quiet_and_checked w st (bind m k w st).
Proof.
  intros [new [Hio [Hc [Hcon Hok]]]] Hk. unfold bind.
  destruct (m w st) as [[a|e|] st1]; cbn [fst snd] in *.
  - destruct (Hk a st1) as [new2 [Hio2 [Hc2 [Hcon2 Hok2]]]].
    exists (new ++ new2).
    rewrite Hio2, Hio, Hc2, Hc, Hcon2, Hcon, count_calls_app, app_assoc, Nat.add_assoc.
    repeat split. intro Hne.
    rewrite answers_from_app, forallb_app, Hok by discriminate.
    rewrite <- Hc. exact (Hok2 Hne).
  - exists new. repeat split; try assumption.
    intro Hne. exfalso. exact (Hne e eq_refl).
  - exists new. repeat split; try assumption.
    intros _. apply Hok. discriminate.
Qed.

Lemma qc_delay {A : Type} (ms : N) (k : M A) (st : State) :
  (forall st', quiet_and_checked w st' (k w st')) ->
  quiet_and_checked w st (bind (delay ms) (fun _ => k) w st).
Proof.
  intro Hk. apply qc_bind; [|intros _ st'; apply Hk].
  exists [Waited ms]. cbn [delay fst snd st_io st_calls st_console].
  rewrite Nat.add_0_r. repeat split; reflexivity.
Qed.

(** A call whose answer is tested before anything is done with it. *)
Lemma qc_fetch_checked {A : Type} (m : Method) (u : URL) (e : Err)
      (k : Response -> M A) (st : State) :
  (forall r st', quiet_and_checked w st' (k r w st')) ->
  quiet_and_checked w st
    (bind (fetch m u) (fun r => if negb (ok r) then throw e else k r) w st).
Proof.
  intro Hk. unfold fetch, fetch_start, await, bind, ret, throw. cbn beta iota.
  set (st1 := mkState (S (st_calls st)) (st_io st ++ [Called (mkCall m u)]) (st_console st)).
  assert (Hthrow : forall e', quiet_and_checked w st (@Throw A e', st1)).
  { intro e'. exists [Called (mkCall m u)]. cbn [fst snd st1 st_io st_calls st_console].
    rewrite Nat.add_1_r. repeat split.
    intro Hne. exfalso. exact (Hne e' eq_refl). }
  destruct (w (st_calls st) (mkCall m u)) as [|r] eqn:Ew; [apply Hthrow|].
  destruct (ok r) eqn:Eok; cbn [negb]; [|apply Hthrow].
  destruct (Hk r st1) as [new [Hio [Hc [Hcon Hok]]]].
  exists (Called (mkCall m u) :: new).
  rewrite Hio, Hc, Hcon. cbn [st1 st_io st_calls st_console].
  rewrite <- app_assoc, count_calls_called, Nat.add_succ_r. cbn [app].
  repeat split. intro Hne.
  cbn [answers_from forallb]. rewrite Ew. cbn [answered_2xx]. rewrite Eok.
  exact (Hok Hne).
Qed.

Lemma qc_mapM_lift {A B : Type} (g : A -> Result B) (l : list A) (st : State) :
  quiet_and_checked w st (mapM (fun x => lift (g x)) l w st).
Proof.
  rewrite (mapM_lift _ g) by reflexivity. apply qc_lift.
Qed.

Lemma qc_poll_history (nts : Q -> jsstring) (historyUrl : URL) (id : value)
      (fuel : nat) :
  forall st, quiet_and_checked w st (poll_history nts fuel historyUrl id w st).
Proof.
  induction fuel as [|fuel IH]; intro st; cbn [poll_history].
  - apply qc_here.
  - apply qc_fetch_checked. intros r st1.
    apply qc_bind; [apply qc_json|]. intros history st2.
    apply qc_bind; [apply qc_lift|]. intros item st3.
    destruct (truthy_member item); [apply qc_here|].
    apply qc_delay. exact IH.
Qed.

Lemma qc_fetch_first_image (nts : Q -> jsstring) (request : Request) (item : Member)
      (st : State) :
  quiet_and_checked w st (fetch_first_image nts request item w st).
Proof.
  unfold fetch_first_image.
  apply qc_bind; [apply qc_lift|]. intros outputs st1.
  apply qc_bind; [apply qc_lift|]. intros keys st2.
  apply qc_bind; [apply qc_mapM_lift|]. intros images st3.
  apply qc_bind; [apply qc_lift|]. intros imgInfo st4.
  apply qc_bind; [apply qc_new_URL|]. intros imgUrl st5.
  apply qc_bind; [apply qc_lift|]. intros v1 st6.
  apply qc_bind; [apply qc_lift|]. intros filename st7.
  apply qc_bind; [apply qc_lift|]. intros v2 st8.
  apply qc_bind; [apply qc_lift|]. intros subfolder st9.
  apply qc_bind; [apply qc_lift|]. intros v3 st10.
  apply qc_bind; [apply qc_lift|]. intros type st11.
  cbv zeta. apply qc_fetch_checked. intros r st12. apply qc_here.
Qed.

(** The generate handler of ComfyUI writes nothing to the console, and
    unless it answers with a bare 500, every answer it got from the backend
    was a 2xx answer. *)
Lemma comfy_generate_checked (nts : Q -> jsstring) (fuel : nat) (request : Request) :
  console_of (comfy_generate nts fuel request) w = []
  /\ (outcome_of (comfy_generate nts fuel request) w = Ret (sendStatus 500)
      \/ forallb answered_2xx (answers_of (comfy_generate nts fuel request) w) = true).
Proof.
  unfold console_of, outcome_of, answers_of, io_of, run, comfy_generate, try_catch.
  match goal with
  | |- context [bind ?m ?k w initial_state] =>
      assert (H : quiet_and_checked w initial_state (bind m k w initial_state))
  end.
  { apply qc_bind; [apply qc_new_URL|]. intros url st1. cbv zeta.
    apply qc_fetch_checked. intros promptResult st2.
    apply qc_bind; [apply qc_json|]. intros data st3.
    apply qc_bind; [apply qc_lift|]. intros id st4.
    apply qc_bind; [apply qc_new_URL|]. intros historyUrl st5. cbv zeta.
    apply qc_bind; [apply qc_poll_history|]. intros item st6.
    apply qc_fetch_first_image. }
  destruct H as [new [Hio [Hc [Hcon Hok]]]].
  match goal with
  | |- context [bind ?m ?k w initial_state] =>
      destruct (bind m k w initial_state) as [[reply|e|] st']
  end; cbn [fst snd initial_state st_io st_calls st_console app ret] in *;
    (split; [exact Hcon|]).
  - right. rewrite Hio. apply Hok. discriminate.
  - left. reflexivity.
  - right. rewrite Hio. apply Hok. discriminate.
Qed.

End Checked.

(** The trace of the loop of the set-model handler goes on from the trace
    before it. *)
Lemma wait_for_model_extends (nts : Q -> jsstring) (stn : jsstring -> option Q)
      (request : Request) (w : Backend) (n : nat) :
  forall st, exists rest,
    st_io (snd (wait_for_model nts stn request n w st)) = st_io st ++ rest.
Proof.
  induction n as [|n IH]; intro st; [exists []; cbn; rewrite app_nil_r; reflexivity|].
  cbn [wait_for_model]. destruct request as [[u|] body];
    [|exists []; cbn; rewrite app_nil_r; reflexivity].
  unfold getProgress, fetch, fetch_start, await, json, new_URL, console, delay,
    bind, ret, throw.
  cbn beta iota. cbn [req_url st_calls st_io st_console].
  destruct (w (st_calls st) _) as [|r]; [eexists; reflexivity|].
  destruct (body_json r) as [data|]; [|eexists; reflexivity].
  destruct (get data PROGRESS) as [progress|e]; cbn [lift]; [|eexists; reflexivity].
  destruct (get data STATE) as [state|e]; cbn [lift]; [|eexists; reflexivity].
  destruct (get state JOB_COUNT) as [jobCount|e]; cbn [lift]; [|eexists; reflexivity].
  destruct (loosely_equals_zero nts stn progress) as [z|e]; cbn [lift];
    [|eexists; reflexivity].
  destruct (z && strictly_equals_zero jobCount); [eexists; reflexivity|].
  destruct (ToString nts progress) as [p|e]; cbn [lift]; [|eexists; reflexivity].
  destruct (ToString nts jobCount) as [j|e]; cbn [lift]; [|eexists; reflexivity].
  match goal with
  | |- context [wait_for_model _ _ _ n w ?st2] => destruct (IH st2) as [rest Hrest]
  end.
  unfold getProgress, fetch, fetch_start, await, json, new_URL, console, delay,
    bind, ret, throw in Hrest.
  rewrite Hrest. cbn [st_io]. rewrite <- !app_assoc. eexists; reflexivity.
Qed.

(** The set-model handler answers a failed POST with a bare 500 and logs
    the error alone. *)
Lemma sd_set_model_tested (nts : Q -> jsstring) (stn : jsstring -> option Q)
      (request : Request) (w : Backend) (r : Response) :
  ok r = false ->
  In (Answered r) (firstn 1 (answers_of (sd_set_model nts stn request) w)) ->
  outcome_of (sd_set_model nts stn request) w = Ret (sendStatus 500)
  /\ console_of (sd_set_model nts stn request) w = [[LError SD_WEBUI_ERROR]].
Proof.
  intros Hr. destruct request as [[u|] body]; [|intros []].
  unfold answers_of, outcome_of, console_of, io_of, run, sd_set_model, try_catch,
    log_and_500, fetch, fetch_start, await, new_URL, console, bind, ret, throw.
  cbn beta iota. cbn [req_url initial_state st_calls st_io st_console app].
  destruct (w 0 _) as [|r0] eqn:Ew; [cbn [fst snd st_io answers_from firstn In];
                                      rewrite Ew; intros [H|[]]; discriminate H|].
  destruct (ok r0) eqn:Eok; cbn [negb].
  - intro Hin. exfalso.
    match goal with
    | _ : context [wait_for_model nts stn ?rq ?n w ?st] |- _ =>
        destruct (wait_for_model_extends nts stn rq w n st) as [rest Hrest];
        destruct (wait_for_model nts stn rq n w st) as [[[]|e|] st']
    end; cbn [fst snd st_io] in *; rewrite Hrest in Hin;
      cbn [app answers_from firstn In] in Hin; rewrite Ew in Hin;
      destruct Hin as [H|[]]; injection H as ->; congruence.
  - intros _. cbn [fst snd st_console app]. split; reflexivity.
Qed.

Lemma get_raises_TypeError (x : value) (k : jsstring) (e : Err) :
  get x k = Raise e -> e = TypeError.
Proof.
  destruct x; cbn [get]; try congruence.
  - destruct (jsstring_eqb k LENGTH); [discriminate|].
    destruct (at_index_key s k); discriminate.
  - destruct (jsstring_eqb k LENGTH); [discriminate|].
    destruct (at_index_key xs k); discriminate.
  - destruct (assoc k members); discriminate.
Qed.

(** Mapping an array to the member [k] of its entries changes nothing of
    the state and throws type errors only. *)
Lemma array_map_get (data : value) (k : jsstring) (w : Backend) (st : State) :
  snd (array_map data (fun x => lift (get x k)) w st) = st
  /\ match fst (array_map data (fun x => lift (get x k)) w st) with
     | Ret _ => True
     | Throw e => e = TypeError
     | Fuel => False
     end.
Proof.
  destruct data; try (split; reflexivity).
  cbn [array_map]. rewrite (mapM_lift _ (fun x => get x k)) by reflexivity.
  assert (H : forall e, traverse (fun x => get x k) xs = Raise e -> e = TypeError).
  { induction xs as [|x xs IH]; intros e; cbn [traverse]; [discriminate|].
    destruct (get x k) as [y|e'] eqn:Ex.
    - destruct (traverse (fun x => get x k) xs) as [ys|e'']; [discriminate|].
      intro E. injection E as <-. apply IH. reflexivity.
    - intro E. injection E as <-. exact (get_raises_TypeError x k e' Ex). }
  unfold lift. destruct (traverse (fun x => get x k) xs) as [ys|e];
    cbn [fst snd]; split; auto.
Qed.

(** The upscalers handler answers with a bare 500 when one of its two
    calls is answered with a status that is not 2xx, and logs an error
    without a cause. *)
Lemma sd_upscalers_tested (request : Request) (w : Backend) (r : Response) :
  ok r = false ->
  In (Answered r) (answers_of (sd_upscalers request) w) ->
  outcome_of (sd_upscalers request) w = Ret (sendStatus 500)
  /\ exists e, console_of (sd_upscalers request) w = [[LError e]]
               /\ error_cause e = None.
Proof.
  intro Hr. destruct request as [[u|] body]; [|intros []].
  unfold answers_of, outcome_of, console_of, io_of, run, sd_upscalers, try_catch,
    log_and_500, get_names_start, get_names_finish, fetch_start, await, new_URL,
    json, console, bind, ret, throw.
  cbn beta iota. cbn [req_url initial_state st_calls st_io st_console app].
  assert (Hdone : forall e : Err,
            error_cause e = None ->
            (Ret (sendStatus 500) = Ret (sendStatus 500)
             /\ exists e0, [] ++ [[LError e]] = [[LError e0]]
                           /\ error_cause e0 = None)).
  { intros e He. split; [reflexivity|]. exists e. split; auto. }
  destruct (w 0 _) as [|r1] eqn:E1.
  - intros _. cbn [fst snd st_console]. apply (Hdone FetchError); reflexivity.
  - destruct (ok r1) eqn:Eok1; cbn [negb];
      [|intros _; cbn [fst snd st_console]; apply (Hdone SD_WEBUI_ERROR); reflexivity].
    destruct (body_json r1) as [data1|];
      [|intros _; cbn [fst snd st_console]; apply (Hdone SyntaxError); reflexivity].
    match goal with
    | |- context [array_map data1 ?f w ?st] =>
        destruct (array_map_get data1 NAME w st) as [Hst1 Hout1];
        destruct (array_map data1 f w st) as [[names1|e1|] st1]
    end; cbn [fst snd] in Hst1, Hout1; subst;
      [|intros _; cbn [fst snd st_console]; apply (Hdone TypeError); reflexivity
       |contradiction].
    destruct (w 1 _) as [|r2] eqn:E2.
    + intros _. cbn [fst snd st_console]. apply (Hdone FetchError); reflexivity.
    + destruct (ok r2) eqn:Eok2; cbn [negb];
        [|intros _; cbn [fst snd st_console]; apply (Hdone SD_WEBUI_ERROR); reflexivity].
      intro Hin. exfalso.
      assert (Hcalls : forall rest : list IO,
                In (Answered r)
                   (answers_from w 0
                      (Called (mkCall GET (set_pathname u sdapi_v1_upscalers))
                       :: Called (mkCall GET (set_pathname u sdapi_v1_latent_upscale_modes))
                       :: rest)) ->
                rest = [] -> False).
      { intros rest H ->. cbn [answers_from In] in H. rewrite E1, E2 in H.
        destruct H as [H|[H|[]]]; injection H as ->; congruence. }
      destruct (body_json r2) as [data2|]; [|exact (Hcalls [] Hin eq_refl)].
      match goal with
      | _ : context [array_map data2 ?f w ?st] |- _ =>
          destruct (array_map_get data2 NAME w st) as [Hst2 Hout2];
          destruct (array_map data2 f w st) as [[names2|e2|] st2]
      end; cbn [fst snd] in Hst2, Hout2; subst; cbn [lift response_send send fst snd st_io] in Hin;
        exact (Hcalls [] Hin eq_refl).
Qed.

(** A handler of stable-diffusion.js answers with a bare 500 when one of
    the answers that it tests is not 2xx, and, the generate handler of SD
    WebUI apart, writes no more than an error without a cause to the
    console. *)
Lemma tested_failure_is_500 (env : Env) (e : Endpoint) (request : Request)
      (w : Backend) (r : Response) :
  hosted e = false -> ok r = false ->
  In (Answered r) (tested_answers e (answers_of (handle env e request) w)) ->
  outcome_of (handle env e request) w = Ret (sendStatus 500)
  /\ (e <> Sd_generate -> Forall bare_error_line (console_of (handle env e request) w)).
Proof.
  intros He Hr.
  assert (Hline : forall err, error_cause err = None -> bare_error_line [LError err]).
  { intros err Herr. exists err. split; [reflexivity|exact Herr]. }
  destruct e; try discriminate He; clear He; cbn [tested_answers handle].
  6: { intro Hin.
       destruct (sd_set_model_tested _ _ request w r Hr Hin) as [H1 H2].
       split; [exact H1|]. intros _. rewrite H2. repeat constructor.
       apply Hline. reflexivity. }
  5: { intros []. }
  2: { intro Hin.
       destruct (sd_upscalers_tested request w r Hr Hin) as [H1 [err [H2 H3]]].
       split; [exact H1|]. intros _. rewrite H2.
       apply Forall_cons; [apply Hline; exact H3|apply Forall_nil]. }
  11: { intro Hin.
        destruct (comfy_generate_checked w (env_number_to_string env) (env_fuel env) request)
          as [Hcon [Hout|Hall]].
        - split; [exact Hout|]. intros _. rewrite Hcon. constructor.
        - exfalso. rewrite forallb_forall in Hall.
          specialize (Hall _ Hin). cbn [answered_2xx] in Hall. congruence. }
  all: destruct request as [[u|] body]; unfold answers_of.
  all: explore; cbn [answers_from In]; intro Hin.
  all: repeat match goal with
              | H : _ \/ _ |- _ => destruct H
              | H : False |- _ => destruct H
              end.
  all: repeat match goal with
              | H1 : ?b ?n ?c = _, H2 : ?b ?n ?c = Answered _ |- _ =>
                  rewrite H1 in H2; first [discriminate H2 | injection H2 as ?; subst]
              end.
  all: repeat match goal with
              | H : Rejected = Answered _ |- _ => discriminate H
              | H : Answered _ = Answered _ |- _ => injection H as ?; subst
              end.
  all: try congruence.
  all: try (match goal with H : negb (ok _) = false |- _ =>
                              rewrite Hr in H; discriminate H end).
  all: split;
    [reflexivity
    |intro Hne;
     first [ exfalso; apply Hne; reflexivity
           | apply Forall_cons; [apply Hline; reflexivity|apply Forall_nil] ]].
Qed.

(** A handler of the hosted provider hands the body of an answer that is
    not 2xx to the caller, with status 500, after writing it to the
    console. *)
Lemma hosted_failure_is_passed_on (env : Env) (e : Endpoint) (request : Request)
      (w : Backend) (r : Response) :
  hosted e = true -> ok r = false ->
  In (Answered r) (answers_of (handle env e request) w) ->
  outcome_of (handle env e request) w = Ret (status_send 500 (body_text r))
  /\ exists label,
       In [LText label; LText (statusText r); LText (body_text r)]
          (console_of (handle env e request) w).
Proof.
  intros He Hr.
  destruct request as [url body], env as [nts stn readSecret has_file fuel].
  destruct e; try discriminate He; clear He; unfold answers_of.
  all: explore; cbn [answers_from In]; intro Hin.
  all: repeat match goal with
              | H : _ \/ _ |- _ => destruct H
              | H : False |- _ => destruct H
              end.
  all: repeat match goal with
              | H1 : ?b ?n ?c = _, H2 : ?b ?n ?c = Answered _ |- _ =>
                  rewrite H1 in H2; first [discriminate H2 | injection H2 as ?; subst]
              end.
  all: repeat match goal with
              | H : Rejected = Answered _ |- _ => discriminate H
              | H : Answered _ = Answered _ |- _ => injection H as ?; subst
              end.
  all: try congruence.
  all: try (match goal with H : negb (ok _) = false |- _ =>
                              rewrite Hr in H; discriminate H end).
  all: split; [reflexivity | eexists; cbn; eauto 10].
Qed.

(** The generate handler of SD WebUI has read the body of the answer and
    put it into the error that it logs, as its cause. *)
Lemma sd_generate_logs_the_cause (request : Request) (w : Backend) (r : Response) :
  ok r = false ->
  In (Answered r) (answers_of (sd_generate request) w) ->
  console_of (sd_generate request) w
  = [[LText (js "SD WebUI request:"); LValue (req_body request)];
     [LError (Error (js "SD WebUI returned an error.") (Some (body_text r)))]].
Proof.
  intros Hr. destruct request as [[u|] body]; unfold answers_of.
  all: explore; cbn [answers_from In]; intro Hin.
  all: repeat match goal with
              | H : _ \/ _ |- _ => destruct H
              | H : False |- _ => destruct H
              end.
  all: repeat match goal with
              | H1 : ?b ?n ?c = _, H2 : ?b ?n ?c = Answered _ |- _ =>
                  rewrite H1 in H2; first [discriminate H2 | injection H2 as ?; subst]
              end.
  all: repeat match goal with
              | H : Rejected = Answered _ |- _ => discriminate H
              | H : Answered _ = Answered _ |- _ => injection H as ?; subst
              end.
  all: try congruence.
  all: try (match goal with H : negb (ok _) = false |- _ =>
                              rewrite Hr in H; discriminate H end).
  all: reflexivity.
Qed.

(** C3 (amended): when the backend answers one of the calls of a handler
    with a status that is not 2xx,
    - each of the four handlers of the hosted provider (caption-image,
      transcribe-audio, generate-voice, generate-image) writes the raw text
      of the answer to the console and sends it to the caller with status
      500 (not the status of the backend);
    - a handler of stable-diffusion.js sends a bare 500 with nothing of
      the backend in it, provided the answer is one that the handler tests
      with [result.ok]; of these handlers only the generate handler of SD
      WebUI reads the text of the answer, which it logs as the cause of the
      error, while the others log no more than an error without a cause.
    Every answer counts that the handler got, the first one or a later one.
    The answers that are not tested are those of the get-model handler and
    of the progress endpoint in the set-model handler; of these the
    statement says nothing. *)
Theorem backend_failure_replies (env : Env) (request : Request) (w : Backend)
        (r : Response) :
  ok r = false ->
  (forall e, hosted e = true ->
     In (Answered r) (answers_of (handle env e request) w) ->
     outcome_of (handle env e request) w = Ret (status_send 500 (body_text r))
     /\ exists label,
          In [LText label; LText (statusText r); LText (body_text r)]
             (console_of (handle env e request) w))
  /\ (forall e, hosted e = false ->
        In (Answered r) (tested_answers e (answers_of (handle env e request) w)) ->
        outcome_of (handle env e request) w = Ret (sendStatus 500))
  /\ (In (Answered r) (answers_of (sd_generate request) w) ->
      console_of (sd_generate request) w
      = [[LText (js "SD WebUI request:"); LValue (req_body request)];
         [LError (Error (js "SD WebUI returned an error.") (Some (body_text r)))]])
  /\ (forall e, hosted e = false -> e <> Sd_generate ->
        In (Answered r) (tested_answers e (answers_of (handle env e request) w)) ->
        Forall (fun line => exists err, line = [LError err] /\ error_cause err = None)
               (console_of (handle env e request) w)).
Proof.
  intro Hr. split; [|split; [|split]].
  - intros e He Hin. apply hosted_failure_is_passed_on; assumption.
  - intros e He Hin. apply (tested_failure_is_500 env e request w r He Hr Hin).
  - apply sd_generate_logs_the_cause. exact Hr.
  - intros e He Hg Hin.
    exact (proj2 (tested_failure_is_500 env e request w r He Hr Hin) Hg).
Qed.

Lemma backend_failure_replies_witness :
  ok not_found = false
  /\ outcome_of (handle sample_env Generate_image (mkRequest None (VObj [])))
                (always not_found)
     = Ret (status_send 500 (body_text not_found))
  /\ outcome_of (handle sample_env Sd_generate (mkRequest (Some sample_base_url) (VObj [])))
                (always not_found)
     = Ret (sendStatus 500)
  /\ outcome_of (handle (mkEnv (fun _ => []) (fun _ => None) (fun _ => VUndef) true 3)
                        Comfy_generate (mkRequest (Some sample_comfy_url) (VObj [])))
                (comfy_backend_failing abc123 scenario_snapshots 1 (Answered not_found))
     = Ret (sendStatus 500).
Proof.
  split; [reflexivity|].
  destruct (backend_failure_replies sample_env (mkRequest None (VObj []))
              (always not_found) not_found eq_refl) as [Hhosted _].
  destruct (backend_failure_replies sample_env
              (mkRequest (Some sample_base_url) (VObj [])) (always not_found)
              not_found eq_refl) as [_ [Hchecked _]].
  destruct (backend_failure_replies
              (mkEnv (fun _ => []) (fun _ => None) (fun _ => VUndef) true 3)
              (mkRequest (Some sample_comfy_url) (VObj []))
              (comfy_backend_failing abc123 scenario_snapshots 1 (Answered not_found))
              not_found eq_refl) as [_ [Hlater _]].
  split; [|split].
  - apply Hhosted; [reflexivity|]. left. reflexivity.
  - apply Hchecked; [reflexivity|]. left. reflexivity.
  - apply Hlater; [reflexivity|]. right. right. left. reflexivity.
Defined.

(** C3 (as stated) fails: the pass-through of the raw error text is not
    confined to one call site.  The caption-image and the generate-image
    handlers both send the body of the [404] answer to the caller, so
    whichever handler is taken as the exception, another one sends a
    payload. *)
Lemma pass_through_at_several_sites :
  outcome_of (handle sample_env Caption_image
                (mkRequest None (VObj [(js "api", VStr (js "openai"))])))
             (always not_found)
    = Ret (status_send 500 (body_text not_found))
  /\ outcome_of (handle sample_env Generate_image (mkRequest None (VObj [])))
                (always not_found)
     = Ret (status_send 500 (body_text not_found))
  /\ ~ one_pass_through_at_most sample_env.
Proof.
  split; [reflexivity|]. split; [reflexivity|].
  intros [e0 H].
  assert (Hnot : forall e request,
             outcome_of (handle sample_env e request) (always not_found)
             = Ret (status_send 500 (body_text not_found)) -> e = e0).
  { intros e request Hout.
    destruct (Endpoint_eq_dec e e0) as [E|E]; [exact E|].
    destruct (H e E request not_found eq_refl) as [code [_ Hc]].
    rewrite Hout in Hc. discriminate Hc. }
  assert (E1 : Caption_image = e0).
  { apply (Hnot _ (mkRequest None (VObj [(js "api", VStr (js "openai"))]))). reflexivity. }
  assert (E2 : Generate_image = e0).
  { apply (Hnot _ (mkRequest None (VObj []))). reflexivity. }
  rewrite <- E2 in E1. discriminate E1.
Qed.

(* ================================================================== *)
(** * Further properties of the code *)
(* ================================================================== *)

(** ** [removePattern] and [safeStr] *)

Lemma filter_filter_and {A : Type} (f g : A -> bool) (l : list A) :
  filter g (filter f l) = filter (fun x => f x && g x) l.
Proof.
  induction l as [|x l IH]; [reflexivity|].
  cbn [filter]. destruct (f x); cbn [filter andb]; [|exact IH].
  destruct (g x); [f_equal|]; exact IH.
Qed.

(** On [dangerousPatterns] every escape is a literal: the code units of
    the pattern are filtered out. *)
Lemma removePattern_is_filter (x : jsstring) :
  removePattern x dangerousPatterns = filter (fun c => negb (is_dangerous c)) x.
Proof.
  unfold removePattern, dangerousPatterns.
  cbn [fold_left escape remove_matches].
  rewrite !filter_filter_and. apply filter_ext. intro c.
  unfold is_dangerous, dangerousPatterns. cbn [existsb].
  rewrite !negb_orb, !(N.eqb_sym c). cbn [negb].
  rewrite andb_true_r. reflexivity.
Qed.

(** X1: [removePattern(x, dangerousPatterns)] is [x] without the code
    units of the square brackets (91, 93), the lenticular brackets (12304,
    12305), the parentheses (40, 41), the full-width parentheses (65288,
    65289), the vertical bar (124), the colon (58) and the full-width colon
    (65306); every other code unit stays, in its place among the others,
    the full-width vertical bar (65372) among them.  None of the removed
    code units is left, and a second pass changes nothing. *)
Theorem removePattern_dangerous (x : jsstring) :
  let removed := [91; 93; 12304; 12305; 40; 41; 65288; 65289; 124; 58; 65306]%N in
  removePattern x dangerousPatterns
  = filter (fun c => negb (existsb (N.eqb c) removed)) x
  /\ Forall (fun c => ~ In c removed) (removePattern x dangerousPatterns)
  /\ removePattern (removePattern x dangerousPatterns) dangerousPatterns
     = removePattern x dangerousPatterns
  /\ removePattern [65372%N] dangerousPatterns = [65372%N].
Proof.
  intro removed.
  assert (E : forall y, removePattern y dangerousPatterns
                        = filter (fun c => negb (existsb (N.eqb c) removed)) y).
  { intro y. apply removePattern_is_filter. }
  split; [apply E|]. split; [|split].
  - rewrite E. apply Forall_forall. intros c Hc Hin.
    apply filter_In in Hc. destruct Hc as [_ Hc].
    apply negb_true_iff in Hc.
    assert (Ht : existsb (N.eqb c) removed = true).
    { apply existsb_exists. exists c. split; [exact Hin|apply N.eqb_refl]. }
    rewrite Ht in Hc. discriminate Hc.
  - rewrite !E, filter_filter_and. apply filter_ext. intro c.
    apply andb_diag.
  - reflexivity.
Qed.

(** *** What the sanitizer deletes *)

Lemma filter_replace_double_space (f : N -> bool) (s : jsstring) :
  f SPACE = false ->
  filter f (replace_double_space s) = filter f s.
Proof.
  intro Hf.
  induction s as [|a|a b rest IH1 IH2] using list_pair_ind; try reflexivity.
  rewrite replace_double_space_cons2.
  destruct ((a =? SPACE) && (b =? SPACE))%N eqn:E.
  - apply andb_prop in E. destruct E as [Ea Eb].
    apply N.eqb_eq in Ea, Eb. subst a b.
    cbn [filter]. rewrite Hf. exact IH1.
  - cbn [filter] in *. rewrite IH2. reflexivity.
Qed.

Lemma filter_iter_replace_double_space (f : N -> bool) (k : nat) (s : jsstring) :
  f SPACE = false ->
  filter f (Nat.iter k replace_double_space s) = filter f s.
Proof.
  intro Hf. induction k as [|k IH]; [reflexivity|].
  rewrite Nat.iter_succ, filter_replace_double_space; assumption.
Qed.

Lemma filter_drop_while (f p : N -> bool) (s : jsstring) :
  (forall c, p c = true -> f c = false) ->
  filter f (drop_while p s) = filter f s.
Proof.
  intro Hp. induction s as [|c t IH]; [reflexivity|].
  cbn [drop_while]. destruct (p c) eqn:E; [|reflexivity].
  cbn [filter]. rewrite (Hp c E). exact IH.
Qed.

Lemma filter_strip_ends (f p : N -> bool) (s : jsstring) :
  (forall c, p c = true -> f c = false) ->
  filter f (strip_ends p s) = filter f s.
Proof.
  intro Hp. unfold strip_ends.
  rewrite filter_rev, (filter_drop_while f p _ Hp), filter_rev, rev_involutive.
  apply filter_drop_while. exact Hp.
Qed.

Lemma deletes_only_refl (p : N -> bool) (s : jsstring) : deletes_only p s s.
Proof. induction s; constructor; assumption. Qed.

Lemma deletes_only_trans (p : N -> bool) (s t r : jsstring) :
  deletes_only p s t -> deletes_only p t r -> deletes_only p s r.
Proof.
  intro H. revert r. induction H as [|c s t H IH|c s t Hc H IH]; intros r Hr.
  - exact Hr.
  - inversion Hr; subst.
    + constructor. apply IH. assumption.
    + apply del_drop; [assumption|]. apply IH. assumption.
  - apply del_drop; [assumption|]. apply IH. exact Hr.
Qed.

Lemma deletes_only_weaker (p q : N -> bool) (s t : jsstring) :
  (forall c, p c = true -> q c = true) ->
  deletes_only p s t -> deletes_only q s t.
Proof.
  intros Hpq H. induction H; constructor; auto.
Qed.

Lemma deletes_only_app (p : N -> bool) (s1 t1 s2 t2 : jsstring) :
  deletes_only p s1 t1 -> deletes_only p s2 t2 -> deletes_only p (s1 ++ s2) (t1 ++ t2).
Proof.
  intros H1 H2. induction H1; cbn [app]; try constructor; assumption.
Qed.

Lemma deletes_only_rev (p : N -> bool) (s t : jsstring) :
  deletes_only p s t -> deletes_only p (rev s) (rev t).
Proof.
  intro H. induction H as [|c s t H IH|c s t Hc H IH]; cbn [rev].
  - constructor.
  - apply deletes_only_app; [exact IH|apply deletes_only_refl].
  - rewrite <- (app_nil_r (rev t)).
    apply deletes_only_app; [exact IH|]. apply del_drop; [exact Hc|constructor].
Qed.

Lemma deletes_only_replace_double_space (s : jsstring) :
  deletes_only (N.eqb SPACE) s (replace_double_space s).
Proof.
  induction s as [|a|a b rest IH1 IH2] using list_pair_ind.
  - constructor.
  - apply deletes_only_refl.
  - rewrite replace_double_space_cons2.
    destruct ((a =? SPACE) && (b =? SPACE))%N eqn:E.
    + apply andb_prop in E. destruct E as [Ea Eb].
      apply N.eqb_eq in Ea, Eb. subst a b.
      apply del_drop; [reflexivity|]. constructor. exact IH1.
    + constructor. exact IH2.
Qed.

Lemma deletes_only_drop_while (p : N -> bool) (s : jsstring) :
  deletes_only p s (drop_while p s).
Proof.
  induction s as [|c t IH]; [constructor|].
  cbn [drop_while]. destruct (p c) eqn:E.
  - apply del_drop; assumption.
  - apply deletes_only_refl.
Qed.

Lemma deletes_only_strip_ends (p : N -> bool) (s : jsstring) :
  deletes_only p s (strip_ends p s).
Proof.
  unfold strip_ends.
  apply (deletes_only_trans p s (drop_while p s)); [apply deletes_only_drop_while|].
  rewrite <- (rev_involutive (drop_while p s)) at 1.
  apply deletes_only_rev, deletes_only_drop_while.
Qed.

Lemma deletes_only_filter (p : N -> bool) (s t : jsstring) :
  deletes_only p s t ->
  filter (fun c => negb (p c)) t = filter (fun c => negb (p c)) s.
Proof.
  intro H. induction H as [|c s t H IH|c s t Hc H IH]; cbn [filter].
  - reflexivity.
  - rewrite IH. reflexivity.
  - rewrite Hc. exact IH.
Qed.

Lemma deletes_only_length (p : N -> bool) (s t : jsstring) :
  deletes_only p s t -> List.length t <= List.length s.
Proof. intro H. induction H; cbn [List.length]; lia. Qed.

Lemma safeStr_deletes_only (x : jsstring) : deletes_only is_ws_comma_dot x (safeStr x).
Proof.
  unfold safeStr, trim, strip_ws_comma_dot.
  apply (deletes_only_trans _ _ (strip_ends is_js_whitespace
                                   (Nat.iter 16 replace_double_space x)));
    [|apply deletes_only_strip_ends].
  apply (deletes_only_trans _ _ (Nat.iter 16 replace_double_space x)).
  - generalize 16. intro k. induction k as [|k IH]; [apply deletes_only_refl|].
    rewrite Nat.iter_succ.
    apply (deletes_only_trans _ _ _ _ IH).
    apply (deletes_only_weaker (N.eqb SPACE)); [|apply deletes_only_replace_double_space].
    intros c Hc. apply N.eqb_eq in Hc. subst c. reflexivity.
  - apply (deletes_only_weaker is_js_whitespace); [apply ws_in_ws_comma_dot|].
    apply deletes_only_strip_ends.
Qed.

Lemma safeStr_only_deletes_separators_aux (x : jsstring) :
  filter (fun c => negb (is_ws_comma_dot c)) (safeStr x)
  = filter (fun c => negb (is_ws_comma_dot c)) x
  /\ List.length (safeStr x) <= List.length x.
Proof.
  split.
  - apply deletes_only_filter, safeStr_deletes_only.
  - apply (deletes_only_length is_ws_comma_dot), safeStr_deletes_only.
Qed.

(** X2: [safeStr] only deletes, and only white space, commas and dots:
    its result is the input with some of these code units left out and
    nothing added, changed or moved.  So the other code units of the input
    are all in the output, in the same order, and the output is never
    longer than the input. *)
Theorem safeStr_only_deletes_separators (x : jsstring) :
  deletes_only is_ws_comma_dot x (safeStr x)
  /\ filter (fun c => negb (is_ws_comma_dot c)) (safeStr x)
     = filter (fun c => negb (is_ws_comma_dot c)) x
  /\ List.length (safeStr x) <= List.length x.
Proof.
  split; [apply safeStr_deletes_only|apply safeStr_only_deletes_separators_aux].
Qed.

(** *** The ends of the sanitized string *)

Lemma drop_while_starts_without (p : N -> bool) (s : jsstring) :
  starts_without p (drop_while p s) = true.
Proof.
  induction s as [|c t IH]; [reflexivity|].
  cbn [drop_while]. destruct (p c) eqn:E; [exact IH|].
  cbn [starts_without]. rewrite E. reflexivity.
Qed.

Lemma drop_while_id (p : N -> bool) (s : jsstring) :
  starts_without p s = true -> drop_while p s = s.
Proof.
  destruct s as [|c t]; [reflexivity|].
  cbn [starts_without drop_while]. intro H.
  apply negb_true_iff in H. rewrite H. reflexivity.
Qed.

Lemma starts_without_prefix (p : N -> bool) (l1 l2 : jsstring) :
  l1 <> [] -> starts_without p (l1 ++ l2) = starts_without p l1.
Proof. destruct l1; [contradiction|reflexivity]. Qed.

Lemma strip_ends_clean (p : N -> bool) (s : jsstring) :
  starts_without p (strip_ends p s) = true
  /\ ends_without p (strip_ends p s) = true.
Proof.
  unfold ends_without, strip_ends. rewrite rev_involutive.
  split; [|apply drop_while_starts_without].
  set (w := drop_while p s).
  destruct (drop_while_suffix p (rev w)) as [pre E].
  set (z := drop_while p (rev w)) in *.
  assert (Ew : w = rev z ++ rev pre).
  { rewrite <- (rev_involutive w), E, rev_app_distr. reflexivity. }
  destruct (rev z) as [|c t] eqn:Ez; [reflexivity|].
  rewrite <- (starts_without_prefix p (c :: t) (rev pre)) by discriminate.
  rewrite <- Ew. apply drop_while_starts_without.
Qed.

Lemma starts_without_weaker (p q : N -> bool) (s : jsstring) :
  (forall c, q c = true -> p c = true) ->
  starts_without p s = true -> starts_without q s = true.
Proof.
  intros Hqp. destruct s as [|c t]; [reflexivity|].
  cbn [starts_without]. intro H. apply negb_true_iff in H.
  apply negb_true_iff. destruct (q c) eqn:E; [|reflexivity].
  rewrite (Hqp c E) in H. discriminate H.
Qed.

Lemma strip_ends_id (p : N -> bool) (s : jsstring) :
  starts_without p s = true -> ends_without p s = true -> strip_ends p s = s.
Proof.
  unfold ends_without, strip_ends. intros H1 H2.
  rewrite (drop_while_id p s H1), (drop_while_id p (rev s) H2).
  apply rev_involutive.
Qed.

(** X3: whatever the input, the string returned by [safeStr] neither
    begins nor ends with white space, a comma or a dot. *)
Theorem safeStr_ends_are_clean (x : jsstring) :
  starts_without is_ws_comma_dot (safeStr x) = true
  /\ ends_without is_ws_comma_dot (safeStr x) = true.
Proof. unfold safeStr, strip_ws_comma_dot. apply strip_ends_clean. Qed.

(** X4: [safeStr] returns the empty string exactly on the inputs made of
    white space, commas and dots only (the empty input among them). *)
Theorem safeStr_empty_iff (x : jsstring) :
  safeStr x = [] <-> forallb is_ws_comma_dot x = true.
Proof.
  split.
  - intro H.
    destruct (safeStr_only_deletes_separators_aux x) as [Hf _].
    rewrite H in Hf. cbn [filter] in Hf.
    apply forallb_forall. intros c Hc.
    destruct (is_ws_comma_dot c) eqn:E; [reflexivity|].
    assert (Hin : In c (filter (fun c => negb (is_ws_comma_dot c)) x)).
    { apply filter_In. split; [exact Hc|]. rewrite E. reflexivity. }
    rewrite <- Hf in Hin. contradiction.
  - intro H.
    assert (Hall : forall y, forallb is_ws_comma_dot y = true ->
                             drop_while is_ws_comma_dot y = []).
    { induction y as [|c t IH]; [reflexivity|].
      cbn [forallb drop_while]. intro Hy. apply andb_prop in Hy.
      destruct Hy as [-> Ht]. exact (IH Ht). }
    unfold safeStr, strip_ws_comma_dot, strip_ends at 1.
    rewrite (Hall (trim (Nat.iter 16 replace_double_space x))); [reflexivity|].
    apply forallb_forall. intros c Hc.
    destruct (is_ws_comma_dot c) eqn:E; [reflexivity|].
    assert (Hin : In c (filter (fun c => negb (is_ws_comma_dot c))
                          (trim (Nat.iter 16 replace_double_space x)))).
    { apply filter_In. split; [exact Hc|]. rewrite E. reflexivity. }
    unfold trim in Hin.
    rewrite filter_strip_ends in Hin
      by (intros d Hd; rewrite (ws_in_ws_comma_dot d Hd); reflexivity).
    rewrite filter_iter_replace_double_space in Hin by reflexivity.
    apply filter_In in Hin. destruct Hin as [Hx _].
    rewrite forallb_forall in H. rewrite (H c Hx) in E. discriminate E.
Qed.

(** X5: a string without two adjacent spaces that neither begins nor ends
    with white space, a comma or a dot is returned unchanged. *)
Theorem safeStr_fixes_clean_strings (x : jsstring) :
  no_double_space x ->
  starts_without is_ws_comma_dot x = true ->
  ends_without is_ws_comma_dot x = true ->
  safeStr x = x.
Proof.
  intros Hnd Hs He. unfold safeStr, trim, strip_ws_comma_dot.
  rewrite (iter_replace_double_space_fix 16 x Hnd).
  rewrite (strip_ends_id is_js_whitespace x).
  - apply strip_ends_id; assumption.
  - exact (starts_without_weaker _ _ x ws_in_ws_comma_dot Hs).
  - exact (starts_without_weaker _ _ (rev x) ws_in_ws_comma_dot He).
Qed.

Lemma safeStr_fixes_clean_strings_witness :
  safeStr (js "a cat, on a mat") = js "a cat, on a mat".
Proof.
  apply safeStr_fixes_clean_strings.
  - apply max_run_no_double. vm_compute. discriminate.
  - reflexivity.
  - reflexivity.
Defined.

(** *** The expanded prompt *)

Lemma replace_double_space_incl (c : N) (s : jsstring) :
  In c (replace_double_space s) -> In c s.
Proof.
  induction s as [|a|a b rest IH1 IH2] using list_pair_ind; try (intro H; exact H).
  rewrite replace_double_space_cons2.
  destruct ((a =? SPACE) && (b =? SPACE))%N eqn:E.
  - apply andb_prop in E. destruct E as [Ea Eb].
    apply N.eqb_eq in Ea, Eb. subst a b.
    intros [H|H]; [left; exact H|right; right; exact (IH1 H)].
  - intros [H|H]; [left; exact H|right; exact (IH2 H)].
Qed.

Lemma drop_while_incl (p : N -> bool) (c : N) (s : jsstring) :
  In c (drop_while p s) -> In c s.
Proof.
  destruct (drop_while_suffix p s) as [pre E]. intro H.
  rewrite E. apply in_or_app. right. exact H.
Qed.

Lemma strip_ends_incl (p : N -> bool) (c : N) (s : jsstring) :
  In c (strip_ends p s) -> In c s.
Proof.
  unfold strip_ends. intro H.
  apply in_rev, drop_while_incl, in_rev, drop_while_incl in H. exact H.
Qed.

Lemma safeStr_incl (c : N) (x : jsstring) : In c (safeStr x) -> In c x.
Proof.
  unfold safeStr, trim, strip_ws_comma_dot. intro H.
  apply strip_ends_incl, strip_ends_incl in H.
  revert H. generalize 16. intro k.
  induction k as [|k IH]; [trivial|].
  rewrite Nat.iter_succ. intro H. apply replace_double_space_incl in H. auto.
Qed.

(** X6: when the generation succeeds, the prompt sent back by the
    expansion handler holds no bracket, parenthesis, vertical bar or colon
    (ASCII or full width) and neither begins nor ends with white space, a
    comma or a dot, whatever text the pipeline has produced. *)
Theorem sd_expand_output_is_clean (nts : Q -> jsstring)
        (pipe : jsstring -> Result value) (second : bool) (s : jsstring)
        (result : value) (t : jsstring) (w : Backend) :
  s <> [] ->
  pipe (expansion_input second s) = Ok result ->
  get_path result [INDEX0; GENERATED_TEXT] = Ok (VStr t) ->
  exists p,
    outcome_of (sd_expand nts (Some pipe) second (expand_request (Some s))) w
    = Ret (send (VObj [(PROMPT, VStr p)]))
    /\ Forall (fun c => is_dangerous c = false) p
    /\ starts_without is_ws_comma_dot p = true
    /\ ends_without is_ws_comma_dot p = true.
Proof.
  intros Hs Hp Ht. destruct s as [|c s]; [contradiction|].
  exists (safeStr (removePattern t dangerousPatterns)).
  split; [rewrite sd_expand_on_prompt, Hp, Ht; reflexivity|].
  split; [|unfold safeStr, strip_ws_comma_dot; apply strip_ends_clean].
  apply Forall_forall. intros d Hd. apply safeStr_incl in Hd.
  rewrite removePattern_is_filter in Hd. apply filter_In in Hd.
  destruct Hd as [_ Hd]. apply negb_true_iff in Hd. exact Hd.
Qed.

Lemma sd_expand_output_is_clean_witness :
  exists p,
    outcome_of (sd_expand (fun _ => []) (Some sample_pipe) false
                  (expand_request (Some (js " a cat "))))
               (always not_found)
    = Ret (send (VObj [(PROMPT, VStr p)]))
    /\ Forall (fun c => is_dangerous c = false) p
    /\ starts_without is_ws_comma_dot p = true
    /\ ends_without is_ws_comma_dot p = true.
Proof.
  eapply (sd_expand_output_is_clean (fun _ => []) sample_pipe false (js " a cat ")).
  - discriminate.
  - reflexivity.
  - reflexivity.
Defined.

(** X7: the expansion handler never calls a backend, and whenever it
    answers, the status is 200.  It fails to answer only when reading the
    prompt or converting it to a string throws, which happens before the
    [try] block. *)
Theorem sd_expand_calls_nothing (nts : Q -> jsstring)
        (pipeline : option (jsstring -> Result value)) (second : bool)
        (request : Request) (w : Backend) :
  io_of (sd_expand nts pipeline second request) w = []
  /\ match outcome_of (sd_expand nts pipeline second request) w with
     | Ret reply => reply_status reply = 200%N
     | Throw e =>
         get (req_body request) PROMPT = Raise e
         \/ exists prompt, get (req_body request) PROMPT = Ok prompt
                           /\ truthy prompt = true
                           /\ ToString nts prompt = Raise e
     | Fuel => False
     end.
Proof.
  set (P := fun r : Outcome Reply * State =>
         st_io (snd r) = []
         /\ match fst r with
            | Ret reply => reply_status reply = 200%N
            | Throw e =>
                get (req_body request) PROMPT = Raise e
                \/ exists prompt, get (req_body request) PROMPT = Ok prompt
                                  /\ truthy prompt = true
                                  /\ ToString nts prompt = Raise e
            | Fuel => False
            end).
  change (P (sd_expand nts pipeline second request w initial_state)).
  assert (Hret : forall reply st, st_io st = [] -> reply_status reply = 200%N ->
                                  P (Ret reply, st)).
  { intros reply st H1 H2. split; assumption. }
  unfold sd_expand. unfold bind at 1.
  destruct (get (req_body request) PROMPT) as [prompt|e] eqn:Eg; cbn [lift];
    [|split; [reflexivity|left; reflexivity]].
  destruct (truthy prompt) eqn:Et; cbn [negb];
    [|apply Hret; reflexivity].
  unfold bind at 1. unfold console at 1. cbv zeta.
  unfold bind at 1. unfold safeStr_of.
  destruct (ToString nts prompt) as [str|e] eqn:Es; cbn [lift];
    [|split; [reflexivity|right; exists prompt; auto]].
  unfold try_catch, bind, console, ret, throw.
  destruct pipeline as [pipe|]; [|apply Hret; reflexivity].
  destruct (pipe _) as [result|e]; cbn [lift]; [|apply Hret; reflexivity].
  destruct (get result INDEX0) as [first|e]; cbn [lift]; [|apply Hret; reflexivity].
  destruct (get first GENERATED_TEXT) as [text|e]; cbn [lift];
    [|apply Hret; reflexivity].
  destruct (as_string text) as [newText|e]; cbn [lift]; apply Hret; reflexivity.
Qed.

(** ** Requests that cannot be served *)

(** X8: when [request.body.url] is not a valid URL, every handler of
    stable-diffusion.js that takes a backend URL answers 500 without
    having issued a call. *)
Theorem invalid_url_is_500_without_call (env : Env) (e : Endpoint)
        (request : Request) (w : Backend) :
  hosted e = false -> req_url request = None ->
  outcome_of (handle env e request) w = Ret (sendStatus 500)
  /\ io_of (handle env e request) w = [].
Proof.
  intros He Hu. destruct request as [url body]. cbn [req_url] in Hu. subst url.
  destruct e; try discriminate He; split; run_handler; reflexivity.
Qed.

Lemma invalid_url_is_500_without_call_witness :
  outcome_of (handle sample_env Comfy_generate (mkRequest None (VObj [])))
             (always (ok_json VNull))
  = Ret (sendStatus 500)
  /\ io_of (handle sample_env Comfy_generate (mkRequest None (VObj [])))
           (always (ok_json VNull)) = [].
Proof.
  apply (invalid_url_is_500_without_call sample_env Comfy_generate); reflexivity.
Defined.

(** X9: when the backend cannot be reached (every call is rejected), the
    handlers of stable-diffusion.js answer a bare 500 after two calls at
    most and without waiting, and a handler of the hosted provider that has
    tried the call answers 500 with the text 'Internal server error'. *)
Theorem unreachable_backend_is_500 (env : Env) (e : Endpoint) (request : Request) :
  (hosted e = false ->
     outcome_of (handle env e request) rejecting = Ret (sendStatus 500)
     /\ count_calls (io_of (handle env e request) rejecting) <= 2
     /\ waits (io_of (handle env e request) rejecting) = [])
  /\ (hosted e = true ->
        io_of (handle env e request) rejecting <> [] ->
        outcome_of (handle env e request) rejecting
        = Ret (status_send 500 INTERNAL_SERVER_ERROR)).
Proof.
  destruct request as [[u|] body], env as [nts stn readSecret has_file fuel].
  all: split; intro He; destruct e; try discriminate He; clear He.
  all: try (run_handler; unfold rejecting; cbn; repeat split; lia).
  all: unfold rejecting; explore; intro Hio;
       try (exfalso; apply Hio; reflexivity); reflexivity.
Qed.

(** X10: no retries.  Whatever the backend answers, each handler other
    than the upscalers, set-model and ComfyUI generate handlers issues one
    outbound call at most and never waits. *)
Theorem single_call_handlers_do_not_retry (env : Env) (e : Endpoint)
        (request : Request) (w : Backend) :
  single_call e = true ->
  count_calls (io_of (handle env e request) w) <= 1
  /\ waits (io_of (handle env e request) w) = [].
Proof.
  intro He.
  destruct request as [[u|] body], env as [nts stn readSecret has_file fuel].
  all: destruct e; try discriminate He; clear He.
  all: explore; (split; [cbn; lia|reflexivity]).
Qed.

Lemma single_call_handlers_do_not_retry_witness :
  count_calls (io_of (handle sample_env Sd_models
                        (mkRequest (Some sample_base_url) (VObj [])))
                     (always (ok_json (VArr sample_models)))) <= 1
  /\ waits (io_of (handle sample_env Sd_models
                     (mkRequest (Some sample_base_url) (VObj [])))
                  (always (ok_json (VArr sample_models)))) = [].
Proof.
  apply (single_call_handlers_do_not_retry sample_env Sd_models). reflexivity.
Defined.

(** ** The handlers of the hosted provider *)

(** X11: when no secret is configured, a handler of the hosted provider
    issues no call.  It answers 401; only the caption handler answers 500
    "Internal server error" instead when the request has no body to read
    [api] from. *)
Theorem no_key_no_call (env : Env) (e : Endpoint) (request : Request) (w : Backend) :
  hosted e = true ->
  (forall k, truthy (env_readSecret env k) = false) ->
  io_of (handle env e request) w = []
  /\ (outcome_of (handle env e request) w = Ret (sendStatus 401)
      \/ (e = Caption_image
          /\ (exists err, get (req_body request) (js "api") = Raise err)
          /\ outcome_of (handle env e request) w
             = Ret (status_send 500 INTERNAL_SERVER_ERROR))).
Proof.
  intros He Hkey.
  destruct request as [url body], env as [nts stn readSecret has_file fuel].
  cbn [env_readSecret] in Hkey.
  destruct e; try discriminate He; clear He; run_handler;
    rewrite ?Hkey; run_handler; try (split; [reflexivity|left; reflexivity]).
  destruct (get body (js "api")) as [api|err] eqn:Ea; cbn [lift]; run_handler.
  - destruct (is_string api (js "openrouter")), (is_string api (js "openai"));
      rewrite ?Hkey; run_handler; split; try reflexivity; left; reflexivity.
  - split; [reflexivity|]. right. split; [reflexivity|].
    split; [exists err; reflexivity|reflexivity].
Qed.

Lemma no_key_no_call_witness :
  io_of (handle sample_no_key_env Generate_voice (mkRequest None (VObj [])))
        (always not_found) = []
  /\ outcome_of (handle sample_no_key_env Generate_voice (mkRequest None (VObj [])))
                (always not_found) = Ret (sendStatus 401).
Proof.
  destruct (no_key_no_call sample_no_key_env Generate_voice (mkRequest None (VObj []))
              (always not_found) eq_refl (fun _ => eq_refl)) as [Hio _].
  split; [exact Hio|reflexivity].
Defined.

(** X12: the caption handler answers 401 without a call when
    [request.body.api] is neither 'openai' nor 'openrouter', whatever
    secrets are configured. *)
Theorem caption_image_unknown_api (readSecret : SECRET_KEYS -> value)
        (request : Request) (api : value) (w : Backend) :
  get (req_body request) (js "api") = Ok api ->
  provider_of api = None ->
  outcome_of (caption_image readSecret request) w = Ret (sendStatus 401)
  /\ io_of (caption_image readSecret request) w = [].
Proof.
  intros Ha Hp. unfold provider_of in Hp.
  destruct (is_string api (js "openai")) eqn:E1; [discriminate Hp|].
  destruct (is_string api (js "openrouter")) eqn:E2; [discriminate Hp|].
  destruct request as [url body]. cbn [req_body] in Ha.
  split; run_handler; rewrite Ha; cbn [lift]; rewrite E1, E2; reflexivity.
Qed.

Lemma caption_image_unknown_api_witness :
  outcome_of (caption_image (fun _ => VStr (js "sk-key"))
                (mkRequest None (VObj [(js "api", VStr (js "google"))])))
             (always not_found)
  = Ret (sendStatus 401)
  /\ io_of (caption_image (fun _ => VStr (js "sk-key"))
              (mkRequest None (VObj [(js "api", VStr (js "google"))])))
           (always not_found) = [].
Proof.
  apply (caption_image_unknown_api _ _ (VStr (js "google"))); reflexivity.
Defined.

(** X13: the transcription handler checks the key before the file:
    without a key it answers 401 whether or not a file was uploaded, with a
    key but without a file it answers 400; in both cases it issues no
    call. *)
Theorem transcribe_audio_preconditions (readSecret : SECRET_KEYS -> value)
        (has_file : bool) (request : Request) (w : Backend) :
  (truthy (readSecret OPENAI) = false ->
     outcome_of (transcribe_audio readSecret has_file request) w = Ret (sendStatus 401)
     /\ io_of (transcribe_audio readSecret has_file request) w = [])
  /\ (truthy (readSecret OPENAI) = true -> has_file = false ->
        outcome_of (transcribe_audio readSecret has_file request) w = Ret (sendStatus 400)
        /\ io_of (transcribe_audio readSecret has_file request) w = []).
Proof.
  split.
  - intro Hk. split; run_handler; rewrite Hk; reflexivity.
  - intros Hk ->. split; run_handler; rewrite Hk; reflexivity.
Qed.

Lemma get_object_member (ms : list (jsstring * value)) (k : jsstring) :
  exists v, get (VObj ms) k = Ok v.
Proof. cbn [get]. destruct (assoc k ms); eexists; reflexivity. Qed.

(** X14: the caption handler posts once, to the chat-completions URL of
    the provider named by [request.body.api], provided that provider's key
    is configured.  On a 2xx answer it sends [{ caption }] when
    [choices[0].message.content] is truthy, 500 "No caption found" when it
    is not (an empty [choices] included), and 500 "Internal server error"
    when the answer has no [choices] at all. *)
Theorem caption_image_result (readSecret : SECRET_KEYS -> value)
        (url : option URL) (ms : list (jsstring * value)) (api : value)
        (key : SECRET_KEYS) (target : URL) (r : Response) (data : value) :
  get (VObj ms) (js "api") = Ok api ->
  provider_of api = Some (key, target) ->
  truthy (readSecret key) = true ->
  ok r = true ->
  body_json r = Some data ->
  io_of (caption_image readSecret (mkRequest url (VObj ms))) (always r)
  = [Called (mkCall POST target)]
  /\ outcome_of (caption_image readSecret (mkRequest url (VObj ms))) (always r)
     = Ret match caption_of data with
           | Ok caption =>
               if truthy caption then send (VObj [(js "caption", caption)])
               else status_send 500 (js "No caption found")
           | Raise _ => status_send 500 INTERNAL_SERVER_ERROR
           end
  /\ (forall c, caption_of (completion_json c) = Ok c)
  /\ caption_of (VObj [(js "choices", VArr [])]) = Ok VUndef
  /\ caption_of (VObj [(js "error", VStr (js "overloaded"))]) = Raise TypeError.
Proof.
  intros Ha Hp Hk Hok Hjson.
  set (expected := match caption_of data with
                   | Ok caption =>
                       if truthy caption then send (VObj [(js "caption", caption)])
                       else status_send 500 (js "No caption found")
                   | Raise _ => status_send 500 INTERNAL_SERVER_ERROR
                   end).
  set (P := fun x : Outcome Reply * State =>
              st_io (snd x) = [Called (mkCall POST target)] /\ fst x = Ret expected).
  assert (HP : P (run (caption_image readSecret (mkRequest url (VObj ms))) (always r))).
  { assert (Hkey : truthy (if is_string api (js "openrouter") then readSecret OPENROUTER
                           else if is_string api (js "openai") then readSecret OPENAI
                                else VStr []) = true
                   /\ (if is_string api (js "openai") then Some OPENAI_CHAT_URL
                       else if is_string api (js "openrouter") then Some OPENROUTER_CHAT_URL
                            else None) = Some target).
    { unfold provider_of in Hp.
      destruct (is_string api (js "openai")) eqn:E1.
      - injection Hp as <- <-.
        destruct (is_string api (js "openrouter")) eqn:E2; [|auto].
        exfalso. destruct api; try discriminate E1.
        cbn [is_string] in E1, E2. unfold jsstring_eqb in E1, E2.
        destruct (list_eq_dec N.eq_dec s (js "openai")); [|discriminate E1].
        subst s. discriminate E2.
      - destruct (is_string api (js "openrouter")) eqn:E2; [|discriminate Hp].
        injection Hp as <- <-. auto. }
    destruct Hkey as [Hkey Hurl].
    destruct (get_object_member ms (js "model")) as [model Hm].
    destruct (get_object_member ms PROMPT) as [prompt Hpr].
    destruct (get_object_member ms (js "image")) as [image Hi].
    unfold run, caption_image, try_catch. cbn [req_body].
    unfold bind at 1. rewrite Ha. cbn [lift]. rewrite Hkey. cbn [negb].
    unfold bind at 1. rewrite Hm. cbn [lift].
    unfold bind at 1. rewrite Hpr. cbn [lift].
    unfold bind at 1. rewrite Hi. cbn [lift].
    cbv zeta. rewrite Hurl.
    unfold fetch, fetch_start, await, json, new_URL, internal_server_error,
      console, bind, ret, throw, always.
    cbn beta iota. rewrite Hok, Hjson. cbn [negb lift].
    unfold P, expected.
    destruct (caption_of data) as [caption|err]; cbn [lift fst snd st_io];
      [destruct (truthy caption)|]; cbn [negb fst snd st_io app initial_state];
      split; reflexivity. }
  destruct HP as [Hio Hout].
  split; [exact Hio|]. split; [exact Hout|].
  repeat split.
Qed.

Lemma caption_image_result_witness :
  outcome_of (caption_image (fun _ => VStr (js "sk-key"))
                (mkRequest None (VObj [(js "api", VStr (js "openrouter"))])))
             (always (ok_json (completion_json (VStr (js "a cat")))))
  = Ret (send (VObj [(js "caption", VStr (js "a cat"))])).
Proof.
  destruct (caption_image_result (fun _ => VStr (js "sk-key")) None
              [(js "api", VStr (js "openrouter"))] (VStr (js "openrouter"))
              OPENROUTER OPENROUTER_CHAT_URL
              (ok_json (completion_json (VStr (js "a cat"))))
              (completion_json (VStr (js "a cat")))
              eq_refl eq_refl eq_refl eq_refl eq_refl) as [_ [Hout _]].
  rewrite Hout. reflexivity.
Defined.



(** ** Lists relayed from the backends *)

Lemma get_raises_on_nullish (x : value) (k : jsstring) (e : Err) :
  get x k = Raise e -> is_nullish x = true.
Proof.
  destruct x; cbn [get is_nullish]; try reflexivity; try discriminate.
  - destruct (jsstring_eqb k LENGTH); [discriminate|].
    destruct (at_index_key s k); discriminate.
  - destruct (jsstring_eqb k LENGTH); [discriminate|].
    destruct (at_index_key xs k); discriminate.
  - destruct (assoc k members); discriminate.
Qed.

Lemma traverse_names (xs : list value) :
  forallb (fun x => negb (is_nullish x)) xs = true ->
  traverse (fun x => get x NAME) xs = Ok (List.map name_of xs).
Proof.
  induction xs as [|x t IH]; [reflexivity|].
  cbn [forallb]. intro H. apply andb_prop in H. destruct H as [Hx Ht].
  cbn [traverse List.map]. rewrite (IH Ht). unfold name_of.
  destruct (get x NAME) as [n|e] eqn:E; [reflexivity|].
  rewrite (get_raises_on_nullish x NAME e E) in Hx. discriminate Hx.
Qed.

Lemma traverse_raises {A B : Type} (g : A -> Result B) (xs : list A) (x : A) (e : Err) :
  In x xs -> g x = Raise e -> exists e', traverse g xs = Raise e'.
Proof.
  intros Hin Hx. induction xs as [|y t IH]; [contradiction|].
  cbn [traverse]. destruct Hin as [->|Hin].
  - rewrite Hx. eexists; reflexivity.
  - destruct (g y); [|eexists; reflexivity].
    destruct (IH Hin) as [e' ->]. eexists; reflexivity.
Qed.

Lemma sd_samplers_run (u : URL) (body : value) (r : Response) (data : value) :
  ok r = true -> body_json r = Some data ->
  outcome_of (sd_samplers (mkRequest (Some u) body)) (always r)
  = Ret match data with
        | VArr xs => match traverse (fun x => get x NAME) xs with
                     | Ok names => send (VArr names)
                     | Raise _ => sendStatus 500
                     end
        | _ => sendStatus 500
        end.
Proof.
  intros Hok Hjson. run_handler. unfold always. rewrite Hok. run_handler.
  rewrite Hjson. run_handler.
  destruct data; try reflexivity.
  cbn [array_map]. rewrite (mapM_lift _ (fun x => get x NAME)) by reflexivity.
  destruct (traverse _ xs); reflexivity.
Qed.

(** X16: on a 2xx answer the samplers handler sends the [name] of every
    entry, in the order of the answer, [undefined] standing for an entry
    without a name; if an entry is [null], or the body is not an array, it
    sends 500 and no list at all. *)
Theorem sd_samplers_names_or_500 (u : URL) (body : value) (r : Response) (data : value) :
  ok r = true -> body_json r = Some data ->
  (forall xs, data = VArr xs ->
     forallb (fun x => negb (is_nullish x)) xs = true ->
     outcome_of (sd_samplers (mkRequest (Some u) body)) (always r)
     = Ret (send (VArr (List.map name_of xs))))
  /\ (forall xs, data = VArr xs -> In VNull xs ->
        outcome_of (sd_samplers (mkRequest (Some u) body)) (always r)
        = Ret (sendStatus 500))
  /\ ((forall xs, data <> VArr xs) ->
        outcome_of (sd_samplers (mkRequest (Some u) body)) (always r)
        = Ret (sendStatus 500)).
Proof.
  intros Hok Hjson. rewrite (sd_samplers_run u body r data Hok Hjson).
  repeat split.
  - intros xs -> Hxs. rewrite (traverse_names xs Hxs). reflexivity.
  - intros xs -> Hin.
    destruct (traverse_raises (fun x => get x NAME) xs VNull TypeError Hin eq_refl)
      as [e' ->].
    reflexivity.
  - intro Hna. destruct data; try reflexivity. exfalso. exact (Hna xs eq_refl).
Qed.

Lemma sd_samplers_names_or_500_witness :
  outcome_of (sd_samplers (mkRequest (Some sample_base_url) (VObj [])))
             (always (ok_json (VArr [VObj [(NAME, VStr (js "Euler a"))];
                                     VObj [(js "aliases", VArr [])]])))
  = Ret (send (VArr [VStr (js "Euler a"); VUndef])).
Proof.
  refine (proj1 (sd_samplers_names_or_500 sample_base_url (VObj [])
                   (ok_json (VArr [VObj [(NAME, VStr (js "Euler a"))];
                                   VObj [(js "aliases", VArr [])]]))
                   _ eq_refl eq_refl) _ eq_refl eq_refl).
Defined.

Lemma checkpoints_of_object_info (samplers schedulers checkpoints vaes : list value) :
  get_path (object_info_json samplers schedulers checkpoints vaes)
           [js "CheckpointLoaderSimple"; js "input"; js "required"; js "ckpt_name"; INDEX0]
  = Ok (VArr checkpoints).
Proof. reflexivity. Qed.

(** X17: on the [/object_info] of ComfyUI the samplers, schedulers and
    VAE handlers send the list of choices of their input as it is, and the
    models handler sends one [{ value: name, text: name }] per checkpoint,
    in order; when the node a handler reads is missing from the answer, the
    handler sends 500. *)
Theorem comfy_lists_from_object_info (u : URL) (body : value)
        (samplers schedulers checkpoints vaes : list value) :
  let request := mkRequest (Some u) body in
  let w := always (ok_json (object_info_json samplers schedulers checkpoints vaes)) in
  outcome_of (comfy_samplers request) w = Ret (send (VArr samplers))
  /\ outcome_of (comfy_schedulers request) w = Ret (send (VArr schedulers))
  /\ outcome_of (comfy_vaes request) w = Ret (send (VArr vaes))
  /\ outcome_of (comfy_models request) w
     = Ret (send (VArr (List.map (fun it => VObj [(VALUE, it); (TEXT, it)]) checkpoints)))
  /\ outcome_of (comfy_samplers request) (always (ok_json (VObj []))) = Ret (sendStatus 500)
  /\ outcome_of (comfy_schedulers request) (always (ok_json (VObj []))) = Ret (sendStatus 500)
  /\ outcome_of (comfy_vaes request) (always (ok_json (VObj []))) = Ret (sendStatus 500)
  /\ outcome_of (comfy_models request) (always (ok_json (VObj []))) = Ret (sendStatus 500).
Proof.
  intros request w.
  repeat split; try reflexivity.
  unfold request, w, outcome_of, run, comfy_models, log_and_500, try_catch, fetch,
    fetch_start, await, json, new_URL, console, always.
  unfold bind at 1. cbn [req_url ret]. unfold bind at 1. unfold bind at 1.
  cbn [ret ok ok_json status negb andb N.leb N.ltb N.compare Pos.compare
       Pos.compare_cont body_json].
  unfold bind at 1. cbn [ret]. unfold bind at 1.
  rewrite (checkpoints_of_object_info samplers schedulers checkpoints vaes).
  cbn [lift array_map]. unfold bind at 1.
  rewrite (mapM_lift _ (fun it => Ok (VObj [(VALUE, it); (TEXT, it)]))) by reflexivity.
  replace (traverse _ checkpoints)
    with (Ok (A := list value)
            (List.map (fun it => VObj [(VALUE, it); (TEXT, it)]) checkpoints));
    [reflexivity|].
  induction checkpoints as [|c t IH]; [reflexivity|].
  cbn [traverse List.map]. rewrite <- IH. reflexivity.
Qed.

(** X18: the upscalers handler puts the latent upscalers after the first
    regular upscaler whatever that one is called, and at the front when
    the regular list is empty: all [N + M] names are sent, each list in its
    own order. *)
Theorem upscalers_splice_any_lists (u : URL) (body : value)
        (regular latent : list jsstring) :
  outcome_of (sd_upscalers (mkRequest (Some u) body)) (upscalers_backend regular latent)
  = Ret (send (VArr (List.map VStr (firstn 1 regular ++ latent ++ skipn 1 regular))))
  /\ List.length (firstn 1 regular ++ latent ++ skipn 1 regular)
     = List.length regular + List.length latent
  /\ (regular = [] -> firstn 1 regular ++ latent ++ skipn 1 regular = latent).
Proof.
  split; [|split].
  - run_handler. rewrite names_of_upscalers. run_handler.
    rewrite names_of_upscalers. run_handler.
    unfold splice_insert.
    destruct regular as [|first rest]; cbn [List.map firstn skipn app];
      rewrite ?List.map_app; reflexivity.
  - rewrite !length_app.
    pose proof (firstn_skipn 1 regular) as H.
    apply (f_equal (@List.length jsstring)) in H. rewrite length_app in H. lia.
  - intros ->. cbn. apply app_nil_r.
Qed.

(** X19: the upscalers handler issues both of its calls whatever the
    backend answers, and when either of them fails it sends 500 and no
    partial list. *)
Theorem upscalers_both_calls_or_500 (u : URL) (body : value) (w : Backend) :
  let c0 := mkCall GET (set_pathname u sdapi_v1_upscalers) in
  let c1 := mkCall GET (set_pathname u sdapi_v1_latent_upscale_modes) in
  io_of (sd_upscalers (mkRequest (Some u) body)) w = [Called c0; Called c1]
  /\ (failed (w 0 c0) = true \/ failed (w 1 c1) = true ->
      outcome_of (sd_upscalers (mkRequest (Some u) body)) w = Ret (sendStatus 500)).
Proof.
  intros c0 c1. subst c0 c1. split.
  - explore; reflexivity.
  - explore; intros [H|H];
      repeat match goal with
             | E : w _ _ = _ |- _ => rewrite E in H; clear E
             end;
      cbn [failed] in H; first [reflexivity | congruence].
Qed.

(** ** The set-model handler off the expected path *)

(** X20: when the model-switch POST fails (rejected, or answered with a
    status that is not 2xx), the set-model handler answers 500 after that
    one call: it neither polls the progress endpoint nor waits. *)
Theorem sd_set_model_post_failure (nts : Q -> jsstring) (stn : jsstring -> option Q)
        (u : URL) (body : value) (w : Backend) :
  let c0 := mkCall POST (set_pathname u sdapi_v1_options) in
  failed (w 0 c0) = true ->
  outcome_of (sd_set_model nts stn (mkRequest (Some u) body)) w = Ret (sendStatus 500)
  /\ io_of (sd_set_model nts stn (mkRequest (Some u) body)) w = [Called c0].
Proof.
  intros c0 Hf. subst c0. run_handler.
  destruct (w 0 _) as [|r]; cbn [failed] in Hf.
  - split; reflexivity.
  - run_handler. rewrite Hf. split; reflexivity.
Qed.

Lemma sd_set_model_post_failure_witness :
  outcome_of (sd_set_model (fun _ => []) (fun _ => None)
                (mkRequest (Some sample_base_url) (VObj [])))
             (always not_found) = Ret (sendStatus 500)
  /\ io_of (sd_set_model (fun _ => []) (fun _ => None)
              (mkRequest (Some sample_base_url) (VObj [])))
           (always not_found)
     = [Called (mkCall POST (set_pathname sample_base_url sdapi_v1_options))].
Proof.
  apply (sd_set_model_post_failure (fun _ => []) (fun _ => None) sample_base_url
           (VObj []) (always not_found)).
  reflexivity.
Defined.

Lemma wait_for_model_same_json (nts : Q -> jsstring) (stn : jsstring -> option Q)
      (request : Request) (w1 w2 : Backend) (n : nat) :
  (forall k c, same_json (w1 (S k) c) (w2 (S k) c)) ->
  forall st k, st_calls st = S k ->
    wait_for_model nts stn request n w1 st = wait_for_model nts stn request n w2 st.
Proof.
  intro Hsame. induction n as [|n IH]; intros st k Hc; [reflexivity|].
  cbn [wait_for_model]. destruct request as [[u|] body]; [|reflexivity].
  unfold getProgress, fetch, fetch_start, await, json, new_URL, console, delay,
    bind, ret, throw.
  cbn beta iota. cbn [req_url st_calls st_io st_console]. rewrite Hc.
  specialize (Hsame k (mkCall GET (set_pathname u sdapi_v1_progress))).
  destruct (w1 (S k) _) as [|r1], (w2 (S k) _) as [|r2]; cbn [same_json] in Hsame;
    try contradiction; try reflexivity.
  rewrite Hsame. destruct (body_json r2) as [data|]; [|reflexivity].
  destruct (get data PROGRESS) as [progress|e]; cbn [lift]; [|reflexivity].
  destruct (get data STATE) as [state|e]; cbn [lift]; [|reflexivity].
  destruct (get state JOB_COUNT) as [jobCount|e]; cbn [lift]; [|reflexivity].
  destruct (loosely_equals_zero nts stn progress) as [z|e]; cbn [lift]; [|reflexivity].
  destruct (z && strictly_equals_zero jobCount); [reflexivity|].
  destruct (ToString nts progress) as [p|e]; cbn [lift]; [|reflexivity].
  destruct (ToString nts jobCount) as [j|e]; cbn [lift]; [|reflexivity].
  apply (IH _ (S k)). reflexivity.
Qed.

(** X21: the set-model handler never looks at the status of the progress
    answers.  Two backends that answer the POST alike and whose progress
    answers carry the same JSON bodies make it run alike: the same calls,
    waits, console output and reply, whatever the statuses of the progress
    answers are. *)
Theorem sd_set_model_ignores_progress_status (nts : Q -> jsstring)
        (stn : jsstring -> option Q) (request : Request) (w1 w2 : Backend) :
  (forall c, w1 0 c = w2 0 c) ->
  (forall k c, same_json (w1 (S k) c) (w2 (S k) c)) ->
  run (sd_set_model nts stn request) w1 = run (sd_set_model nts stn request) w2.
Proof.
  intros H0 Hsame. destruct request as [[u|] body]; [|reflexivity].
  unfold run, sd_set_model, try_catch, log_and_500, fetch, fetch_start, await, new_URL,
    console, bind, ret, throw.
  cbn beta iota. cbn [req_url initial_state st_calls st_io st_console app].
  rewrite H0. destruct (w2 0 _) as [|r]; [reflexivity|].
  destruct (negb (ok r)); [reflexivity|].
  match goal with
  | |- context [wait_for_model nts stn ?rq MAX_ATTEMPTS w1 ?st] =>
      rewrite (wait_for_model_same_json nts stn rq w1 w2 MAX_ATTEMPTS Hsame st 0 eq_refl)
  end.
  reflexivity.
Qed.

Lemma sd_set_model_ignores_progress_status_witness :
  outcome_of (sd_set_model (fun _ => []) (fun _ => None)
                (mkRequest (Some sample_base_url) (VObj [])))
             (set_model_backend_with_status 503 idle_reports)
  = Ret (sendStatus 200).
Proof.
  unfold outcome_of.
  rewrite <- (sd_set_model_ignores_progress_status (fun _ => []) (fun _ => None)
                (mkRequest (Some sample_base_url) (VObj []))
                (set_model_backend idle_reports)
                (set_model_backend_with_status 503 idle_reports)
                (fun _ => eq_refl) (fun _ _ => eq_refl)).
  reflexivity.
Defined.

Lemma wait_for_model_until_rejected (nts : Q -> jsstring) (stn : jsstring -> option Q)
      (u : URL) (body : value) (reports : nat -> Q * Q) (k m : nat) :
  let progressUrl := set_pathname u sdapi_v1_progress in
  forall d i st,
    st_calls st = S i -> i + d = k ->
    (forall j, i <= j -> j < k -> is_idle (reports j) = false) ->
    exists con,
      wait_for_model nts stn (mkRequest (Some u) body) (d + S m)
        (set_model_backend_until k reports) st
      = (Throw FetchError,
         mkState (S (S k))
           (st_io st ++ busy_rounds progressUrl d ++ [Called (mkCall GET progressUrl)])
           con).
Proof.
  intro progressUrl. induction d as [|d IH]; intros i st Hc Hk Hbusy.
  - exists (st_console st). cbn [Nat.add wait_for_model].
    unfold getProgress, fetch, fetch_start, await, json, new_URL, bind, ret, throw.
    cbn beta iota. cbn [req_url st_calls st_io st_console]. rewrite Hc.
    cbn [set_model_backend_until].
    replace (i <? k) with false by (symmetry; apply Nat.ltb_ge; lia).
    replace i with k by lia. reflexivity.
  - cbn [Nat.add wait_for_model].
    unfold getProgress, fetch, fetch_start, await, json, new_URL, bind, ret, throw.
    cbn beta iota. cbn [req_url st_calls st_io st_console]. rewrite Hc.
    cbn [set_model_backend_until].
    replace (i <? k) with true by (symmetry; apply Nat.ltb_lt; lia).
    cbn [ok_json body_json]. rewrite get_progress. cbn [lift].
    rewrite get_state. cbn [lift]. rewrite get_job_count. cbn [lift].
    cbn [loosely_equals_zero strictly_equals_zero lift].
    pose proof (Hbusy i ltac:(lia) ltac:(lia)) as Hi. unfold is_idle in Hi.
    rewrite Hi. cbn [ToString lift]. unfold console, delay.
    cbn beta iota. cbn [st_calls st_io st_console].
    match goal with
    | |- context [wait_for_model _ _ _ _ _ ?st2] =>
        destruct (IH (S i) st2 eq_refl ltac:(lia)
                    ltac:(intros j H1 H2; apply Hbusy; lia)) as [con Hcon]
    end.
    exists con.
    unfold getProgress, fetch, fetch_start, await, json, new_URL, bind, ret, throw in Hcon.
    rewrite Hcon. cbn [st_io busy_rounds]. rewrite <- !app_assoc. reflexivity.
Qed.

(** X22: when the progress endpoint stops answering while the model is
    still loading (after [k < 10] reports that are not idle), the set-model
    handler answers 500 although the switch itself was accepted, and polls
    no further. *)
Theorem sd_set_model_progress_unreachable (nts : Q -> jsstring)
        (stn : jsstring -> option Q) (u : URL) (body : value)
        (reports : nat -> Q * Q) (k : nat) :
  k < 10 ->
  (forall j, j < k -> is_idle (reports j) = false) ->
  let h := sd_set_model nts stn (mkRequest (Some u) body) in
  let progressUrl := set_pathname u sdapi_v1_progress in
  outcome_of h (set_model_backend_until k reports) = Ret (sendStatus 500)
  /\ io_of h (set_model_backend_until k reports)
     = Called (mkCall POST (set_pathname u sdapi_v1_options))
       :: busy_rounds progressUrl k ++ [Called (mkCall GET progressUrl)].
Proof.
  intros Hk Hbusy h progressUrl.
  destruct (wait_for_model_until_rejected nts stn u body reports k (9 - k) k 0
              (mkState 1 [Called (mkCall POST (set_pathname u sdapi_v1_options))] [])
              eq_refl eq_refl ltac:(intros j _ Hj; apply Hbusy; exact Hj))
    as [con Hcon].
  replace (k + S (9 - k)) with MAX_ATTEMPTS in Hcon by (unfold MAX_ATTEMPTS; lia).
  unfold h, outcome_of, io_of, run, sd_set_model, try_catch, log_and_500, fetch,
    fetch_start, await, new_URL, console, bind, ret, throw.
  cbn beta iota. cbn [req_url initial_state st_calls st_io st_console app
                      set_model_backend_until ok ok_json status negb andb N.leb N.ltb
                      N.compare Pos.compare Pos.compare_cont].
  rewrite Hcon. cbn [fst snd st_io app]. split; reflexivity.
Qed.

Lemma sd_set_model_progress_unreachable_witness :
  outcome_of (sd_set_model (fun _ => []) (fun _ => None)
                (mkRequest (Some sample_base_url) (VObj [])))
             (set_model_backend_until 2 busy_reports_forever)
  = Ret (sendStatus 500).
Proof.
  refine (proj1 (sd_set_model_progress_unreachable (fun _ => []) (fun _ => None)
                   sample_base_url (VObj []) busy_reports_forever 2 _ _)).
  - repeat constructor.
  - intros j _. reflexivity.
Defined.

(** ** The generation flow off the expected path *)

(** X23: an explicit failure of a history poll ends the flow: when the
    job is in none of the first [n] snapshots and the next poll is rejected
    or answered with a status that is not 2xx, the generate handler answers
    500 after that poll; it does not poll again and fetches no image.  (The
    job id is one that names no member of [Object.prototype]; on another
    one the loop ends with the first snapshot.) *)
Theorem comfy_generate_poll_failure (nts : Q -> jsstring) (u : URL) (body : value)
        (id : jsstring) (snapshots : nat -> History) (n : nat) (f : Fetched)
        (fuel : nat) :
  object_inherits id = false ->
  (forall j, j < n -> has_job id (snapshots j) = false) ->
  failed f = true ->
  n < fuel ->
  let h := comfy_generate nts fuel (mkRequest (Some u) body) in
  let historyUrl := set_pathname u comfy_history in
  outcome_of h (comfy_backend_failing id snapshots n f) = Ret (sendStatus 500)
  /\ io_of h (comfy_backend_failing id snapshots n f)
     = Called (mkCall POST (set_pathname u comfy_prompt))
       :: absent_rounds historyUrl n ++ [Called (mkCall GET historyUrl)].
Proof.
  intros Hid Habs Hf Hfuel h historyUrl. subst h historyUrl.
  replace fuel with (n + S (fuel - S n)) by lia.
  unfold outcome_of, io_of.
  rewrite (comfy_generate_run_on nts u body (comfy_backend_failing id snapshots n f) _
             (ok_json (VObj [(PROMPT_ID, VStr id)])) (VObj [(PROMPT_ID, VStr id)])
             (VStr id) eq_refl eq_refl eq_refl eq_refl).
  rewrite (poll_history_turns nts u (comfy_backend_failing id snapshots n f)
             (VStr id) id n eq_refl
             (fun j => List.map (fun je => (fst je, job_json (snd je))) (snapshots j))).
  - cbn [st_calls st_io st_console].
    destruct (poll_history_turn_failed nts u (comfy_backend_failing id snapshots n f)
                (VStr id) (fuel - S n)
                (mkState (1 + n)
                   ([Called (mkCall POST (set_pathname u comfy_prompt))]
                    ++ absent_rounds (set_pathname u comfy_history) n) []))
      as [e He].
    + cbn [st_calls Nat.add comfy_backend_failing]. rewrite Nat.ltb_irrefl. exact Hf.
    + rewrite He. cbn [fst snd st_io app]. split; reflexivity.
  - intros j Hj. cbn [st_calls Nat.add comfy_backend_failing].
    replace (j <? n) with true by (symmetry; apply Nat.ltb_lt; exact Hj).
    split; [reflexivity|].
    rewrite (present_history_json id (snapshots j) Hid). apply Habs; exact Hj.
Qed.

Lemma comfy_generate_poll_failure_witness :
  outcome_of (comfy_generate (fun _ => []) 5 (mkRequest (Some sample_comfy_url) (VObj [])))
             (comfy_backend_failing abc123 scenario_snapshots 2 (Answered not_found))
  = Ret (sendStatus 500).
Proof.
  refine (proj1 (comfy_generate_poll_failure (fun _ => []) sample_comfy_url (VObj [])
                   abc123 scenario_snapshots 2 (Answered not_found) 5 eq_refl _ eq_refl _)).
  - intros [|[|j]] Hj; [reflexivity|reflexivity|].
    exfalso. apply (Nat.lt_irrefl 2).
    apply (Nat.le_lt_trans _ (S (S j))); [apply le_n_S, le_n_S, Nat.le_0_l|exact Hj].
  - repeat constructor.
Defined.

(** X24: a submission answered 2xx without [prompt_id] is not noticed:
    the handler polls the history for the key "undefined", and as long as
    no snapshot has that key it keeps polling, a wait of 100 after every
    poll, without ever answering. *)
Theorem comfy_generate_missing_prompt_id (nts : Q -> jsstring) (u : URL) (body : value)
        (ms : list (jsstring * value)) (snapshots : nat -> History) (fuel : nat) :
  assoc PROMPT_ID ms = None ->
  (forall n, has_job UNDEFINED (snapshots n) = false) ->
  let h := comfy_generate nts fuel (mkRequest (Some u) body) in
  outcome_of h (comfy_backend_submission (VObj ms) snapshots) = Fuel
  /\ io_of h (comfy_backend_submission (VObj ms) snapshots)
     = Called (mkCall POST (set_pathname u comfy_prompt))
       :: absent_rounds (set_pathname u comfy_history) fuel.
Proof.
  intros Hms Habs h. subst h. unfold outcome_of, io_of.
  rewrite (comfy_generate_run_on nts u body (comfy_backend_submission (VObj ms) snapshots)
             _ (ok_json (VObj ms)) (VObj ms) VUndef eq_refl eq_refl eq_refl)
    by (cbn [get]; rewrite Hms; reflexivity).
  rewrite <- (Nat.add_0_r fuel) at 1 2.
  rewrite (poll_history_turns nts u (comfy_backend_submission (VObj ms) snapshots)
             VUndef UNDEFINED fuel eq_refl
             (fun j => List.map (fun je => (fst je, job_json (snd je))) (snapshots j))).
  - cbn [poll_history out_of_fuel fst snd st_io app]. split; reflexivity.
  - intros j Hj. split; [reflexivity|].
    rewrite (present_history_json UNDEFINED (snapshots j) eq_refl). apply Habs.
Qed.

Lemma comfy_generate_missing_prompt_id_witness :
  outcome_of (comfy_generate (fun _ => []) 7 (mkRequest (Some sample_comfy_url) (VObj [])))
             (comfy_backend_submission (VObj [(js "error", VStr (js "invalid prompt"))])
                scenario_snapshots)
  = Fuel.
Proof.
  refine (proj1 (comfy_generate_missing_prompt_id (fun _ => []) sample_comfy_url (VObj [])
                   [(js "error", VStr (js "invalid prompt"))] scenario_snapshots 7
                   eq_refl _)).
  intros [|[|n]]; reflexivity.
Defined.

(** *** The asset of a job *)

Lemma jsstring_eqb_neq (a b : jsstring) : a <> b -> jsstring_eqb a b = false.
Proof. intro H. unfold jsstring_eqb. destruct (list_eq_dec N.eq_dec a b); congruence. Qed.

Lemma insert_by_index_in {A : Type} (n : N) (e : A) (l : list (N * A)) (x : N * A) :
  In x (insert_by_index n e l) -> x = (n, e) \/ In x l.
Proof.
  induction l as [|[m e'] t IH]; cbn [insert_by_index].
  - intros [H|[]]. left. symmetry. exact H.
  - destruct (n <? m)%N.
    + intros [H|H]; [left; symmetry; exact H|right; exact H].
    + intros [H|H]; [right; left; exact H|].
      destruct (IH H) as [E|Hin]; [left; exact E|right; right; exact Hin].
Qed.

Lemma enumerate_incl {A : Type} (ms : list (jsstring * A)) (e : jsstring * A) :
  In e (enumerate ms) -> In e ms.
Proof.
  unfold enumerate. intro H. apply in_app_or in H. destruct H as [H|H].
  - apply in_map_iff in H. destruct H as [[n e'] [E H]]. cbn [snd] in E. subst e'.
    assert (G : forall l acc,
              In (n, e) (fold_left (fun acc e => match array_index (fst e) with
                                                 | Some n => insert_by_index n e acc
                                                 | None => acc
                                                 end) l acc) ->
              In (n, e) acc \/ In e l).
    { induction l as [|x l IH]; intros acc Hin; cbn [fold_left] in Hin.
      - left. exact Hin.
      - destruct (IH _ Hin) as [Hacc|Hl]; [|right; right; exact Hl].
        destruct (array_index (fst x)); [|left; exact Hacc].
        destruct (insert_by_index_in _ _ _ _ Hacc) as [E|Hacc'].
        + right. left. injection E as _ ->. reflexivity.
        + left. exact Hacc'. }
    destruct (G ms [] H) as [[]|Hin]. exact Hin.
  - apply filter_In in H. exact (proj1 H).
Qed.

Lemma insert_by_index_map {A B : Type} (f : A -> B) (n : N) (e : A) (l : list (N * A)) :
  insert_by_index n (f e) (List.map (fun x => (fst x, f (snd x))) l)
  = List.map (fun x => (fst x, f (snd x))) (insert_by_index n e l).
Proof.
  induction l as [|[m e'] t IH]; [reflexivity|].
  cbn [List.map insert_by_index fst snd].
  destruct (n <? m)%N; [reflexivity|].
  cbn [List.map fst snd]. rewrite IH. reflexivity.
Qed.

(** The order of enumeration depends on the keys alone. *)
Lemma enumerate_map {A B : Type} (f : A -> B) (ms : list (jsstring * A)) :
  enumerate (List.map (fun e => (fst e, f (snd e))) ms)
  = List.map (fun e => (fst e, f (snd e))) (enumerate ms).
Proof.
  unfold enumerate. rewrite List.map_app. f_equal.
  - rewrite List.map_map.
    assert (G : forall l acc,
              fold_left (fun acc e => match array_index (fst e) with
                                      | Some n => insert_by_index n e acc
                                      | None => acc
                                      end)
                        (List.map (fun e : jsstring * A => (fst e, f (snd e))) l)
                        (List.map (fun x : N * (jsstring * A) =>
                                     (fst x, (fst (snd x), f (snd (snd x))))) acc)
              = List.map (fun x : N * (jsstring * A) =>
                            (fst x, (fst (snd x), f (snd (snd x)))))
                         (fold_left (fun acc e => match array_index (fst e) with
                                                  | Some n => insert_by_index n e acc
                                                  | None => acc
                                                  end) l acc)).
    { induction l as [|x l IH]; intro acc; [reflexivity|].
      cbn [List.map fold_left fst]. destruct (array_index (fst x)) as [n|]; [|apply IH].
      rewrite <- IH. f_equal.
      exact (insert_by_index_map (fun e : jsstring * A => (fst e, f (snd e))) n x acc). }
    pose proof (G ms []) as Gms. cbn [List.map] in Gms.
    rewrite Gms, List.map_map. reflexivity.
  - induction ms as [|x l IH]; [reflexivity|].
    cbn [List.map filter fst]. destruct (array_index (fst x)); [exact IH|].
    cbn [List.map]. rewrite IH. reflexivity.
Qed.

Lemma assoc_node (o : JobOutputs) (k : jsstring) (images : list Image) :
  NoDup (List.map fst o) -> In (k, images) o ->
  assoc k (List.map (fun ni => (fst ni, node_json (snd ni))) o) = Some (node_json images).
Proof.
  induction o as [|[k' imgs'] o IH]; intros Hnd Hin; [contradiction|].
  cbn [List.map fst snd assoc] in *. inversion Hnd as [|? ? Hnotin Hnd']; subst.
  destruct Hin as [E|Hin].
  - injection E as -> ->. rewrite jsstring_eqb_refl. reflexivity.
  - rewrite jsstring_eqb_neq; [exact (IH Hnd' Hin)|].
    intros ->. apply Hnotin. apply (in_map fst) in Hin. exact Hin.
Qed.

Lemma images_of_nodes (o : JobOutputs) :
  NoDup (List.map fst o) ->
  traverse (fun it => get_path (VObj (List.map (fun ni => (fst ni, node_json (snd ni))) o))
                               [it; IMAGES])
           (List.map fst (enumerate o))
  = Ok (List.map (fun ni => VArr (List.map image_json (snd ni))) (enumerate o)).
Proof.
  intro Hnd.
  assert (H : forall l, incl l o ->
            traverse (fun it => get_path
                                  (VObj (List.map (fun ni => (fst ni, node_json (snd ni))) o))
                                  [it; IMAGES])
                     (List.map fst l)
            = Ok (List.map (fun ni => VArr (List.map image_json (snd ni))) l)).
  { induction l as [|[k images] l IH]; intro Hl; [reflexivity|].
    cbn [List.map traverse fst snd].
    rewrite IH by (intros x Hx; apply Hl; right; exact Hx).
    assert (E : get_path (VObj (List.map (fun ni => (fst ni, node_json (snd ni))) o))
                         [k; IMAGES]
                = Ok (VArr (List.map image_json images))).
    { cbn [get_path get].
      rewrite (assoc_node o k images Hnd) by (apply Hl; left; reflexivity).
      reflexivity. }
    rewrite E. reflexivity. }
  apply H. intros e He. apply enumerate_incl. exact He.
Qed.

Lemma flat_images (o : JobOutputs) :
  flat (List.map (fun ni => VArr (List.map image_json (snd ni))) o)
  = List.map image_json (List.concat (List.map snd o)).
Proof.
  unfold flat. induction o as [|[k images] o IH]; [reflexivity|].
  cbn [List.map flat_map List.concat snd]. rewrite IH, List.map_app. reflexivity.
Qed.

Lemma get_first (l : list value) :
  get (VArr l) INDEX0 = Ok match l with x :: _ => x | [] => VUndef end.
Proof. destruct l; reflexivity. Qed.

Lemma fetch_first_image_of_job (nts : Q -> jsstring) (u : URL) (body : value)
      (w : Backend) (o : JobOutputs) (st : State) :
  NoDup (List.map fst o) ->
  fetch_first_image nts (mkRequest (Some u) body) (Data (job_json o)) w st
  = match List.concat (List.map snd (enumerate o)) with
    | [] => (Throw TypeError, st)
    | i :: _ =>
        let c := mkCall GET (set_search (set_pathname u comfy_view) (asset_search i)) in
        let st' := mkState (S (st_calls st)) (st_io st ++ [Called c]) (st_console st) in
        match w (st_calls st) c with
        | Rejected => (Throw FetchError, st')
        | Answered r =>
            if ok r then (Ret (mkReply 200 (Base64 (body_bytes r))), st')
            else (Throw COMFYUI_ERROR, st')
        end
    end.
Proof.
  intro Hnd. unfold fetch_first_image.
  change (outputs_of (Data (job_json o)))
    with (Ok (A := value)
            (VObj (List.map (fun ni => (fst ni, node_json (snd ni))) o))).
  unfold bind at 1. cbn [lift Object_keys]. unfold bind at 1. cbn [lift].
  rewrite (enumerate_map node_json o), List.map_map. cbn [fst].
  change (List.map (fun x : jsstring * list Image => fst x) (enumerate o))
    with (List.map fst (enumerate o)).
  unfold bind at 1.
  rewrite (mapM_lift _ (fun it => get_path
                                    (VObj (List.map (fun ni => (fst ni, node_json (snd ni))) o))
                                    [it; IMAGES]))
    by reflexivity.
  rewrite (images_of_nodes o Hnd). cbn [lift].
  unfold bind at 1. rewrite flat_images, get_first.
  destruct (List.concat (List.map snd (enumerate o))) as [|i rest]; cbn [List.map lift].
  - reflexivity.
  - unfold fetch, fetch_start, await, new_URL, bind, ret, throw.
    cbn beta iota. cbn [req_url]. unfold image_json.
    change (get (VObj ?m) FILENAME) with (Ok (A := value) (VStr (img_filename i))).
    change (get (VObj ?m) SUBFOLDER) with (Ok (A := value) (VStr (img_subfolder i))).
    change (get (VObj ?m) TYPE) with (Ok (A := value) (VStr (img_type i))).
    cbn [lift ToString]. fold (asset_search i).
    destruct (w (st_calls st) _) as [|r]; [reflexivity|].
    destruct (ok r); reflexivity.
Qed.

Lemma seen_before_false (id : jsstring) (snapshots : nat -> History) (i : nat) :
  (forall j, j < i -> has_job id (snapshots j) = false) ->
  seen_before id snapshots i = false.
Proof.
  intro H. unfold seen_before.
  apply not_true_is_false. intro E. apply existsb_exists in E.
  destruct E as [j [Hin Hj]]. apply in_seq in Hin.
  rewrite H in Hj by lia. discriminate Hj.
Qed.

Lemma seen_before_true (id : jsstring) (snapshots : nat -> History) (i j : nat) :
  j < i -> has_job id (snapshots j) = true -> seen_before id snapshots i = true.
Proof.
  intros Hj H. unfold seen_before. apply existsb_exists.
  exists j. split; [apply in_seq; lia|exact H].
Qed.

Lemma comfy_generate_on_job (nts : Q -> jsstring) (u : URL) (body : value)
      (id : jsstring) (snapshots : nat -> History) (img : list N)
      (n fuel : nat) (o : JobOutputs) :
  object_inherits id = false ->
  job_of id (snapshots n) = Some o ->
  (forall j, j < n -> has_job id (snapshots j) = false) ->
  n < fuel ->
  run (comfy_generate nts fuel (mkRequest (Some u) body)) (comfy_backend id snapshots img)
  = match fetch_first_image nts (mkRequest (Some u) body) (Data (job_json o))
            (comfy_backend id snapshots img)
            (mkState (S (S n))
               (Called (mkCall POST (set_pathname u comfy_prompt))
                :: absent_rounds (set_pathname u comfy_history) n
                ++ [Called (mkCall GET (set_pathname u comfy_history))]) []) with
    | (Ret reply, st') => (Ret reply, st')
    | (Throw _, st') => (Ret (sendStatus 500), st')
    | (Fuel, st') => (Fuel, st')
    end.
Proof.
  intros Hid Hjob Habs Hfuel.
  replace fuel with (n + S (fuel - S n)) by lia.
  rewrite (comfy_generate_run_on nts u body (comfy_backend id snapshots img) _
             (ok_json (VObj [(PROMPT_ID, VStr id)])) (VObj [(PROMPT_ID, VStr id)])
             (VStr id) eq_refl eq_refl eq_refl eq_refl).
  rewrite (poll_history_turns nts u (comfy_backend id snapshots img)
             (VStr id) id n eq_refl
             (fun j => List.map (fun je => (fst je, job_json (snd je))) (snapshots j))).
  - rewrite (poll_history_turn nts u (comfy_backend id snapshots img) (VStr id) id
               (List.map (fun je => (fst je, job_json (snd je))) (snapshots n))
               (fuel - S n) _
               (ok_json (history_json (snapshots n))) eq_refl).
    + cbv zeta.
      rewrite (present_history_json id (snapshots n) Hid), has_job_job_of, Hjob.
      rewrite (object_member_history_json id (snapshots n) o Hjob).
      cbn [st_calls st_io st_console Nat.add app].
      reflexivity.
    + cbn [st_calls Nat.add comfy_backend].
      rewrite (seen_before_false id snapshots n Habs). reflexivity.
    + reflexivity.
    + reflexivity.
  - intros j Hj. cbn [st_calls Nat.add comfy_backend].
    rewrite (seen_before_false id snapshots j)
      by (intros i Hi; apply Habs; lia).
    split; [reflexivity|].
    rewrite (present_history_json id (snapshots j) Hid). apply Habs; exact Hj.
Qed.

Lemma concat_enumerate_nil (o : JobOutputs) :
  List.concat (List.map snd o) = [] -> List.concat (List.map snd (enumerate o)) = [].
Proof.
  intro H.
  assert (Hall : forall ni, In ni o -> snd ni = []).
  { induction o as [|[k images] o IH]; intros ni Hin; [contradiction|].
    cbn [List.map List.concat snd] in H. apply app_eq_nil in H. destruct H as [H1 H2].
    destruct Hin as [<-|Hin]; [exact H1|exact (IH H2 ni Hin)]. }
  assert (G : forall l : JobOutputs, (forall ni, In ni l -> snd ni = []) ->
                                     List.concat (List.map snd l) = []).
  { induction l as [|ni l IH]; intro Hl; [reflexivity|].
    cbn [List.map List.concat]. rewrite (Hl ni (or_introl eq_refl)).
    apply IH. intros x Hx. apply Hl. right. exact Hx. }
  apply G. intros ni Hin. apply Hall. apply enumerate_incl. exact Hin.
Qed.

(** X25: one asset per job, the first in the order of [Object.keys].
    When the job first shows in snapshot [n] and the images of its output
    nodes, taken node after node in the order of enumeration (the nodes
    whose id is an array index first, by ascending index, then the other
    ones as they are listed), begin with [i], the generate handler fetches
    exactly that image: one GET of [/view] whose [search] was assigned
    from the three fields of [i], after [n + 1] polls.  It sends the bytes
    it gets as base64 text with status 200 and ignores every other image
    of the job.  (The job id names no member of [Object.prototype], and the
    node ids are distinct, as the keys of an object are.) *)
Theorem comfy_generate_fetches_first_image (nts : Q -> jsstring) (u : URL)
        (body : value) (id : jsstring) (snapshots : nat -> History) (img : list N)
        (n fuel : nat) (o : JobOutputs) (i : Image) (others : list Image) :
  object_inherits id = false ->
  job_of id (snapshots n) = Some o ->
  (forall j, j < n -> has_job id (snapshots j) = false) ->
  NoDup (List.map fst o) ->
  List.concat (List.map snd (enumerate o)) = i :: others ->
  n < fuel ->
  let h := comfy_generate nts fuel (mkRequest (Some u) body) in
  let historyUrl := set_pathname u comfy_history in
  let imgUrl := set_search (set_pathname u comfy_view) (asset_search i) in
  (outcome_of h (comfy_backend id snapshots img) = Ret (mkReply 200 (Base64 img))
   /\ io_of h (comfy_backend id snapshots img)
      = Called (mkCall POST (set_pathname u comfy_prompt))
        :: absent_rounds historyUrl n
        ++ [Called (mkCall GET historyUrl); Called (mkCall GET imgUrl)])
  /\ (forall a b c : list Image,
        enumerate [(js "9", a); (js "k", b); (js "10", c); (js "3", a)]
        = [(js "3", a); (js "9", a); (js "10", c); (js "k", b)]).
Proof.
  intros Hid Hjob Habs Hnd Himgs Hfuel h historyUrl imgUrl. subst h historyUrl imgUrl.
  split; [|intros a b c; reflexivity].
  unfold outcome_of, io_of.
  rewrite (comfy_generate_on_job nts u body id snapshots img n fuel o Hid Hjob Habs Hfuel).
  rewrite (fetch_first_image_of_job nts u body _ o _ Hnd), Himgs.
  cbv zeta. cbn [st_calls comfy_backend].
  assert (Hseen : seen_before id snapshots (S n) = true).
  { apply (seen_before_true id snapshots (S n) n); [lia|].
    rewrite has_job_job_of, Hjob. reflexivity. }
  rewrite Hseen. cbn [ok ok_bytes status andb N.leb N.ltb N.compare Pos.compare
                      Pos.compare_cont body_bytes fst snd st_io].
  split; [reflexivity|].
  cbn [app]. rewrite <- app_assoc. reflexivity.
Qed.

(** X26: a job without any image gives 500: when the job first shows in
    snapshot [n] and none of its output nodes has an image, the generate
    handler answers 500 after poll [n + 1] and issues no [/view] call.
    (The job id names no member of [Object.prototype], and the node ids
    are distinct.) *)
Theorem comfy_generate_job_without_image (nts : Q -> jsstring) (u : URL)
        (body : value) (id : jsstring) (snapshots : nat -> History) (img : list N)
        (n fuel : nat) (o : JobOutputs) :
  object_inherits id = false ->
  job_of id (snapshots n) = Some o ->
  (forall j, j < n -> has_job id (snapshots j) = false) ->
  NoDup (List.map fst o) ->
  List.concat (List.map snd o) = [] ->
  n < fuel ->
  let h := comfy_generate nts fuel (mkRequest (Some u) body) in
  let historyUrl := set_pathname u comfy_history in
  outcome_of h (comfy_backend id snapshots img) = Ret (sendStatus 500)
  /\ io_of h (comfy_backend id snapshots img)
     = Called (mkCall POST (set_pathname u comfy_prompt))
       :: absent_rounds historyUrl n ++ [Called (mkCall GET historyUrl)].
Proof.
  intros Hid Hjob Habs Hnd Himgs Hfuel h historyUrl. subst h historyUrl.
  unfold outcome_of, io_of.
  rewrite (comfy_generate_on_job nts u body id snapshots img n fuel o Hid Hjob Habs Hfuel).
  rewrite (fetch_first_image_of_job nts u body _ o _ Hnd),
    (concat_enumerate_nil o Himgs).
  split; reflexivity.
Qed.

Lemma comfy_generate_fetches_first_image_witness :
  io_of (comfy_generate (fun _ => []) 4 (mkRequest (Some sample_comfy_url) (VObj [])))
        (comfy_backend abc123 two_node_snapshots [137; 80; 78; 71]%N)
  = Called (mkCall POST (set_pathname sample_comfy_url comfy_prompt))
    :: absent_rounds (set_pathname sample_comfy_url comfy_history) 2
    ++ [Called (mkCall GET (set_pathname sample_comfy_url comfy_history));
        Called (mkCall GET (set_search (set_pathname sample_comfy_url comfy_view)
                              (asset_search second_png)))].
Proof.
  refine (proj2 (proj1 (comfy_generate_fetches_first_image (fun _ => []) sample_comfy_url
                   (VObj []) abc123 two_node_snapshots [137; 80; 78; 71]%N 2 4
                   [(js "9", [x_png]); (js "3", [second_png; x_png])] second_png
                   [x_png; x_png] eq_refl eq_refl _ _ eq_refl _))).
  - intros [|[|j]] Hj; [reflexivity|reflexivity|].
    exfalso. apply (Nat.lt_irrefl 2).
    apply (Nat.le_lt_trans _ (S (S j))); [apply le_n_S, le_n_S, Nat.le_0_l|exact Hj].
  - repeat constructor; cbn; intuition discriminate.
  - repeat constructor.
Defined.

Lemma comfy_generate_job_without_image_witness :
  outcome_of (comfy_generate (fun _ => []) 1 (mkRequest (Some sample_comfy_url) (VObj [])))
             (comfy_backend abc123 empty_job_snapshots [])
  = Ret (sendStatus 500).
Proof.
  refine (proj1 (comfy_generate_job_without_image (fun _ => []) sample_comfy_url
                   (VObj []) abc123 empty_job_snapshots [] 0 1 [(js "9", [])]
                   eq_refl eq_refl _ _ eq_refl _)).
  - intros j Hj. exfalso. exact (Nat.nlt_0_r j Hj).
  - repeat constructor. intros [].
  - repeat constructor.
Defined.

(** *** The query string of the asset URL *)

Lemma scalar_values_plain (s : jsstring) :
  forallb is_query_plain s = true -> scalar_values s = s.
Proof.
  induction s as [|c t IH]; [reflexivity|].
  cbn [forallb]. intro H. apply andb_prop in H. destruct H as [Hc Ht].
  assert (Hlt : (c <= 126)%N).
  { unfold is_query_plain in Hc.
    repeat (apply andb_prop in Hc; destruct Hc as [Hc ?]).
    apply N.leb_le. assumption. }
  cbn [scalar_values].
  replace (is_high_surrogate c) with false
    by (symmetry; unfold is_high_surrogate; apply andb_false_intro1; apply N.leb_gt; lia).
  replace (is_low_surrogate c) with false
    by (symmetry; unfold is_low_surrogate; apply andb_false_intro1; apply N.leb_gt; lia).
  rewrite (IH Ht). reflexivity.
Qed.

Lemma percent_encode_query_plain (special : bool) (s : jsstring) :
  forallb is_query_plain s = true -> percent_encode_query special s = s.
Proof.
  intro H. unfold percent_encode_query. rewrite (scalar_values_plain s H).
  induction s as [|c t IH]; [reflexivity|].
  cbn [forallb] in H. apply andb_prop in H. destruct H as [Hc Ht].
  assert (Hkeep : is_tab_or_newline c = false /\ in_query_encode_set special c = false).
  { unfold is_query_plain in Hc.
    repeat (apply andb_prop in Hc; destruct Hc as [Hc ?]).
    repeat match goal with
           | H : negb _ = true |- _ => apply negb_true_iff in H; apply N.eqb_neq in H
           | H : (_ <=? _)%N = true |- _ => apply N.leb_le in H
           end.
    split.
    - unfold is_tab_or_newline.
      repeat (apply orb_false_intro); apply N.eqb_neq; lia.
    - unfold in_query_encode_set.
      repeat (apply orb_false_intro);
        try (apply N.eqb_neq; lia); try (apply N.leb_gt; lia); try (apply N.ltb_ge; lia).
      destruct special; [apply N.eqb_neq; lia|reflexivity]. }
  destruct Hkeep as [Htab Hset].
  cbn [filter]. rewrite Htab. cbn [negb flat_map]. rewrite Hset.
  cbn [app]. f_equal. exact (IH Ht).
Qed.

(** X27: the three fields go into the query string unescaped.  When the
    file name, the subfolder and the type are made of printable ASCII other
    than the space, the double quote, the apostrophe, [#], [<] and [>], the
    [search] of the asset URL is literally
    [?filename=F&subfolder=S&type=T]; in particular an [&] or [=] inside a
    field is not escaped. *)
Theorem asset_query_is_verbatim (v : URL) (i : Image) :
  forallb is_query_plain (img_filename i) = true ->
  forallb is_query_plain (img_subfolder i) = true ->
  forallb is_query_plain (img_type i) = true ->
  search (set_search v (asset_search i))
  = js "?filename=" ++ img_filename i ++ js "&subfolder=" ++ img_subfolder i
    ++ js "&type=" ++ img_type i.
Proof.
  intros Hf Hs Ht. unfold search, set_search, asset_search. cbn [url_query].
  change (js "?filename=") with (QUESTION :: js "filename=").
  cbn [app]. change (QUESTION =? QUESTION)%N with true. cbv iota.
  rewrite percent_encode_query_plain.
  - reflexivity.
  - rewrite !forallb_app, Hf, Hs, Ht. reflexivity.
Qed.

Lemma asset_query_is_verbatim_witness :
  search (set_search sample_comfy_url
            (asset_search (mkImage (js "a&type=input.png") (js "out") (js "output"))))
  = js "?filename=a&type=input.png&subfolder=out&type=output".
Proof.
  apply (asset_query_is_verbatim sample_comfy_url
           (mkImage (js "a&type=input.png") (js "out") (js "output")));
    reflexivity.
Defined.
